(* ===== verification/_CoqProject ===== *)
-Q . S2P
Prelude.v
Types.v
SymbolTable.v
Assembler.v
Facade.v
Analysis.v
Hooks.v
Worker.v
Docks.v
Lifecycle.v
ContextMenu.v
MainWindow.v
