(* ===== verification/Prelude.v ===== *)
(** * A verification development for REDasm's instruction-analysis core

    The program.  REDasm is an interactive disassembler.  Its core, in
    [src/redasm/plugins/assembler/assembler.cpp], is the [AssemblerPlugin]
    base class that every architecture backend extends:
    - [decode] renders the raw bytes of an instruction as lowercase hex and
      reports "not decoded" unless a backend overrides it;
    - [done] is the termination policy of linear decoding: it ends a run at
      a stop or an unconditional jump, one instruction late on
      architectures with branch delay slots, using a stack of per-context
      flag words ([pushState]/[popState]);
    - [analyzeOperand] classifies the value of one operand of a decoded
      instruction (pointer, call target, jump target, string, data),
      creates symbols through the symbol table, enqueues new code through
      [disassemble] and records cross references;
    - [analyzeRegister] resolves an indirect branch through the emulator.
    The surrounding GUI ([src/hooks/disassemblerhooks.cpp],
    [src/mainwindow.cpp], [src/dialogs/devdialog/devdialog.h]) drives
    the engine: context-menu visibility, the status-bar location text,
    toolbar dispatch and the recent-files menu are decision procedures
    over the current document state; the hooks own the main window's
    central widget, its docks (the output dock among them) and the
    context menu of every command widget.

    The library (files in dependency order, see [_CoqProject]).
    - [Prelude] (this file): machine-width integers (u32/u64 wrap-around,
      s64 and int conversions), flag words as [Z] bit masks with
      [Z.land]/[Z.lor]/[Z.lnot], the [redasm] hint database and tactics.
    - [Types]: the data model shared by all components: instruction,
      operand and symbol type flags, the [Operand], [DisplacementOperand],
      [Instruction], [Symbol] and [Segment] records, [Instruction::cmt],
      [Instruction::target], the hex renderer [REDasm::hex].  Header code
      (not under src/), modelled from the spec.
    - [SymbolTable]: the symbol-table contract of spec section 6 as a type
      class [SymbolTableOps] with its laws (the interface the analysis is
      proved against), and its implementation on stdpp's [gmap Z Symbol]
      with the laws discharged.
    - [Facade]: the [DisassemblerFunctions] facade: an environment of
      read-only oracles (segments, pointer dereference, string detection,
      emulator) and a state of symbol table, current instruction and the
      trace of facade calls; a state monad [FM] over it.
    - [Assembler]: [AssemblerPlugin] state (capability flags,
      endianness, state stack), [decode], [done], [pushState],
      [popState], the capability queries; the plugin step relation and
      its reachability invariant; the linear-run refinement.
    - [Analysis]: [analyzeOperand] and [analyzeRegister], line by line,
      over the facade monad, proved against the [SymbolTableOps] laws.
    - [Hooks]: the decision logic of [DisassemblerHooks]: context-menu
      visibility [adjustActions] (split as in the code into
      [adjust_no_symbol] and [adjust_symbol]), generic over the
      interface [MenuOps] ([setVisible]/[setText] on the action of a
      key), with the abstract persistent [Menu] as one instance, status text [statusAddress] and its [function_label],
      toolbar and window-menu dispatch, [enableCommands],
      [updateViewWidgets], [loadRecents] and [load]; with
      [MainWindow::loadRecents] and [MainWindow::load] of
      [src/mainwindow.cpp] beside them.  The rdapi queries are fields of a
      [MenuContext] snapshot.
    - [Worker]: the Create Function action of the context menu and the
      [std::async] task it starts, as an interleaving semantics: the UI
      thread's steps [trigger], [assign] (the store into [m_worker], which
      waits for the previous task) and [ret], the task's step [run], the
      lambda's stack frames and the trace of calls; [wstep] and
      [reachable] with an invariant proved by rule induction.
    - [Lifecycle]: the hooks' view lifecycle.  [Pages] is the main
      window's central widget with the [destroyed] connections
      [replaceWidget] makes and the deferred-deletion queue; [deliver] is
      one delivery of the event loop, [run_events] the loop with fuel.
      [HState] and the state-and-error monad [HM] carry the hooks'
      handlers: [close], [loadDisassemblerView], [showWelcome], [hook],
      [showLoaders], [enableMenu], [enableViewCommands],
      [activeCommandTab], [checkListingMode], the renderer button,
      [showDeveloperTools], [updateCommandStates], the context-menu
      actions, the small handlers ([open], [initialize], the dialogs, the
      empty [save]/[saveAs]), the toolbar and window-menu slots and the
      signal [dispatch] of [hook()]; a null dereference, a [QList] index
      out of range or an uninitialised read is an [HError].  [DevDialog]
      records the developer dialog's members.
    - [Docks] (before [Lifecycle], which holds it in its state): the
      main window's children, dock layout and deferred deletions;
      [dock], [undock], [outputDock], [log], [clearLog], [clearOutput];
      a dock invariant and the step relation [dstep].
    - [ContextMenu]: [createActions] as the sequence of its
      [addAction]/[addSeparator] statements, the key map with
      [operator[]]'s null insertion, the [setData] loop, the widget
      registration, [adjustActions]' map rebuild, Qt's key-press
      resolution and the dispatch of an action to its lambda in [HM];
      the [QAction]s with the rebuilt map are the second [MenuOps]
      instance ([QMenu_ops]), on which [showMenu] runs [adjustActions].
    - [MainWindow]: the handlers of [src/mainwindow.cpp] ([load],
      [initDisassembler], [checkPlugins], [closeEvent], drag and drop,
      open, recent files, [loadGeometry], [checkCommandLine], the
      constructor) over a [MWState] record, the outside world as a
      read-only [MWEnv]; [mw_step] runs any handler with any user input.

    What the theorems show.
    - Termination policy ([Assembler]): without delay slots [done] answers
      true exactly on stops and unconditional jumps; with delay slots the
      jump answers false and the next instruction true whatever its flags;
      the delay-slot flag never leaks out of a [pushState]/[popState]
      context; every reachable stack entry is [None] or [DelaySlot]; the
      iteration of [done] over an instruction stream cuts it where the
      abstract block specification says (refinement); [decode] renders
      exactly [2*size] hex digits that parse back to the bytes.
    - Operand analysis ([Analysis]): import symbols are never
      dereferenced; a fresh call target becomes a Function and is enqueued
      exactly once, an existing Function is not enqueued again; Function
      symbols stay Functions; the string threshold is exact at
      [MIN_STRING]; jump comments match the direction for targets within
      2^31 bytes; references are recorded exactly when a segment holds the
      value; the register path is a no-op on every failed precondition.
    - Findings proved as theorems: the promotion check reads the symbol
      at the pointer while the erase hits the pointee (a Function with
      extra attributes is recreated and enqueued again); [int dir]
      truncates the 64-bit branch distance; a missing segment skips the
      reference the spec asks for; the register path re-enqueues its
      target at every analysis.
    - GUI hooks ([Hooks]): while busy, with a symbol under the cursor,
      the menu hides every action that edits or queries the document, and
      Goto is off in both menu and toolbar; Create Function is offered
      exactly for weak non-function symbols in code; the status text is
      written only when idle; long function names are elided to 53
      characters and backward offsets print as the true negative distance
      (the [size_t] to signed cast is exact within 2^63); recent-file
      actions open existing files at their own slot.  Equivalences: menus
      are compared by the setoid [≡] (same state for every action), with
      [Proper] instances for the menu builders; [adjustActions] is a
      pointwise update, hence idempotent; the hooks' and the main
      window's recent menus coincide when every file exists.  Findings:
      with no symbol under the cursor Comment keeps a stale visibility and
      Call Graph is offered while busy; [DisassemblerHooks::load] records
      unreadable files as recent; a missing recent file shrinks the
      hooks' menu.
    - Create Function task ([Worker]): at most two tasks are pending, one
      when the UI thread is idle; every state can drain (no deadlock in
      the [m_worker] wait); a task reads a defined address exactly when it
      runs before its lambda returns.  Findings: a schedule where the task
      reads the ended local [symbol], and the failure branch logs an
      uninitialised address.
    - View lifecycle ([Lifecycle]): the event loop drains the deferred
      deletions within [pages_measure] deliveries, although a delivery
      may post new ones through [setCentralWidget] (termination, with the
      measure as fuel); once the loop has run, [replaceWidget w] has made
      [w] central and deleted the old widget (refinement of
      [central := w]).  [close] leaves [m_activecommandtab] on the closed
      view, and [showDeveloperTools] dereferences it without the fallback
      of [activeCommandTab] (lemmas, and a sample session).  One return
      to the event loop empties both deletion queues, of pages and of
      docks; the window menu's slot and the toolbar's Filter action
      dereference a null view when there is none, and [close] turns the
      window menu off as it forgets the view (lemmas).
    - Docks ([Docks]): creating widgets, docking, undocking, the event
      loop's deletions and the output calls keep the dock invariant
      (children live and listed once, docked widgets are listed
      dock-widget children in one layout slot, fresh numbers unused), by
      rule induction on [dstep]; the output dock [hook()] docks is found,
      and [log] writes to it, exactly when [OutputDock] is a
      [QDockWidget] (a wrapped one leaves the main window's direct
      children and every [log] dereferences null); undocking it has the
      same effect (example).
    - Context menu ([ContextMenu]): every [Action_*] key has an action
      stamped with it, so [adjustActions]' rebuilt map is total and equals
      the construction's; the widget carries exactly the actions with a
      shortcut and every key press of a shortcut triggers its own action
      (proved by reflection: [keys_ok] and [shortcuts_ok] are boolean
      checks with soundness lemmas, run by [vm_compute]).  Refinement:
      showing the built menu in any sequence of contexts never
      dereferences a null action, and every key's [QAction] then shows
      what [adjustActions] computes on the abstract [Menu] (a simulation
      [qsim] preserved by each [setVisible]/[setText] call), so the
      visibility theorems of [Hooks] hold of the real menu.
    - Main window ([MainWindow]): in every reachable state the stacked
      widget shows exactly one page and a view page has its disassembler;
      [checkCommandLine] loads the first acceptable argument; the close
      confirmation is asked exactly when a buffer is loaded.  Finding:
      loading an empty file keeps the old view under the new title and
      disables the close confirmation.

    Bounds and fuel.  Addresses and values are [Z] kept in [0, 2^64) by
    well-formedness predicates, wrapped with [mod 2^64] where the code
    converts (s64 displacement to u64), and truncated to 32 bits where
    the code assigns to [int].  Flag words are u32.  The status bar's
    [size_t] difference is wrapped to 64 bits and read back signed.
    Nothing recurses without structure: [done] is iterated by structural
    recursion on the instruction list, so no fuel is needed.  The [Worker] schedules are
    finite lists of steps run by structural recursion.  The event loop of
    [Lifecycle] runs on fuel; [pages_measure] (deferred deletions plus
    twice the pending connections) is enough fuel, and more fuel gives
    the same result.  The dock deletions of [Docks] never post new ones
    and each delivery removes its object from the queue, so the length
    of the queue is the fuel [eventLoop] gives [run_dock_events].

    Not modelled.  The concrete backends (x86, MIPS, ...), the format
    loaders, the VMIL emulator's instruction set, the real recursive
    [Disassembler::disassemble] (modelled as a work-list request that
    answers with an oracle), [checkJumpTable]'s own symbol creation
    (recorded as a call), [AssemblerPlugin::createPrinter] (it allocates a
    [Printer], a class outside src/), Qt widget rendering and settings
    persistence.  The dialogs' contents (loader, analyzer, references,
    goto, settings, about, database, problems) are outside the modelled
    files: running one is an event.  [DevDialog]'s constructor,
    [setCommand] and [dispose] have no body under src/; only its members
    are modelled.  The [OutputDock] class is outside src/: whether it
    derives from [QDockWidget] is a parameter.  The event loop is
    modelled for deferred deletions only, and the main window's
    [deleteLater] calls are recorded, not run.  The pure deciders of
    [Hooks] ([statusAddress], [updateViewWidgets], [loadRecents], [load])
    are not threaded through the hooks' state, and [RDContext_IsBusy] is
    read once per handler, where the code reads it several times while
    the analysis may change it. *)

From stdpp Require Export base gmap strings list.
From Stdlib Require Export ZArith Lia.

Declare Scope redasm_scope.
Delimit Scope redasm_scope with rd.
Open Scope Z_scope.

(** ** Machine-width integers *)

Definition u32_modulus : Z := 2 ^ 32.
Definition u64_modulus : Z := 2 ^ 64.

(** An unsigned conversion to [w] bits, as C++ does on assignment. *)
Definition wrap_u (w z : Z) : Z := z mod 2 ^ w.
Definition wrap_u32 (z : Z) : Z := wrap_u 32 z.
Definition wrap_u64 (z : Z) : Z := wrap_u 64 z.

(** A signed two's-complement conversion to [w] bits ([static_cast<s64>],
    assignment to [int]). *)
Definition wrap_s (w z : Z) : Z := (z + 2 ^ (w - 1)) mod 2 ^ w - 2 ^ (w - 1).
Definition to_s32 (z : Z) : Z := wrap_s 32 z.
Definition to_s64 (z : Z) : Z := wrap_s 64 z.

Definition is_u32 (z : Z) : Prop := 0 <= z < u32_modulus.
Definition is_u64 (z : Z) : Prop := 0 <= z < u64_modulus.

(** ** Flag words *)

(** [x & f] used as a condition. *)
Definition has_flag (x f : Z) : bool := negb (Z.land x f =? 0).
(** [x |= f] *)
Definition set_flag (x f : Z) : Z := Z.lor x f.
(** [x &= ~f] *)
Definition clear_flag (x f : Z) : Z := Z.land x (Z.lnot f).

Notation "x '&?' f" := (has_flag x f) (at level 40, no associativity) : redasm_scope.
Notation "x '|:' f" := (set_flag x f) (at level 40, left associativity) : redasm_scope.
Notation "x '&~' f" := (clear_flag x f) (at level 40, left associativity) : redasm_scope.
Open Scope redasm_scope.

(** A single-bit flag. *)
Definition single_bit (f : Z) : Prop := exists k, 0 <= k /\ f = 2 ^ k.

Create HintDb redasm discriminated.
Create Rewrite HintDb redasm_rw.

(** ** Lemmas on wrap-around *)

Lemma wrap_u_range w z : 0 <= w -> 0 <= wrap_u w z < 2 ^ w.
Proof. intros Hw. unfold wrap_u. apply Z.mod_pos_bound. apply Z.pow_pos_nonneg; lia. Qed.

Lemma wrap_u_small w z : 0 <= z < 2 ^ w -> wrap_u w z = z.
Proof. intros Hz. unfold wrap_u. apply Z.mod_small. exact Hz. Qed.

Lemma wrap_u64_is_u64 z : is_u64 (wrap_u64 z).
Proof. apply (wrap_u_range 64); lia. Qed.

Lemma wrap_s_small w z :
  0 < w -> - 2 ^ (w - 1) <= z < 2 ^ (w - 1) -> wrap_s w z = z.
Proof.
  intros Hw Hz. unfold wrap_s.
  assert (E : 2 ^ w = 2 * 2 ^ (w - 1)).
  { rewrite <- Z.pow_succ_r by lia. f_equal. lia. }
  rewrite Z.mod_small; lia.
Qed.

(** A signed conversion only depends on its argument modulo [2^w]. *)
Lemma wrap_s_congr w a b :
  0 < w -> a mod 2 ^ w = b mod 2 ^ w -> wrap_s w a = wrap_s w b.
Proof.
  intros Hw H. unfold wrap_s. f_equal.
  rewrite (Z.add_mod a), (Z.add_mod b), H by (apply Z.pow_nonzero; lia). reflexivity.
Qed.

Lemma wrap_s_mod w z : wrap_s w z mod 2 ^ w = z mod 2 ^ w.
Proof.
  unfold wrap_s. rewrite Zminus_mod_idemp_l. f_equal. lia.
Qed.

Lemma mod_2_64_mod_2_32 z : (z mod 2 ^ 64) mod 2 ^ 32 = z mod 2 ^ 32.
Proof. apply Z.mod_mod_divide. exists (2 ^ 32). reflexivity. Qed.

(** Truncation to [int] only depends on the value modulo 2^32: an s64
    intermediate that wrapped gives the same [int]. *)
Lemma to_s32_mod_2_64 z : to_s32 (z mod 2 ^ 64) = to_s32 z.
Proof. apply wrap_s_congr; [lia|]. apply mod_2_64_mod_2_32. Qed.

Lemma to_s32_s64 z : to_s32 (to_s64 z) = to_s32 z.
Proof.
  apply wrap_s_congr; [lia|].
  rewrite <- (mod_2_64_mod_2_32 (to_s64 z)), <- (mod_2_64_mod_2_32 z).
  unfold to_s64. rewrite wrap_s_mod. reflexivity.
Qed.

(** ** Lemmas on flag words *)

Lemma has_flag_testbit x k :
  0 <= k -> has_flag x (2 ^ k) = Z.testbit x k.
Proof.
  intros Hk. unfold has_flag.
  rewrite Z.land_comm, <- Z.shiftl_1_l, Z.shiftl_mul_pow2, Z.mul_1_l by lia.
  destruct (Z.testbit x k) eqn:Hb.
  - destruct (Z.eqb_spec (Z.land (2 ^ k) x) 0) as [E|E]; [|reflexivity].
    exfalso. assert (Z.testbit (Z.land (2 ^ k) x) k = false) as B by (rewrite E; apply Z.bits_0).
    rewrite Z.land_spec, Z.pow2_bits_true, Hb in B by lia. discriminate.
  - destruct (Z.eqb_spec (Z.land (2 ^ k) x) 0) as [E|E]; [reflexivity|].
    exfalso. apply E. apply Z.bits_inj'. intros n Hn.
    rewrite Z.land_spec, Z.bits_0.
    destruct (Z.eq_dec n k) as [->|Hne]; [rewrite Hb; apply andb_false_r|].
    rewrite Z.pow2_bits_false by lia. reflexivity.
Qed.

Lemma has_flag_set_same x f : single_bit f -> has_flag (set_flag x f) f = true.
Proof.
  intros (k & Hk & ->). rewrite has_flag_testbit by lia. unfold set_flag.
  rewrite Z.lor_spec, Z.pow2_bits_true by lia. apply orb_true_r.
Qed.

Lemma has_flag_clear_same x f : single_bit f -> has_flag (clear_flag x f) f = false.
Proof.
  intros (k & Hk & ->). rewrite has_flag_testbit by lia. unfold clear_flag.
  rewrite Z.land_spec, Z.lnot_spec, Z.pow2_bits_true by lia. apply andb_false_r.
Qed.

Lemma has_flag_0 f : has_flag 0 f = false.
Proof. reflexivity. Qed.

Lemma clear_flag_0 f : clear_flag 0 f = 0.
Proof. reflexivity. Qed.

(** Clearing a flag that is not set changes nothing. *)
Lemma clear_flag_unset x f :
  single_bit f -> has_flag x f = false -> clear_flag x f = x.
Proof.
  intros (k & Hk & ->) Hx. rewrite has_flag_testbit in Hx by lia.
  unfold clear_flag. apply Z.bits_inj'. intros n Hn.
  rewrite Z.land_spec, Z.lnot_spec by lia.
  destruct (Z.eq_dec n k) as [->|Hne]; [rewrite Hx; reflexivity|].
  rewrite Z.pow2_bits_false by lia. apply andb_true_r.
Qed.

(** Setting then clearing the same single bit on a word that did not have
    it gives the word back. *)
Lemma clear_set_flag x f :
  single_bit f -> has_flag x f = false -> clear_flag (set_flag x f) f = x.
Proof.
  intros (k & Hk & ->) Hx. rewrite has_flag_testbit in Hx by lia.
  unfold clear_flag, set_flag. apply Z.bits_inj'. intros n Hn.
  rewrite Z.land_spec, Z.lor_spec, Z.lnot_spec by lia.
  destruct (Z.eq_dec n k) as [->|Hne].
  - rewrite Hx, Z.pow2_bits_true by lia. reflexivity.
  - rewrite Z.pow2_bits_false by lia. rewrite orb_false_r, andb_true_r. reflexivity.
Qed.

Lemma single_bit_pow k : 0 <= k -> single_bit (2 ^ k).
Proof. intros Hk. exists k. split; [exact Hk|reflexivity]. Qed.

(** Lengths of strings built by concatenation and prefix extraction. *)
Lemma string_length_app (s1 s2 : string) :
  String.length (s1 +:+ s2) = (String.length s1 + String.length s2)%nat.
Proof. induction s1 as [|c s1 IH]; simpl; [reflexivity|rewrite IH; reflexivity]. Qed.

Lemma string_length_prefix (n : nat) (s : string) :
  (n <= String.length s)%nat -> String.length (String.substring 0 n s) = n.
Proof.
  revert s. induction n as [|n IH]; intros [|c s] Hn; simpl in *; try lia.
  rewrite IH by lia. reflexivity.
Qed.

(** A [flat_map] whose images have at most one element is no longer
    than its argument, and shorter when one image is empty. *)
Lemma flat_map_length_le {A B} (f : A -> list B) (l : list A) :
  (forall y, In y l -> (length (f y) <= 1)%nat) -> (length (flat_map f l) <= length l)%nat.
Proof.
  induction l as [|y l IH]; simpl; intros Hle; [lia|]. rewrite length_app.
  pose proof (Hle y (or_introl eq_refl)). pose proof (IH (fun w Hw => Hle w (or_intror Hw))). lia.
Qed.

Lemma flat_map_length_lt {A B} (f : A -> list B) (l : list A) (x : A) :
  (forall y, In y l -> (length (f y) <= 1)%nat) -> In x l -> f x = [] ->
  (length (flat_map f l) < length l)%nat.
Proof.
  induction l as [|y l IH]; simpl; intros Hle Hx Hfx; [contradiction|].
  rewrite length_app. pose proof (Hle y (or_introl eq_refl)).
  pose proof (flat_map_length_le f l (fun w Hw => Hle w (or_intror Hw))).
  destruct Hx as [->|Hx]; [rewrite Hfx; simpl; lia|].
  pose proof (IH (fun w Hw => Hle w (or_intror Hw)) Hx Hfx). lia.
Qed.

Lemma flat_map_singleton_map {A B} (f : A -> list B) (g : A -> B) (l : list A) :
  (forall x, In x l -> f x = [g x]) -> flat_map f l = map g l.
Proof.
  induction l as [|x l IH]; intros Hf; simpl; [reflexivity|].
  rewrite Hf by (left; reflexivity). simpl. f_equal. apply IH. intros y Hy. apply Hf. right. exact Hy.
Qed.

(** A list splits into the elements a test keeps and those it drops. *)
Lemma length_filter_split {A} (P : A -> Prop) `{!∀ x, Decision (P x)} (l : list A) :
  (length (filter P l) + length (filter (fun x => ¬ P x) l) = length l)%nat.
Proof.
  induction l as [|x l IH]; [reflexivity|].
  destruct (decide (P x)).
  - rewrite filter_cons_True, (filter_cons_False (fun x => ¬ P x)) by auto. simpl. lia.
  - rewrite filter_cons_False, (filter_cons_True (fun x => ¬ P x)) by auto. simpl. lia.
Qed.

Lemma filter_all {A} (P : A -> Prop) `{!∀ x, Decision (P x)} (l : list A) :
  (forall x, x ∈ l -> P x) -> filter P l = l.
Proof.
  induction l as [|x l IH]; intros HP; [reflexivity|].
  rewrite filter_cons_True by (apply HP; set_solver). f_equal. apply IH. set_solver.
Qed.

(** A duplicate-free list of copies of one element has at most one. *)
Lemma NoDup_const_length {A} (l : list A) (n : A) :
  NoDup l -> (forall k, k ∈ l -> k = n) -> (length l <= 1)%nat.
Proof.
  intros Hnd Hl. destruct l as [|a [|b l]]; simpl; try lia.
  apply NoDup_cons in Hnd as [Hab _]. exfalso. apply Hab.
  rewrite (Hl a), (Hl b) by set_solver. set_solver.
Qed.

#[export] Hint Resolve wrap_u64_is_u64 single_bit_pow : redasm.
#[export] Hint Rewrite has_flag_set_same has_flag_clear_same clear_flag_0 using (auto with redasm; lia) : redasm_rw.

(** Decide the flag tests of concrete flag words. *)
Ltac flags_compute :=
  unfold has_flag, set_flag, clear_flag in *; simpl Z.land in *; simpl Z.lor in *; simpl Z.eqb in *; simpl negb in *.

(** [List.find] on an appended list, and on lists where two tests agree. *)
Lemma find_app {A} (f : A -> bool) (l1 l2 : list A) :
  List.find f (l1 ++ l2) = match List.find f l1 with Some x => Some x | None => List.find f l2 end.
Proof. induction l1 as [|x l1 IH]; simpl; [reflexivity|]. destruct (f x); auto. Qed.

Lemma find_ext_in {A} (f g : A -> bool) (l : list A) :
  (forall x, x ∈ l -> f x = g x) -> List.find f l = List.find g l.
Proof.
  induction l as [|x l IH]; intros Hfg; simpl; [reflexivity|].
  rewrite (Hfg x) by set_solver. destruct (g x); [reflexivity|]. apply IH. set_solver.
Qed.

Lemma find_none_all {A} (f : A -> bool) (l : list A) :
  (forall x, x ∈ l -> f x = false) -> List.find f l = None.
Proof.
  induction l as [|x l IH]; intros Hf; simpl; [reflexivity|].
  rewrite Hf by set_solver. apply IH. set_solver.
Qed.

(** Filtering a list of pairs keeps its first components duplicate-free. *)
Lemma NoDup_fst_filter {A B} (P : A * B -> Prop) `{!∀ x, Decision (P x)} (l : list (A * B)) :
  NoDup l.*1 -> NoDup (filter P l).*1.
Proof.
  intros Hnd. eapply sublist_NoDup; [exact Hnd|].
  apply fmap_sublist. apply sublist_filter.
Qed.

(** A boolean test of every indexed element of a list. *)
Lemma forallb_imap_lookup {A} (f : nat -> A -> bool) (l : list A) i x :
  forallb (fun ix => f ix.1 ix.2) (imap pair l) = true -> l !! i = Some x -> f i x = true.
Proof.
  rewrite forallb_forall. intros Hall Hi.
  apply (Hall (i, x)), list_elem_of_In, (elem_of_lookup_imap_2 pair l x i Hi).
Qed.
