(* ===== verification/Types.v ===== *)
(** * The data model shared by the analysis components

    Instruction, operand, symbol and segment records and their type-flag
    words, as the REDasm headers declare them ([redasm/redasm.h]); these
    headers are not part of the sources under src/, so this file is
    modelled from the spec (section 3): flag values are distinct bits,
    [Branch] is [Jump | Call] (the code tests [is(Branch)] and then
    [is(Call)] on the same instruction), and [is(t)] is [type & t].
    Also here: the hex renderer [REDasm::hex] used in comments. *)

From S2P Require Import Prelude.

(** ** Type-flag words *)

Module InstructionTypes.
Definition None : Z := 0.
Definition Stop : Z := 1.
Definition Nop : Z := 2.
Definition Jump : Z := 4.
Definition Call : Z := 8.
Definition Conditional : Z := 16777216.   (* 0x01000000 *)
Definition Branch : Z := Z.lor Jump Call.
End InstructionTypes.

Module OperandTypes.
Definition None : Z := 0.
Definition Constant : Z := 1.
Definition Register : Z := 2.
Definition Immediate : Z := 4.
Definition Memory : Z := 8.
Definition Displacement : Z := 16.
End OperandTypes.

Module SymbolTypes.
Definition None : Z := 0.
Definition Data : Z := 1.
Definition String : Z := 2.
Definition Code : Z := 4.
Definition Function : Z := 256.           (* 0x100 *)
Definition Import : Z := 512.             (* 0x200 *)
Definition EntryPoint : Z := Z.lor 4096 Function.
Definition WideString : Z := Z.lor 16777216 String.
Definition Pointer : Z := 33554432.       (* 0x02000000 *)
End SymbolTypes.

Module SegmentTypes.
Definition None : Z := 0.
Definition Code : Z := 1.
Definition Data : Z := 2.
Definition Bss : Z := 4.
End SegmentTypes.

Module AssemblerFlags.
Definition None : Z := 0.
Definition HasVMIL : Z := 1.
Definition EmulateVMIL : Z := 2.
Definition DelaySlot : Z := 4.
End AssemblerFlags.

(** ** Records *)

(** [DisplacementOperand]: base and index registers are optional (an
    invalid register is [None]). *)
Record DisplacementOperand := mkDisplacement {
  base : option Z;
  index : option Z;
  scale : Z;
  displacement : Z   (* s64 *)
}.

Definition displacementOnly (m : DisplacementOperand) : bool :=
  match base m, index m with None, None => true | _, _ => false end.

Record Operand := mkOperand {
  op_type : Z;
  op_index : Z;       (* position of the operand in the instruction *)
  op_reg : Z;
  op_u_value : Z;     (* u64 *)
  op_mem : DisplacementOperand;
  op_read : bool      (* read direction, [isRead()] *)
}.

Definition operand_is (o : Operand) (t : Z) : bool := op_type o &? t.
Definition isRead (o : Operand) : bool := op_read o.

Record Instruction := mkInstruction {
  address : Z;
  size : Z;
  bytes : string;
  itype : Z;
  operands : list Operand;
  target_idx : Z;     (* -1 when the instruction has no target operand *)
  targets : list Z;
  comments : list string
}.

Definition instruction_is (i : Instruction) (t : Z) : bool := itype i &? t.
Definition hasTargets (i : Instruction) : bool :=
  match targets i with [] => false | _ => true end.

(** [instruction->cmt(s)]: append a comment. *)
Definition cmt (s : string) (i : Instruction) : Instruction :=
  {| address := address i; size := size i; bytes := bytes i; itype := itype i;
     operands := operands i; target_idx := target_idx i; targets := targets i;
     comments := comments i ++ [s] |}.

(** [instruction->target(a)]: add a resolved target (a set of addresses). *)
Definition target (a : Z) (i : Instruction) : Instruction :=
  {| address := address i; size := size i; bytes := bytes i; itype := itype i;
     operands := operands i; target_idx := target_idx i;
     targets := if decide (a ∈ targets i) then targets i else targets i ++ [a];
     comments := comments i |}.

Definition set_bytes (s : string) (i : Instruction) : Instruction :=
  {| address := address i; size := size i; bytes := s; itype := itype i;
     operands := operands i; target_idx := target_idx i; targets := targets i;
     comments := comments i |}.

Record Symbol := mkSymbol {
  sym_type : Z;
  sym_address : Z;
  sym_name : string
}.

Definition symbol_is (s : Symbol) (t : Z) : bool := sym_type s &? t.
Definition isFunction (s : Symbol) : bool := symbol_is s SymbolTypes.Function.

Record Segment := mkSegment {
  seg_name : string;
  seg_type : Z
}.

Definition segment_is (s : Segment) (t : Z) : bool := seg_type s &? t.

(** ** Hex rendering *)

Definition hex_digit (upper : bool) (n : Z) : Ascii.ascii :=
  if n <? 10 then Ascii.ascii_of_nat (Z.to_nat n + 48)
  else Ascii.ascii_of_nat (Z.to_nat (n - 10) + if upper then 65 else 97).

Fixpoint hex_digits_fuel (fuel : nat) (n : Z) (acc : string) : string :=
  match fuel with
  | O => acc
  | S f =>
      let acc' := String (hex_digit true (n mod 16)) acc in
      if n <? 16 then acc' else hex_digits_fuel f (n / 16) acc'
  end.

(** [REDasm::hex(n)]: uppercase digits, no prefix, no padding.  One digit
    per four bits, so [log2 n + 1] steps are always enough. *)
Definition hex (n : Z) : string := hex_digits_fuel (S (Z.to_nat (Z.log2 n))) n "".

(** ** Decidable equality *)

#[export] Instance DisplacementOperand_eq_dec : EqDecision DisplacementOperand.
Proof. solve_decision. Defined.
#[export] Instance Operand_eq_dec : EqDecision Operand.
Proof. solve_decision. Defined.
#[export] Instance Instruction_eq_dec : EqDecision Instruction.
Proof. solve_decision. Defined.
#[export] Instance Symbol_eq_dec : EqDecision Symbol.
Proof. solve_decision. Defined.
#[export] Instance Segment_eq_dec : EqDecision Segment.
Proof. solve_decision. Defined.

(** ** Lemmas *)

Lemma cmt_preserves_is i s t : instruction_is (cmt s i) t = instruction_is i t.
Proof. reflexivity. Qed.

Lemma cmt_address i s : address (cmt s i) = address i.
Proof. reflexivity. Qed.

Lemma cmt_targets i s : targets (cmt s i) = targets i.
Proof. reflexivity. Qed.

Lemma target_in a i : a ∈ targets (target a i).
Proof.
  unfold target; simpl. case_decide; [assumption|].
  apply list_elem_of_In, in_or_app. right. left. reflexivity.
Qed.

Lemma target_hasTargets a i : hasTargets (target a i) = true.
Proof.
  pose proof (target_in a i) as H. unfold hasTargets.
  destruct (targets (target a i)); [inversion H|reflexivity].
Qed.

#[export] Hint Rewrite cmt_preserves_is cmt_address cmt_targets : redasm_rw.
#[export] Hint Resolve target_in target_hasTargets : redasm.

Example hex_examples : hex 0 = "0" /\ hex 4096 = "1000" /\ hex 255 = "FF"
  /\ hex 18446744073709551615 = "FFFFFFFFFFFFFFFF".
Proof. vm_compute. repeat split. Qed.
