(* ===== verification/SymbolTable.v ===== *)
(** * The symbol table: interface and implementation

    The analysis core only uses the symbol table through the contract of
    spec section 6: [symbol(address)], [createFunction], [createLocation],
    [createString], [createWString] and [erase].  [SymbolTableOps] states
    the operations, [SymbolTableLaws] what the analysis relies on: at most
    one symbol per address, a create on an occupied address leaves the
    table alone and answers false (a promotion needs the explicit
    erase-then-create of [analyzeOperand]), a create on a free address
    answers true and stores a symbol of the requested type there.  The
    [Analysis] component is proved against these laws only.

    [SymbolTableGmap] implements the contract on stdpp's [gmap Z Symbol]
    (the arena keyed by address of spec section 9), with generated names
    [sub_], [loc_], [str_], [wstr_], [ptr_], [data_] followed by the hex
    address; it discharges the laws.  The table class itself is not under
    src/: it is modelled from the spec. *)

From S2P Require Import Prelude.
From S2P Require Import Types.

(** ** Interface *)

Class SymbolTableOps (T : Type) := {
  st_symbol : Z -> T -> option Symbol;
  st_create : Z -> Z -> T -> bool * T;   (* address, symbol type *)
  st_erase : Z -> T -> T
}.

Class SymbolTableLaws (T : Type) `{SymbolTableOps T} := {
  create_free : forall a ty t, st_symbol a t = None ->
    fst (st_create a ty t) = true /\
    exists nm, st_symbol a (snd (st_create a ty t)) = Some (mkSymbol ty a nm);
  create_taken : forall a ty t s, st_symbol a t = Some s -> st_create a ty t = (false, t);
  create_other : forall a b ty t, a <> b ->
    st_symbol b (snd (st_create a ty t)) = st_symbol b t;
  erase_same : forall a t, st_symbol a (st_erase a t) = None;
  erase_other : forall a b t, a <> b -> st_symbol b (st_erase a t) = st_symbol b t
}.

(** ** Implementation on [gmap] *)

Module SymbolTableGmap.

Definition symbol_prefix (ty : Z) : string :=
  if ty &? SymbolTypes.Pointer then "ptr_"
  else if ty &? 16777216 then "wstr_"
  else if ty &? SymbolTypes.String then "str_"
  else if ty &? SymbolTypes.Function then "sub_"
  else if ty &? SymbolTypes.Code then "loc_"
  else "data_".

(** [REDasm::symbol(type, address)] *)
Definition symbol_name (ty a : Z) : string := symbol_prefix ty +:+ hex a.

Definition table := gmap Z Symbol.

Definition symbol (a : Z) (m : gmap Z Symbol) : option Symbol := m !! a.

(** Create only on a free address; answer whether it was free. *)
Definition create (a ty : Z) (m : gmap Z Symbol) : bool * gmap Z Symbol :=
  match m !! a with
  | Some _ => (false, m)
  | None => (true, <[a := mkSymbol ty a (symbol_name ty a)]> m)
  end.

Definition erase (a : Z) (m : gmap Z Symbol) : gmap Z Symbol := delete a m.

End SymbolTableGmap.

#[export] Instance SymbolTableGmap_ops : SymbolTableOps (gmap Z Symbol) :=
  {| st_symbol := SymbolTableGmap.symbol; st_create := SymbolTableGmap.create;
     st_erase := SymbolTableGmap.erase |}.

Section Contract.
Context {T : Type} `{SymbolTableLaws T}.

(** The named creators of the contract. *)
Definition createFunction (a : Z) (t : T) : bool * T := st_create a SymbolTypes.Function t.
Definition createLocation (a ty : Z) (t : T) : T := snd (st_create a ty t).
Definition createString (a : Z) (t : T) : T := snd (st_create a SymbolTypes.String t).
Definition createWString (a : Z) (t : T) : T := snd (st_create a SymbolTypes.WideString t).

Lemma create_keeps_existing a b ty t s :
  st_symbol b t = Some s -> st_symbol b (snd (st_create a ty t)) = Some s.
Proof.
  intros Hs. destruct (decide (a = b)) as [->|Hne].
  - rewrite (create_taken b ty t s Hs). exact Hs.
  - rewrite create_other by exact Hne. exact Hs.
Qed.

Lemma create_defines a ty t : is_Some (st_symbol a (snd (st_create a ty t))).
Proof.
  destruct (st_symbol a t) as [s|] eqn:E.
  - rewrite (create_taken a ty t s E). simpl. eauto.
  - destruct (create_free a ty t E) as [_ [nm ->]]. eauto.
Qed.

End Contract.

#[export] Hint Resolve create_keeps_existing create_defines : redasm.

(** The gmap table keeps the contract. *)
#[export] Instance SymbolTableGmap_laws : SymbolTableLaws (gmap Z Symbol).
Proof.
  split; simpl; unfold SymbolTableGmap.symbol, SymbolTableGmap.create, SymbolTableGmap.erase.
  - intros a ty m E. rewrite E. simpl. split; [reflexivity|].
    eexists. apply lookup_insert_eq.
  - intros a ty m s E. rewrite E. reflexivity.
  - intros a b ty m Hne. destruct (m !! a); simpl; [reflexivity|].
    apply lookup_insert_ne. exact Hne.
  - intros a m. apply lookup_delete_eq.
  - intros a b m Hne. apply lookup_delete_ne. exact Hne.
Qed.

Example symbol_name_examples :
  SymbolTableGmap.symbol_name SymbolTypes.Function 4096 = "sub_1000" /\
  SymbolTableGmap.symbol_name SymbolTypes.Code 4080 = "loc_FF0".
Proof. vm_compute. split; reflexivity. Qed.
