(* ===== verification/Assembler.v ===== *)
(** * The assembler plugin: decoding fallback and the termination policy

    Models [src/redasm/plugins/assembler/assembler.cpp] except the two
    analysis methods (in [Analysis]): the plugin's state is
    [AssemblerPlugin] (the backend's capability word returned by the
    virtual [flags()], [_endianness], [_statestack] with its top at the
    head of the list); [decode], [done], [pushState], [popState],
    [hasFlag], [hasVMIL], [canEmulateVMIL], [endianness] and
    [setEndianness] are one definition each.  Reading the top of an empty
    [std::stack] is undefined behaviour in the code; here it is the error
    [EmptyStateStack].  Reading past the end of the buffer is the error
    [BufferOutOfRange] (the [Buffer] class is bounds-checked).

    The linear decoding loop that calls [done] belongs to the external
    analysis driver; [run_block] models it from the spec (decode one
    instruction after the other until [done] says true). *)

From S2P Require Import Prelude.
From S2P Require Import Types.

Module Assembler.

Inductive endianness_t := LittleEndian | BigEndian.

#[export] Instance endianness_eq_dec : EqDecision endianness_t.
Proof. solve_decision. Defined.

Record AssemblerPlugin := mkPlugin {
  arch_flags : Z;               (* what the backend's [flags()] returns *)
  _endianness : endianness_t;
  _statestack : list Z          (* top first *)
  }.

Inductive AsmError := EmptyStateStack | BufferOutOfRange.

(** The constructor: little endian, empty state stack. *)
Definition create (fl : Z) : AssemblerPlugin := mkPlugin fl LittleEndian [].

(** [AssemblerPlugin::flags()] of the base class. *)
Definition base_flags : Z := AssemblerFlags.None.

Definition flags (p : AssemblerPlugin) : Z := arch_flags p.
Definition hasFlag (p : AssemblerPlugin) (f : Z) : bool := flags p &? f.
Definition hasVMIL (p : AssemblerPlugin) : bool := hasFlag p AssemblerFlags.HasVMIL.
Definition canEmulateVMIL (p : AssemblerPlugin) : bool := hasFlag p AssemblerFlags.EmulateVMIL.

(** [createEmulator]: the base class answers [NULL]; an emulator is what
    the analysis reads an operand's register value with. *)
Definition createEmulator (p : AssemblerPlugin) : option (Operand -> option Z) := None.

Definition endianness (p : AssemblerPlugin) : endianness_t := _endianness p.
Definition setEndianness (e : endianness_t) (p : AssemblerPlugin) : AssemblerPlugin :=
  mkPlugin (arch_flags p) e (_statestack p).

Definition with_stack (s : list Z) (p : AssemblerPlugin) : AssemblerPlugin :=
  mkPlugin (arch_flags p) (_endianness p) s.

Definition pushState (p : AssemblerPlugin) : AssemblerPlugin :=
  with_stack (AssemblerFlags.None :: _statestack p) p.

Definition popState (p : AssemblerPlugin) : AsmError + AssemblerPlugin :=
  match _statestack p with
  | [] => inl EmptyStateStack
  | _ :: rest => inr (with_stack rest p)
  end.

(** ** [decode] *)

Definition hex_byte (b : Byte.byte) : string :=
  let n := Z.of_N (Byte.to_N b) in
  String (hex_digit false (n / 16)) (String (hex_digit false (n mod 16)) "").

(** The loop [for(i = 0; i < size; i++) ss << setw(2) << buffer[i]]. *)
Fixpoint render_bytes (buffer : list Byte.byte) (n : nat) : AsmError + string :=
  match n, buffer with
  | O, _ => inr ""
  | S n', b :: buffer' =>
    match render_bytes buffer' n' with
    | inl e => inl e
    | inr s => inr (hex_byte b +:+ s)
    end
  | S _, [] => inl BufferOutOfRange
  end.

Definition decode (buffer : list Byte.byte) (i : Instruction) : AsmError + (bool * Instruction) :=
  match render_bytes buffer (Z.to_nat (size i)) with
  | inl e => inl e
  | inr s => inr (false, set_bytes s i)
  end.

(** ** [done] *)

Definition is_uncond_jump (i : Instruction) : bool :=
  instruction_is i InstructionTypes.Jump && negb (instruction_is i InstructionTypes.Conditional).

Definition done (i : Instruction) (p : AssemblerPlugin) : AsmError + (bool * AssemblerPlugin) :=
  match _statestack p with
  | [] => inl EmptyStateStack
  | top :: rest =>
    if top &? AssemblerFlags.DelaySlot then
      inr (true, with_stack ((top &~ AssemblerFlags.DelaySlot) :: rest) p)
    else if is_uncond_jump i then
      if flags p &? AssemblerFlags.DelaySlot then
        inr (false, with_stack ((top |: AssemblerFlags.DelaySlot) :: rest) p)
      else inr (true, p)
    else if instruction_is i InstructionTypes.Stop then
      inr (true, with_stack ((top &~ AssemblerFlags.DelaySlot) :: rest) p)
    else inr (false, p)
  end.

(** ** The driver's linear run (spec section 2) *)

Fixpoint run_block (l : list Instruction) (p : AssemblerPlugin) : AsmError + (nat * AssemblerPlugin) :=
  match l with
  | [] => inr (0%nat, p)
  | i :: rest =>
    match done i p with
    | inl e => inl e
    | inr (true, p') => inr (1%nat, p')
    | inr (false, p') =>
        match run_block rest p' with
        | inl e => inl e
        | inr (n, p'') => inr (S n, p'')
        end
    end
  end.

(** ** Abstract specification of a linear run

  A run ends after the first stop or unconditional jump; on an
  architecture with delay slots, after the instruction that follows an
  unconditional jump (when there is one). *)
Fixpoint block_spec (ds : bool) (l : list Instruction) : nat :=
  match l with
  | [] => 0
  | i :: rest =>
    if is_uncond_jump i then (if ds then 1 + min 1 (length rest) else 1)%nat
    else if instruction_is i InstructionTypes.Stop then 1%nat
    else S (block_spec ds rest)
  end.

(** ** Parsing the rendered bytes back *)

Definition nibble_of (c : Ascii.ascii) : option Z :=
  let n := Z.of_nat (Ascii.nat_of_ascii c) in
  if (48 <=? n) && (n <=? 57) then Some (n - 48)
  else if (97 <=? n) && (n <=? 102) then Some (n - 87) else None.

Fixpoint parse_hex_bytes (s : string) : option (list Byte.byte) :=
  match s with
  | EmptyString => Some []
  | String c1 (String c2 s') =>
    hi ← nibble_of c1; lo ← nibble_of c2;
    b ← Byte.of_N (Z.to_N (hi * 16 + lo));
    rest ← parse_hex_bytes s'; Some (b :: rest)
  | _ => None
  end.

(** A sample instruction of a given type at an address, for the witnesses. *)
Definition sample_insn (ty addr : Z) : Instruction :=
  mkInstruction addr 4 "" ty [] (-1) [] [].

Definition sample_plugin (fl : Z) : AssemblerPlugin := pushState (create fl).

(** ** The plugin as a state machine *)

Inductive plugin_step : AssemblerPlugin -> AssemblerPlugin -> Prop :=
  | step_push p : plugin_step p (pushState p)
  | step_pop p p' : popState p = inr p' -> plugin_step p p'
  | step_done p i b p' : done i p = inr (b, p') -> plugin_step p p'
  | step_endianness p e : plugin_step p (setEndianness e p).

Inductive reachable (fl : Z) : AssemblerPlugin -> Prop :=
  | reach_init : reachable fl (create fl)
  | reach_step p p' : reachable fl p -> plugin_step p p' -> reachable fl p'.

(** Every state-stack entry is [None] or [DelaySlot]. *)
Definition entry_ok (x : Z) : Prop := x = AssemblerFlags.None \/ x = AssemblerFlags.DelaySlot.

Definition plugin_inv (fl : Z) (p : AssemblerPlugin) : Prop :=
  arch_flags p = fl /\ Forall entry_ok (_statestack p) /\
  (fl &? AssemblerFlags.DelaySlot = false -> Forall (fun x => x = AssemblerFlags.None) (_statestack p)).

(** ** Lemmas on [done] *)

Lemma with_stack_self p : with_stack (_statestack p) p = p.
Proof. destruct p; reflexivity. Qed.

Lemma delay_slot_bit : single_bit AssemblerFlags.DelaySlot.
Proof. exists 2. split; [lia|reflexivity]. Qed.

#[local] Hint Resolve delay_slot_bit : redasm.

(** With the delay-slot flag clear on top, [done] only looks at the
  instruction and at the architecture. *)
Lemma done_clear_top i p top rest :
  _statestack p = top :: rest -> top &? AssemblerFlags.DelaySlot = false ->
  done i p = inr
  (if is_uncond_jump i then
     (if flags p &? AssemblerFlags.DelaySlot
      then (false, with_stack ((top |: AssemblerFlags.DelaySlot) :: rest) p)
      else (true, p))
   else (instruction_is i InstructionTypes.Stop, p)).
Proof.
  intros Hs Ht. unfold done. rewrite Hs, Ht.
  destruct (is_uncond_jump i); [destruct (flags p &? AssemblerFlags.DelaySlot); reflexivity|].
  destruct (instruction_is i InstructionTypes.Stop); [|reflexivity].
  rewrite clear_flag_unset by auto with redasm. rewrite <- Hs, with_stack_self. reflexivity.
Qed.

Lemma done_set_top i p top rest :
  _statestack p = top :: rest -> top &? AssemblerFlags.DelaySlot = true ->
  done i p = inr (true, with_stack ((top &~ AssemblerFlags.DelaySlot) :: rest) p).
Proof. intros Hs Ht. unfold done. rewrite Hs, Ht. reflexivity. Qed.

(** [done] only ever rewrites the top entry. *)
Lemma done_frame i p b p' :
  done i p = inr (b, p') ->
  arch_flags p' = arch_flags p /\ _endianness p' = _endianness p /\
  exists top top' rest, _statestack p = top :: rest /\ _statestack p' = top' :: rest.
Proof.
  unfold done. destruct (_statestack p) as [|top rest] eqn:Hs; [discriminate|].
  intros H. repeat case_match; simplify_eq; simpl; rewrite ?Hs;
  (split; [reflexivity|split; [reflexivity|]]); eauto 6.
Qed.

Lemma run_block_frame l p n p' :
  run_block l p = inr (n, p') ->
  arch_flags p' = arch_flags p /\ _endianness p' = _endianness p /\
  tail (_statestack p') = tail (_statestack p) /\ length (_statestack p') = length (_statestack p).
Proof.
  revert p n. induction l as [|i l IH]; intros p n H; simpl in H.
  - simplify_eq. auto.
  - destruct (done i p) as [|[b p1]] eqn:Hd; [discriminate|].
  destruct (done_frame _ _ _ _ Hd) as (F & E & top & top' & rest & Hs & Hs').
  destruct b.
  + simplify_eq. rewrite F, E, Hs, Hs'. auto.
  + destruct (run_block l p1) as [|[m p2]] eqn:Hr; [discriminate|]. simplify_eq.
    destruct (IH _ _ Hr) as (F2 & E2 & T2 & L2).
    rewrite F2, E2, T2, L2, F, E, Hs, Hs'. auto.
Qed.

(** * Termination policy *)

(** C1: on an architecture without delay slots, in a context whose
  delay-slot flag is clear, [done] answers true exactly on an
  unconditional jump or a stop, and leaves the plugin state unchanged. *)
Theorem done_no_delay_slot i p top rest :
  flags p &? AssemblerFlags.DelaySlot = false ->
  _statestack p = top :: rest -> top &? AssemblerFlags.DelaySlot = false ->
  done i p = inr (is_uncond_jump i || instruction_is i InstructionTypes.Stop, p).
Proof.
  intros Hf Hs Ht. rewrite (done_clear_top i p top rest Hs Ht), Hf.
  destruct (is_uncond_jump i); reflexivity.
Qed.

(** C2: on an architecture with delay slots, an unconditional jump is not
  the end of the run, and the next instruction ends it whatever its
  flags; afterwards the plugin is back in its state before the jump. *)
Theorem done_delay_slot i p top rest :
  flags p &? AssemblerFlags.DelaySlot = true ->
  _statestack p = top :: rest -> top &? AssemblerFlags.DelaySlot = false ->
  is_uncond_jump i = true ->
  exists p', done i p = inr (false, p') /\ forall j, done j p' = inr (true, p).
Proof.
  intros Hf Hs Ht Hj. rewrite (done_clear_top i p top rest Hs Ht), Hj, Hf.
  eexists. split; [reflexivity|]. intros j.
  rewrite (done_set_top j _ (top |: AssemblerFlags.DelaySlot) rest)
  by (reflexivity || (apply has_flag_set_same; auto with redasm)).
  unfold with_stack. simpl. rewrite clear_set_flag by auto with redasm.
  rewrite <- Hs. destruct p; reflexivity.
Qed.

(** C3: the delay-slot flag does not leak across decode contexts: a run
  inside a pushed context, whatever it decodes, pops back to exactly the
  plugin state before the push. *)
Theorem push_run_pop l p n q :
  run_block l (pushState p) = inr (n, q) -> popState q = inr p.
Proof.
  intros H. destruct (run_block_frame _ _ _ _ H) as (F & E & T & L).
  unfold popState. simpl in *.
  destruct (_statestack q) as [|x rest] eqn:Hq; [simpl in L; discriminate|].
  simpl in T. subst rest. unfold with_stack. rewrite F, E. destruct p; reflexivity.
Qed.

Lemma done_preserves_inv fl i p b p' :
  plugin_inv fl p -> done i p = inr (b, p') -> plugin_inv fl p'.
Proof.
  intros (Hf & Hok & Hnods) Hd. unfold done, flags in Hd.
  destruct (_statestack p) as [|x r] eqn:Hs; [discriminate|].
  inversion Hok as [|? ? Hx Hr]; subst.
  destruct Hx as [-> | ->]; simpl in Hd; repeat case_match; simplify_eq;
  unfold plugin_inv, with_stack; simpl; rewrite ?Hs;
  (split; [reflexivity|]); (split; [try (constructor; [hnf; auto|exact Hr]); exact Hok|]);
  intros Hn; try congruence; rewrite ?Hs in Hnods; specialize (Hnods ltac:(congruence));
  inversion Hnods; subst; try constructor; auto; discriminate.
Qed.

Lemma step_preserves_inv fl p p' : plugin_inv fl p -> plugin_step p p' -> plugin_inv fl p'.
Proof.
  intros Hinv Hstep. revert Hinv.
  destruct Hstep as [p|p p' Hp|p i b p' Hd|p e]; intros Hinv; pose proof Hinv as (Hf & Hok & Hnods).
  - split; [exact Hf|]. split; [constructor; [left; reflexivity|exact Hok]|].
  intros Hn. constructor; [reflexivity|auto].
  - unfold popState in Hp. destruct (_statestack p) as [|x r] eqn:Hs; [discriminate|].
  injection Hp as <-. inversion Hok as [|? ? _ Hr]. split; [exact Hf|]. split; [exact Hr|].
  intros Hn. specialize (Hnods Hn). inversion Hnods; auto.
  - eapply done_preserves_inv; eauto.
  - split; [exact Hf|]. split; [exact Hok|]. exact Hnods.
Qed.

(** C4: in every state reachable from construction, each state-stack
  entry is [None] or [DelaySlot], and it is always [None] on an
  architecture without delay slots. *)
Theorem reachable_inv fl p : reachable fl p -> plugin_inv fl p.
Proof.
  induction 1 as [|p p' _ IH Hstep].
  - split; [reflexivity|]. split; constructor.
  - eapply step_preserves_inv; eauto.
Qed.

(** C5 (refinement): in a context whose delay-slot flag is clear, the
  driver's linear run over an instruction stream stops exactly where the
  abstract specification [block_spec] says, and leaves the context as it
  found it, or with the delay slot still pending when the stream ended
  right after an unconditional jump. *)
Theorem run_block_refines l p top rest :
  _statestack p = top :: rest -> top &? AssemblerFlags.DelaySlot = false ->
  exists p', run_block l p = inr (block_spec (flags p &? AssemblerFlags.DelaySlot) l, p') /\
  (p' = p \/ p' = with_stack ((top |: AssemblerFlags.DelaySlot) :: rest) p).
Proof.
  intros Hs Ht. induction l as [|i l IH]; simpl.
  - eauto.
  - rewrite (done_clear_top i p top rest Hs Ht).
  destruct (is_uncond_jump i) eqn:Hj.
  + destruct (flags p &? AssemblerFlags.DelaySlot) eqn:Hf; [|eauto].
    destruct l as [|j l']; simpl; [eauto|].
    rewrite (done_set_top j _ (top |: AssemblerFlags.DelaySlot) rest)
      by (reflexivity || (apply has_flag_set_same; auto with redasm)).
    unfold with_stack. simpl. rewrite clear_set_flag by auto with redasm.
    rewrite <- Hs. destruct p. eauto.
  + destruct (instruction_is i InstructionTypes.Stop); [eauto|].
    destruct IH as (p' & -> & Hp'). eauto.
Qed.

(** ** [decode] *)

Lemma hex_byte_shape b : exists c1 c2, hex_byte b = String c1 (String c2 "") /\
  (hi ← nibble_of c1; lo ← nibble_of c2; Byte.of_N (Z.to_N (hi * 16 + lo))) = Some b.
Proof. destruct b; eexists _, _; split; reflexivity. Qed.

Lemma parse_hex_byte b s :
  parse_hex_bytes (hex_byte b +:+ s) = option_map (cons b) (parse_hex_bytes s).
Proof.
  destruct (hex_byte_shape b) as (c1 & c2 & -> & H). simpl.
  destruct (nibble_of c1), (nibble_of c2); simpl in *; try discriminate.
  rewrite H. simpl. change ("" +:+ s) with s. destruct (parse_hex_bytes s); reflexivity.
Qed.

Lemma hex_byte_length b s : String.length (hex_byte b +:+ s) = S (S (String.length s)).
Proof. destruct (hex_byte_shape b) as (c1 & c2 & -> & _). reflexivity. Qed.

Lemma render_bytes_ok buffer n :
  (n <= length buffer)%nat ->
  exists s, render_bytes buffer n = inr s /\
  parse_hex_bytes s = Some (firstn n buffer) /\ String.length s = (2 * n)%nat.
Proof.
  revert n. induction buffer as [|b buffer IH]; intros n Hn.
  - destruct n; [|simpl in Hn; lia]. exists "". auto.
  - destruct n as [|n]; simpl; [exists ""; auto|].
  destruct (IH n ltac:(simpl in Hn; lia)) as (s & -> & P & L).
  eexists. split; [reflexivity|]. rewrite parse_hex_byte, P.
  split; [reflexivity|]. rewrite hex_byte_length, L. lia.
Qed.

Lemma render_bytes_short buffer n :
  (length buffer < n)%nat -> render_bytes buffer n = inl BufferOutOfRange.
Proof.
  revert n. induction buffer as [|b buffer IH]; intros n Hn; destruct n as [|n]; simpl in *; try lia.
  - reflexivity.
  - rewrite IH by lia. reflexivity.
Qed.

(** C6 (round trip): the base [decode] never reports a decoded
  instruction; when the buffer holds [size] bytes it stores exactly
  [2*size] lowercase hex digits in [bytes], which parse back to the
  bytes read; a shorter buffer is a bounds error. *)
Theorem decode_fallback buffer i :
  0 <= size i ->
  (Z.to_nat (size i) <= length buffer)%nat /\
  (exists s, decode buffer i = inr (false, set_bytes s i) /\
     parse_hex_bytes s = Some (firstn (Z.to_nat (size i)) buffer) /\
     Z.of_nat (String.length s) = 2 * size i)
  \/ ((length buffer < Z.to_nat (size i))%nat /\ decode buffer i = inl BufferOutOfRange).
Proof.
  intros Hsz. unfold decode.
  destruct (le_lt_dec (Z.to_nat (size i)) (length buffer)) as [Hle|Hlt].
  - left. split; [exact Hle|].
  destruct (render_bytes_ok buffer _ Hle) as (s & -> & P & L).
  exists s. split; [reflexivity|]. split; [exact P|]. rewrite L. lia.
  - right. rewrite render_bytes_short by exact Hlt. auto.
Qed.

(** ** Witnesses *)

Lemma done_no_delay_slot_witness :
  done (sample_insn InstructionTypes.Jump 4096) (sample_plugin AssemblerFlags.None)
  = inr (true, sample_plugin AssemblerFlags.None).
Proof.
  apply (done_no_delay_slot (sample_insn InstructionTypes.Jump 4096) (sample_plugin AssemblerFlags.None) 0 []);
  reflexivity.
Defined.

Lemma done_delay_slot_witness :
  exists p', done (sample_insn InstructionTypes.Jump 4096) (sample_plugin AssemblerFlags.DelaySlot) = inr (false, p') /\
  forall j, done j p' = inr (true, sample_plugin AssemblerFlags.DelaySlot).
Proof.
  apply (done_delay_slot (sample_insn InstructionTypes.Jump 4096) (sample_plugin AssemblerFlags.DelaySlot) 0 []);
  reflexivity.
Defined.

Lemma push_run_pop_witness :
  popState (with_stack [AssemblerFlags.DelaySlot; AssemblerFlags.None] (create AssemblerFlags.DelaySlot))
  = inr (sample_plugin AssemblerFlags.DelaySlot).
Proof.
  apply (push_run_pop [sample_insn InstructionTypes.Nop 0; sample_insn InstructionTypes.Jump 4] _ 2).
  reflexivity.
Defined.

Lemma reachable_inv_witness :
  plugin_inv AssemblerFlags.DelaySlot (sample_plugin AssemblerFlags.DelaySlot).
Proof.
  apply reachable_inv. eapply reach_step; [apply reach_init|]. apply step_push.
Defined.

Lemma run_block_refines_witness :
  exists p', run_block [sample_insn InstructionTypes.Nop 0; sample_insn InstructionTypes.Jump 4;
                      sample_insn InstructionTypes.Nop 8; sample_insn InstructionTypes.Nop 12]
             (sample_plugin AssemblerFlags.DelaySlot) = inr (3%nat, p') /\
  (p' = sample_plugin AssemblerFlags.DelaySlot \/
   p' = with_stack [AssemblerFlags.None |: AssemblerFlags.DelaySlot] (sample_plugin AssemblerFlags.DelaySlot)).
Proof.
  apply (run_block_refines [sample_insn InstructionTypes.Nop 0; sample_insn InstructionTypes.Jump 4;
  sample_insn InstructionTypes.Nop 8; sample_insn InstructionTypes.Nop 12] (sample_plugin AssemblerFlags.DelaySlot) 0 []);
  reflexivity.
Defined.

Lemma decode_fallback_witness :
  (2 <= length [Byte.x90; Byte.xc3])%nat /\
  (exists s, decode [Byte.x90; Byte.xc3] (mkInstruction 0 2 "" 0 [] (-1) [] []) =
   inr (false, set_bytes s (mkInstruction 0 2 "" 0 [] (-1) [] [])) /\
   parse_hex_bytes s = Some (firstn 2 [Byte.x90; Byte.xc3]) /\ Z.of_nat (String.length s) = 2 * 2)
  \/ ((length [Byte.x90; Byte.xc3] < 2)%nat /\
    decode [Byte.x90; Byte.xc3] (mkInstruction 0 2 "" 0 [] (-1) [] []) = inl BufferOutOfRange).
Proof. apply (decode_fallback [Byte.x90; Byte.xc3] (mkInstruction 0 2 "" 0 [] (-1) [] [])). simpl. lia. Defined.

Example decode_renders_lowercase :
  decode [Byte.x90; Byte.xc3] (mkInstruction 0 2 "" 0 [] (-1) [] [])
  = inr (false, mkInstruction 0 2 "90c3" 0 [] (-1) [] []).
Proof. reflexivity. Qed.

End Assembler.
