(* ===== verification/Facade.v ===== *)
(** * The [DisassemblerFunctions] facade

    The analysis core reaches everything else through one facade object
    (spec sections 2 and 6).  Its read-only queries are an environment
    [Env] of oracles: [format()->segment], [dereferencePointer],
    [locationIsString], [readString], [readWString], [emulator()] with its
    [read], the success answer of [disassemble], and the [MIN_STRING]
    threshold.  Its effects are a state [FState]: the
    symbol table (any [SymbolTableOps] instance), the current instruction
    (the shared [InstructionPtr] the analysis comments on), and the trace
    of the facade calls in the order they were made ([disassemble]
    requests form the work-list, [pushReference] the cross references,
    [updateInstruction] the snapshots written back to the listing).

    [FM] is a state monad over [FState], made an instance of stdpp's
    [MRet]/[MBind] so that the analysis reads [x ← m; k] like the C++.
    The facade is not under src/: it is modelled from the spec. *)

From S2P Require Import Prelude.
From S2P Require Import Types.
From S2P Require Import SymbolTable.

Record Env := mkEnv {
  env_segment : Z -> option Segment;
  env_deref : Z -> option Z;
  env_location_is_string : Z -> Z * bool;    (* length of the string, wide *)
  env_read_string : Z -> string;
  env_read_wstring : Z -> string;
  env_emulator : option (Operand -> option Z);
  env_disassemble : Z -> bool;
  env_min_string : Z
}.

Inductive Event :=
  | EvDereference (a : Z)
  | EvDisassemble (a : Z)
  | EvUpdateInstruction (i : Instruction)
  | EvPushReference (sym : Z) (from : Z)
  | EvCheckJumpTable (i : Instruction) (op : Operand)
  | EvLog (s : string).

#[export] Instance Event_eq_dec : EqDecision Event.
Proof. solve_decision. Defined.

Record FState (T : Type) := mkFState {
  fs_symbols : T;
  fs_insn : Instruction;
  fs_trace : list Event
}.
Arguments mkFState {T} _ _ _.
Arguments fs_symbols {T} _.
Arguments fs_insn {T} _.
Arguments fs_trace {T} _.

Definition FM (T A : Type) : Type := FState T -> A * FState T.

#[export] Instance FM_ret {T} : MRet (FM T) := fun A x s => (x, s).
#[export] Instance FM_bind {T} : MBind (FM T) := fun A B k m s => let '(x, s') := m s in k x s'.

Section Operations.
Context {T : Type} `{SymbolTableOps T}.
Variable env : Env.

Definition emit (e : Event) : FM T unit :=
  fun s => (tt, mkFState (fs_symbols s) (fs_insn s) (fs_trace s ++ [e])).

Definition modify_symbols (f : T -> T) : FM T unit :=
  fun s => (tt, mkFState (f (fs_symbols s)) (fs_insn s) (fs_trace s)).

Definition modify_insn (f : Instruction -> Instruction) : FM T unit :=
  fun s => (tt, mkFState (fs_symbols s) (f (fs_insn s)) (fs_trace s)).

Definition get_insn : FM T Instruction := fun s => (fs_insn s, s).

(** [symbolTable()->symbol(a)] *)
Definition symbol (a : Z) : FM T (option Symbol) := fun s => (st_symbol a (fs_symbols s), s).

(** [symbolTable()->createFunction(a)] *)
Definition create_function (a : Z) : FM T bool :=
  fun s => let '(b, t) := createFunction a (fs_symbols s) in
           (b, mkFState t (fs_insn s) (fs_trace s)).

Definition create_location (a ty : Z) : FM T unit := modify_symbols (createLocation a ty).
Definition create_string (a : Z) : FM T unit := modify_symbols (createString a).
Definition create_wstring (a : Z) : FM T unit := modify_symbols (createWString a).
Definition erase (a : Z) : FM T unit := modify_symbols (st_erase a).

(** [instruction->cmt(s)], [instruction->target(a)] *)
Definition comment (c : string) : FM T unit := modify_insn (cmt c).
Definition set_target (a : Z) : FM T unit := modify_insn (target a).

(** [disassembler->updateInstruction(instruction)]: a snapshot. *)
Definition updateInstruction : FM T unit :=
  fun s => emit (EvUpdateInstruction (fs_insn s)) s.

(** [disassembler->disassemble(a)]: a work-list request. *)
Definition disassemble (a : Z) : FM T bool :=
  emit (EvDisassemble a) ≫= fun _ => mret (env_disassemble env a).

(** [disassembler->dereferencePointer(a, v)] *)
Definition dereferencePointer (a : Z) : FM T (option Z) :=
  emit (EvDereference a) ≫= fun _ => mret (env_deref env a).

Definition pushReference (sym : Symbol) (from : Z) : FM T unit :=
  emit (EvPushReference (sym_address sym) from).

Definition checkJumpTable (op : Operand) : FM T unit :=
  fun s => emit (EvCheckJumpTable (fs_insn s) op) s.

Definition log (m : string) : FM T unit := emit (EvLog m).
End Operations.

(** ** Invariants of facade programs

    [fm_preserves P m]: running [m] from a state satisfying [P] ends in a
    state satisfying [P].  Two families of [P] are used: predicates on the
    symbol table only ([on_symbols]), and "the trace grew from [tr] by
    events satisfying [Q] only" ([trace_grows]).  Every facade operation
    is classified once by its frame: which parts of the state it leaves
    alone. *)

Create HintDb fm_pres discriminated.

Section Preserve.
Context {T : Type} `{SymbolTableOps T}.

Definition fm_preserves {A} (P : FState T -> Prop) (m : FM T A) : Prop :=
  forall s, P s -> P (snd (m s)).

Definition on_symbols (Q : T -> Prop) (s : FState T) : Prop := Q (fs_symbols s).

Definition trace_grows (tr : list Event) (Q : Event -> Prop) (s : FState T) : Prop :=
  exists l, fs_trace s = tr ++ l /\ Forall Q l.

Definition symbols_frame {A} (m : FM T A) : Prop :=
  forall s, fs_symbols (snd (m s)) = fs_symbols s.

Definition trace_frame {A} (m : FM T A) : Prop :=
  forall s, fs_trace (snd (m s)) = fs_trace s.

(** [m] appends exactly one event, of a shape described by [E]. *)
Definition emits_one {A} (E : Event -> Prop) (m : FM T A) : Prop :=
  forall s, exists e, E e /\ fs_trace (snd (m s)) = fs_trace s ++ [e].

End Preserve.

(** ** Running facade programs *)

Lemma bind_run {T A B} (m : FM T A) (k : A -> FM T B) s :
  (m ≫= k) s = let '(x, s') := m s in k x s'.
Proof. reflexivity. Qed.

Lemma seq_bind_run {T A B C} (m : FM T A) (n : FM T B) (k : B -> FM T C) s :
  (m ≫= (fun _ => n ≫= k)) s = ((m ;; n) ≫= k) s.
Proof. rewrite !bind_run. destruct (m s). reflexivity. Qed.

Lemma ret_run {T A} (x : A) (s : FState T) : (mret x : FM T A) s = (x, s).
Proof. reflexivity. Qed.

#[export] Hint Rewrite @bind_run @ret_run : redasm_rw.

Section PreserveLemmas.
Context {T : Type} `{SymbolTableOps T}.
Local Abbreviation symbols_frame := (@symbols_frame T _).
Local Abbreviation trace_frame := (@trace_frame T _).
Local Abbreviation emits_one E := (@emits_one T _ E).

Lemma fm_preserves_apply {A} (P : FState T -> Prop) (m : FM T A) s : fm_preserves P m -> P s -> P (snd (m s)).
Proof. intros Hm Hs. apply Hm, Hs. Qed.

Lemma fm_preserves_ret {A} (P : FState T -> Prop) (x : A) : fm_preserves P (mret x : FM T A).
Proof. intros s Hs. exact Hs. Qed.

Lemma fm_preserves_bind {A B} (P : FState T -> Prop) (m : FM T A) (k : A -> FM T B) :
  fm_preserves P m -> (forall x, fm_preserves P (k x)) -> fm_preserves P (m ≫= k).
Proof.
  intros Hm Hk s Hs. rewrite bind_run. specialize (Hm s Hs).
  destruct (m s) as [x s']. apply Hk, Hm.
Qed.

Lemma symbols_frame_on_symbols {A} Q (m : FM T A) :
  symbols_frame m -> fm_preserves (on_symbols Q) m.
Proof. intros Hf s Hs. unfold on_symbols. rewrite Hf. exact Hs. Qed.

Lemma trace_frame_grows {A} tr Q (m : FM T A) :
  trace_frame m -> fm_preserves (trace_grows tr Q) m.
Proof. intros Hf s Hs. unfold trace_grows. rewrite Hf. exact Hs. Qed.

Lemma emits_one_grows {A} tr (Q E : Event -> Prop) (m : FM T A) :
  emits_one E m -> (forall e, E e -> Q e) -> fm_preserves (trace_grows tr Q) m.
Proof.
  intros He HQ s (l & Hl & Hq). destruct (He s) as (e & Ee & Ht).
  exists (l ++ [e]). rewrite Ht, Hl, app_assoc. split; [reflexivity|].
  apply Forall_app. split; [exact Hq|]. constructor; [apply HQ, Ee|constructor].
Qed.

Lemma modify_symbols_on_symbols (Q : T -> Prop) f :
  (forall t, Q t -> Q (f t)) -> fm_preserves (on_symbols Q) (modify_symbols f).
Proof. intros Hf s Hs. apply Hf, Hs. Qed.

Lemma create_function_on_symbols (Q : T -> Prop) a :
  (forall t, Q t -> Q (snd (createFunction a t))) -> fm_preserves (on_symbols Q) (create_function a).
Proof.
  intros Hf s Hs. unfold create_function. specialize (Hf _ Hs).
  destruct (createFunction a (fs_symbols s)). exact Hf.
Qed.

(** The frames of the operations. *)
Lemma emit_symbols_frame e : symbols_frame (emit e).
Proof. intros s. reflexivity. Qed.
Lemma modify_insn_symbols_frame f : symbols_frame (modify_insn f).
Proof. intros s. reflexivity. Qed.
Lemma get_insn_symbols_frame : symbols_frame get_insn.
Proof. intros s. reflexivity. Qed.
Lemma symbol_symbols_frame a : symbols_frame (symbol a).
Proof. intros s. reflexivity. Qed.
Lemma comment_symbols_frame c : symbols_frame (comment c).
Proof. intros s. reflexivity. Qed.
Lemma set_target_symbols_frame a : symbols_frame (set_target a).
Proof. intros s. reflexivity. Qed.
Lemma updateInstruction_symbols_frame : symbols_frame updateInstruction.
Proof. intros s. reflexivity. Qed.
Lemma disassemble_symbols_frame env a : symbols_frame (disassemble env a).
Proof. intros s. reflexivity. Qed.
Lemma dereferencePointer_symbols_frame env a : symbols_frame (dereferencePointer env a).
Proof. intros s. reflexivity. Qed.
Lemma pushReference_symbols_frame sym a : symbols_frame (pushReference sym a).
Proof. intros s. reflexivity. Qed.
Lemma checkJumpTable_symbols_frame op : symbols_frame (checkJumpTable op).
Proof. intros s. reflexivity. Qed.
Lemma log_symbols_frame m : symbols_frame (log m).
Proof. intros s. reflexivity. Qed.

Lemma get_insn_trace_frame : trace_frame get_insn.
Proof. intros s. reflexivity. Qed.
Lemma symbol_trace_frame a : trace_frame (symbol a).
Proof. intros s. reflexivity. Qed.
Lemma modify_symbols_trace_frame f : trace_frame (modify_symbols f).
Proof. intros s. reflexivity. Qed.
Lemma modify_insn_trace_frame f : trace_frame (modify_insn f).
Proof. intros s. reflexivity. Qed.
Lemma create_function_trace_frame a : trace_frame (create_function a).
Proof. intros s. unfold create_function. destruct (createFunction a (fs_symbols s)). reflexivity. Qed.
Lemma create_location_trace_frame a ty : trace_frame (create_location a ty).
Proof. intros s. reflexivity. Qed.
Lemma create_string_trace_frame a : trace_frame (create_string a).
Proof. intros s. reflexivity. Qed.
Lemma create_wstring_trace_frame a : trace_frame (create_wstring a).
Proof. intros s. reflexivity. Qed.
Lemma erase_trace_frame a : trace_frame (erase a).
Proof. intros s. reflexivity. Qed.
Lemma comment_trace_frame c : trace_frame (comment c).
Proof. intros s. reflexivity. Qed.
Lemma set_target_trace_frame a : trace_frame (set_target a).
Proof. intros s. reflexivity. Qed.

Lemma emit_emits e : emits_one (fun e' => e' = e) (emit e).
Proof. intros s. eauto. Qed.
Lemma updateInstruction_emits : emits_one (fun e => exists i, e = EvUpdateInstruction i) updateInstruction.
Proof. intros s. eauto. Qed.
Lemma disassemble_emits env a : emits_one (fun e => e = EvDisassemble a) (disassemble env a).
Proof. intros s. eauto. Qed.
Lemma dereferencePointer_emits env a : emits_one (fun e => e = EvDereference a) (dereferencePointer env a).
Proof. intros s. eauto. Qed.
Lemma pushReference_emits sym a :
  emits_one (fun e => e = EvPushReference (sym_address sym) a) (pushReference sym a).
Proof. intros s. eauto. Qed.
Lemma checkJumpTable_emits op : emits_one (fun e => exists i, e = EvCheckJumpTable i op) (checkJumpTable op).
Proof. intros s. eauto. Qed.
Lemma log_emits m : emits_one (fun e => e = EvLog m) (log m).
Proof. intros s. eauto. Qed.
End PreserveLemmas.

#[export] Hint Resolve fm_preserves_ret symbols_frame_on_symbols trace_frame_grows : fm_pres.
#[export] Hint Resolve emit_symbols_frame modify_insn_symbols_frame get_insn_symbols_frame
  symbol_symbols_frame comment_symbols_frame set_target_symbols_frame
  updateInstruction_symbols_frame disassemble_symbols_frame dereferencePointer_symbols_frame
  pushReference_symbols_frame checkJumpTable_symbols_frame log_symbols_frame : fm_pres.
#[export] Hint Resolve get_insn_trace_frame symbol_trace_frame modify_symbols_trace_frame
  modify_insn_trace_frame create_function_trace_frame create_location_trace_frame
  create_string_trace_frame create_wstring_trace_frame erase_trace_frame comment_trace_frame
  set_target_trace_frame : fm_pres.

(** Reduce a facade program applied to a state. *)
Ltac fm_unfold :=
  cbv beta iota zeta delta [mbind mret FM_bind FM_ret get_insn symbol create_function
    create_location create_string create_wstring erase comment set_target updateInstruction
    disassemble dereferencePointer pushReference checkJumpTable log emit modify_symbols
    modify_insn createFunction createLocation createString createWString andb orb negb];
  cbn [fs_trace fs_insn fs_symbols fst snd sym_address].

(** Split a preservation goal along the program's binds and branches. *)
Ltac fm_preserve :=
  repeat first
    [ solve [eauto with fm_pres]
    | apply fm_preserves_bind; intros
    | progress case_match ].
