(* ===== verification/Analysis.v ===== *)
(** * Operand analysis: symbol discovery

    [AssemblerPlugin::analyzeOperand] (assembler.cpp lines 28-106) and
    [AssemblerPlugin::analyzeRegister] (lines 186-219), written over the
    facade monad [FM] in the order the code makes its calls.  The plugin
    ([this]) is an [Assembler.AssemblerPlugin]; the symbol table is any
    instance of the [SymbolTableLaws] interface, so that the theorems
    hold for every table that keeps the contract.

    Machine widths: [u64 value = operand.is(Displacement) ?
    operand.mem.displacement : operand.u_value] converts the s64
    displacement to u64 ([wrap_u64]); [BRANCH_DIRECTION] (a header macro,
    modelled from the spec as the signed difference of the two addresses)
    is assigned to an [int dir] ([to_s32]).  Dereferencing the null
    [SymbolPtr] at line 216 would be undefined behaviour: the model emits
    [EvLog "null symbol"] there and the theorems show it never happens. *)

From S2P Require Import Prelude.
From S2P Require Import Types.
From S2P Require Import SymbolTable.
From S2P Require Import Assembler.
From S2P Require Import Facade.

Import Assembler.

Section Analysis.
Context {T : Type} `{SymbolTableLaws T}.
Variable env : Env.
Variable plugin : AssemblerPlugin.

(** [operand.is(Displacement) ? operand.mem.displacement : operand.u_value] *)
Definition operand_value (op : Operand) : Z :=
  if operand_is op OperandTypes.Displacement then wrap_u64 (displacement (op_mem op))
  else op_u_value op.

(** [BRANCH_DIRECTION(instruction, destination)] *)
Definition BRANCH_DIRECTION (i : Instruction) (dest : Z) : Z := to_s64 dest - to_s64 (address i).

(** [int dir = BRANCH_DIRECTION(instruction, opvalue)] *)
Definition branch_dir (i : Instruction) (dest : Z) : Z := to_s32 (BRANCH_DIRECTION i dest).

Definition is_import (s : option Symbol) : bool :=
  match s with Some s => symbol_is s SymbolTypes.Import | None => false end.

Definition is_nonfunction (s : option Symbol) : bool :=
  match s with Some s => negb (isFunction s) | None => false end.

Definition null_symbol_msg : string := "null symbol".

Definition analyzeRegister (op : Operand) : FM T unit :=
  instruction ← get_insn;
  match env_emulator env with
  | None => mret tt
  | Some read =>
      if negb (instruction_is instruction InstructionTypes.Branch)
         || negb (operand_is op OperandTypes.Register)
         || negb (op_index op =? target_idx instruction)
      then mret tt
      else match read op with
        | None => mret tt
        | Some tgt =>
            log ("VMIL @ " +:+ hex (address instruction) +:+ " jump to " +:+ hex tgt);;
            if negb (canEmulateVMIL plugin) then
              comment ("=" +:+ hex tgt);; updateInstruction
            else
              ok ← disassemble env tgt;
              if negb ok then mret tt else
              (if instruction_is instruction InstructionTypes.Call
               then create_function tgt ≫= fun _ => mret tt
               else create_location tgt SymbolTypes.Code);;
              sym ← symbol tgt;
              match sym with
              | None => log null_symbol_msg
              | Some s =>
                  set_target tgt;;
                  comment ("=" +:+ sym_name s);;
                  updateInstruction;;
                  pushReference s (address instruction)
              end
        end
  end.

(** Lines 40-47: the pointer dereference attempt; answers [opvalue]. *)
Definition try_dereference (instruction : Instruction) (op : Operand)
    (symbol0 : option Symbol) (value : Z) : FM T Z :=
  if negb (is_import symbol0) then
    if operand_is op OperandTypes.Memory
       && (isRead op || instruction_is instruction InstructionTypes.Branch) then
      r ← dereferencePointer env value;
      match r with
      | Some v => create_location value (Z.lor SymbolTypes.Data SymbolTypes.Pointer);; mret v
      | None => mret value
      end
    else mret value
  else mret value.

(** Lines 54-61: a call's target operand. *)
Definition classify_call (symbol0 : option Symbol) (opvalue : Z) : FM T unit :=
  (if is_nonfunction symbol0 then erase opvalue else mret tt);;
  created ← create_function opvalue;
  if (created : bool) then disassemble env opvalue ≫= fun _ => mret tt else mret tt.

(** Lines 66-81: a jump's operand. *)
Definition classify_jump (instruction : Instruction) (op : Operand) (opvalue : Z) : FM T unit :=
  if negb (operand_is op OperandTypes.Displacement) || displacementOnly (op_mem op) then
    let dir := branch_dir instruction opvalue in
    (if dir <? 0 then comment "Possible loop"
     else if dir =? 0 then comment "Infinite loop" else mret tt);;
    updateInstruction;;
    create_location opvalue SymbolTypes.Code
  else checkJumpTable op.

(** Lines 83-99: string or data. *)
Definition classify_data (segment : Segment) (opvalue : Z) : FM T unit :=
  if negb (segment_is segment SegmentTypes.Bss)
     && (env_min_string env <=? fst (env_location_is_string env opvalue)) then
    (if snd (env_location_is_string env opvalue) then
       create_wstring opvalue;; comment ("UNICODE: " +:+ env_read_wstring env opvalue)
     else
       create_string opvalue;; comment ("STRING: " +:+ env_read_string env opvalue));;
    updateInstruction
  else create_location opvalue SymbolTypes.Data.

Definition analyzeOperand (op : Operand) : FM T unit :=
  if operand_is op OperandTypes.Register then analyzeRegister op else
  instruction ← get_insn;
  let value := operand_value op in
  symbol0 ← symbol value;
  opvalue ← try_dereference instruction op symbol0 value;
  match env_segment env opvalue with
  | None => mret tt
  | Some segment =>
      (if instruction_is instruction InstructionTypes.Call && hasTargets instruction
          && (op_index op =? target_idx instruction)
       then classify_call symbol0 opvalue
       else if instruction_is instruction InstructionTypes.Jump
       then classify_jump instruction op opvalue
       else classify_data segment opvalue);;
      sym ← symbol opvalue;
      match sym with
      | Some s => pushReference s (address instruction)
      | None => mret tt
      end
  end.

End Analysis.

(** Sample inputs for the witnesses: a code segment below 0x10000, a BSS
    segment at 0x20000, a pointer at 0x5000 to 0x6000, a four-character
    string at 0x7000 and a three-character one at 0x7100, an emulator
    that resolves register 1 to 0x3000, [MIN_STRING] = 4. *)
Module Samples.
Definition seg_text : Segment := mkSegment ".text" SegmentTypes.Code.
Definition seg_bss : Segment := mkSegment ".bss" SegmentTypes.Bss.
Definition disp0 : DisplacementOperand := mkDisplacement None None 1 0.
Definition imm (idx v : Z) : Operand := mkOperand OperandTypes.Immediate idx 0 v disp0 true.
Definition mem (idx v : Z) : Operand := mkOperand OperandTypes.Memory idx 0 v disp0 true.
Definition reg (idx r : Z) : Operand := mkOperand OperandTypes.Register idx r 0 disp0 true.
Definition insn (ty addr : Z) (op : Operand) (tgts : list Z) : Instruction :=
  mkInstruction addr 2 "" ty [op] (op_index op) tgts [].

Definition env : Env :=
  mkEnv (fun a => if a <? 65536 then Some seg_text
                  else if (131072 <=? a) && (a <? 196608) then Some seg_bss else None)
        (fun a => if a =? 20480 then Some 24576 else None)
        (fun a => if a =? 28672 then (4, false) else if a =? 28928 then (3, false) else (0, false))
        (fun a => if a =? 28672 then "abcd" else "")
        (fun _ => "")
        (Some (fun op => if op_reg op =? 1 then Some 12288 else None))
        (fun _ => true)
        4.


Definition plugin : AssemblerPlugin := Assembler.create AssemblerFlags.None.
Definition deep_plugin : AssemblerPlugin := Assembler.create AssemblerFlags.EmulateVMIL.
Definition empty : gmap Z Symbol := ∅.
Definition state (t : gmap Z Symbol) (i : Instruction) : FState (gmap Z Symbol) := mkFState t i [].
End Samples.

(** Reduce an analysis program applied to a state. *)
Ltac an_unfold :=
  cbv beta iota zeta delta [analyzeOperand analyzeRegister classify_call
    classify_jump classify_data is_import is_nonfunction];
  fm_unfold.

Section Properties.
Context {T : Type} `{SymbolTableLaws T}.
Variable env : Env.
Variable plugin : AssemblerPlugin.

(** A Function symbol sits at [a]. *)
Definition fn_at (a : Z) (t : T) : Prop :=
  exists s, st_symbol a t = Some s /\ isFunction s = true.

Lemma isFunction_fresh a nm : isFunction (mkSymbol SymbolTypes.Function a nm) = true.
Proof. reflexivity. Qed.

Lemma create_fn_at a b ty t : fn_at a t -> fn_at a (snd (st_create b ty t)).
Proof. intros (s & Hs & Hf). exists s. split; [|exact Hf]. eapply create_keeps_existing; eauto. Qed.

(** The promotion of [classify_call]: erase, then create a Function. *)
Lemma erase_create_fn_at a v t :
  fn_at a t -> fn_at a (snd (st_create v SymbolTypes.Function (st_erase v t))).
Proof.
  intros Ha. destruct (decide (v = a)) as [<-|Hne].
  - destruct (create_free v SymbolTypes.Function (st_erase v t) (erase_same v t)) as [_ [nm Hnm]].
    eexists. split; [exact Hnm|reflexivity].
  - apply create_fn_at. destruct Ha as (s & Hs & Hf). exists s.
    rewrite erase_other by exact Hne. auto.
Qed.

Lemma create_location_fn_at a b ty : fm_preserves (on_symbols (fn_at a)) (create_location b ty).
Proof. apply modify_symbols_on_symbols. intros t. apply create_fn_at. Qed.
Lemma create_string_fn_at a b : fm_preserves (on_symbols (fn_at a)) (create_string b).
Proof. apply modify_symbols_on_symbols. intros t. apply create_fn_at. Qed.
Lemma create_wstring_fn_at a b : fm_preserves (on_symbols (fn_at a)) (create_wstring b).
Proof. apply modify_symbols_on_symbols. intros t. apply create_fn_at. Qed.
Lemma create_function_fn_at a b : fm_preserves (on_symbols (fn_at a)) (create_function b).
Proof. apply create_function_on_symbols. intros t. apply create_fn_at. Qed.

Lemma erase_create_function_fn_at a v :
  fm_preserves (on_symbols (fn_at a)) (erase v ;; create_function v).
Proof.
  intros s Hs. fm_unfold. unfold on_symbols in *.
  pose proof (erase_create_fn_at a v (fs_symbols s) Hs) as Hfn.
  destruct (st_create v SymbolTypes.Function (st_erase v (fs_symbols s))). exact Hfn.
Qed.

Lemma classify_call_fn_at a s0 v : fm_preserves (on_symbols (fn_at a)) (classify_call env s0 v).
Proof.
  unfold classify_call. destruct (is_nonfunction s0).
  - intros s Hs. rewrite seq_bind_run. revert s Hs.
    apply fm_preserves_bind; [apply erase_create_function_fn_at|intros b]. fm_preserve.
  - apply fm_preserves_bind; [apply fm_preserves_ret|intros _].
    apply fm_preserves_bind; [apply create_function_fn_at|intros b]. fm_preserve.
Qed.

#[local] Hint Resolve create_location_fn_at create_string_fn_at create_wstring_fn_at
  create_function_fn_at : fm_pres.

Lemma try_dereference_nomem i op s0 v st :
  operand_is op OperandTypes.Memory = false -> try_dereference env i op s0 v st = (v, st).
Proof. intros Hm. unfold try_dereference. rewrite Hm. destruct (is_import s0); reflexivity. Qed.

Lemma try_dereference_import i op s0 v st :
  is_import s0 = true -> try_dereference env i op s0 v st = (v, st).
Proof. intros Hi. unfold try_dereference. rewrite Hi. reflexivity. Qed.

(** * Call targets and the work-list *)

(** C7: a call's target operand whose value has no symbol yet becomes a
    Function symbol, is enqueued for decoding exactly once, and gets a
    reference from the instruction; nothing else is recorded. *)
Theorem call_target_fresh op t i tr seg :
  operand_is op OperandTypes.Register = false ->
  operand_is op OperandTypes.Memory = false ->
  instruction_is i InstructionTypes.Call = true -> hasTargets i = true ->
  op_index op = target_idx i ->
  st_symbol (operand_value op) t = None ->
  env_segment env (operand_value op) = Some seg ->
  let r := analyzeOperand env plugin op (mkFState t i tr) in
  fs_trace (snd r) = tr ++ [EvDisassemble (operand_value op); EvPushReference (operand_value op) (address i)] /\
  fs_insn (snd r) = i /\
  exists nm, st_symbol (operand_value op) (fs_symbols (snd r)) =
             Some (mkSymbol SymbolTypes.Function (operand_value op) nm).
Proof.
  intros Hr Hm Hc Ht Hi Hs Hseg. unfold analyzeOperand. rewrite Hr. an_unfold.
  rewrite Hs, try_dereference_nomem by exact Hm. fm_unfold.
  rewrite Hseg, Hc, Ht, Hi, Z.eqb_refl. an_unfold.
  destruct (create_free (operand_value op) SymbolTypes.Function t Hs) as [Hb [nm Hnm]].
  destruct (st_create (operand_value op) SymbolTypes.Function t) as [b t'] eqn:E.
  simpl in Hb, Hnm. subst b. fm_unfold. rewrite Hnm. fm_unfold. rewrite <- app_assoc. eauto.
Qed.

(** C8: analysing the target operand of a call whose value already holds
    a Function enqueues nothing and leaves the table alone: the only
    effect is the reference. *)
Theorem call_target_existing_function op t i tr seg s :
  operand_is op OperandTypes.Register = false ->
  operand_is op OperandTypes.Memory = false ->
  instruction_is i InstructionTypes.Call = true -> hasTargets i = true ->
  op_index op = target_idx i ->
  st_symbol (operand_value op) t = Some s -> isFunction s = true ->
  env_segment env (operand_value op) = Some seg ->
  analyzeOperand env plugin op (mkFState t i tr) =
    (tt, mkFState t i (tr ++ [EvPushReference (sym_address s) (address i)])).
Proof.
  intros Hr Hm Hc Ht Hi Hs Hf Hseg. unfold analyzeOperand. rewrite Hr. an_unfold.
  rewrite Hs, try_dereference_nomem by exact Hm. fm_unfold.
  rewrite Hseg, Hc, Ht, Hi, Z.eqb_refl. an_unfold. rewrite Hf. simpl.
  rewrite (create_taken _ SymbolTypes.Function t s Hs). fm_unfold. rewrite Hs. reflexivity.
Qed.

(** C9: an operand whose value is an Import symbol is never dereferenced:
    no [dereferencePointer] call appears in the trace. *)
Theorem import_never_dereferenced op t i tr s :
  st_symbol (operand_value op) t = Some s -> symbol_is s SymbolTypes.Import = true ->
  trace_grows tr (fun e => forall a, e <> EvDereference a)
    (snd (analyzeOperand env plugin op (mkFState t i tr))).
Proof.
  intros Hs Hi.
  assert (Hg : trace_grows tr (fun e => forall a, e <> EvDereference a) (mkFState t i tr))
    by (exists []; rewrite app_nil_r; auto).
  unfold analyzeOperand. destruct (operand_is op OperandTypes.Register).
  - apply fm_preserves_apply; [|exact Hg]. unfold analyzeRegister. fm_preserve.
    all: eapply emits_one_grows; [solve [eauto using log_emits, updateInstruction_emits, emit_emits,
           pushReference_emits]|intros e He a; cbv beta in He; first [subst e | destruct He as [? ->]]; discriminate].
  - rewrite bind_run. cbn [get_insn fs_insn]. rewrite bind_run. unfold symbol at 1. cbn [fs_symbols].
    rewrite Hs, bind_run, try_dereference_import by (simpl; exact Hi). cbv beta iota.
    apply fm_preserves_apply; [|exact Hg]. unfold classify_call, classify_jump, classify_data.
    fm_preserve.
    all: eapply emits_one_grows; [solve [eauto using log_emits, updateInstruction_emits, emit_emits,
           pushReference_emits, checkJumpTable_emits]|intros e He a; cbv beta in He; first [subst e | destruct He as [? ->]]; discriminate].
Qed.

(** C10: Function symbols are never lost: whatever operand is analysed,
    an address that held a Function before still holds a Function. *)
Theorem function_preserved a op : fm_preserves (on_symbols (fn_at a)) (analyzeOperand env plugin op).
Proof.
  pose proof (classify_call_fn_at a) as Hcall.
  unfold analyzeOperand, analyzeRegister, try_dereference, classify_jump, classify_data.
  fm_preserve.
Qed.

(** * Strings, jumps, segments *)

(** [int dir] is the true distance when the addresses are u64 and less
    than 2^31 apart. *)
Lemma branch_dir_small i d :
  is_u64 (address i) -> is_u64 d -> - 2 ^ 31 <= d - address i < 2 ^ 31 ->
  branch_dir i d = d - address i.
Proof.
  intros Ha Hd Hdist. unfold branch_dir, BRANCH_DIRECTION, to_s32.
  rewrite (wrap_s_congr 32 _ (d - address i)) by
    (lia || (rewrite Zminus_mod, (Zminus_mod d);
             rewrite <- (mod_2_64_mod_2_32 (to_s64 d)), <- (mod_2_64_mod_2_32 (to_s64 (address i)));
             unfold to_s64; rewrite !wrap_s_mod, !mod_2_64_mod_2_32; reflexivity)).
  apply wrap_s_small; lia.
Qed.

(** C11: the string threshold is exact: in a non-BSS segment, a free
    address whose narrow string is at least [MIN_STRING] long becomes a
    String symbol and the instruction gets a "STRING: " comment; a shorter
    one becomes a Data symbol and no comment. *)
Theorem string_threshold op t i tr seg len :
  operand_is op OperandTypes.Register = false -> operand_is op OperandTypes.Memory = false ->
  instruction_is i InstructionTypes.Call = false -> instruction_is i InstructionTypes.Jump = false ->
  env_segment env (operand_value op) = Some seg -> segment_is seg SegmentTypes.Bss = false ->
  st_symbol (operand_value op) t = None ->
  env_location_is_string env (operand_value op) = (len, false) ->
  let r := analyzeOperand env plugin op (mkFState t i tr) in
  (exists nm, st_symbol (operand_value op) (fs_symbols (snd r)) =
     Some (mkSymbol (if env_min_string env <=? len then SymbolTypes.String else SymbolTypes.Data)
             (operand_value op) nm)) /\
  comments (fs_insn (snd r)) =
    comments i ++ (if env_min_string env <=? len then ["STRING: " +:+ env_read_string env (operand_value op)] else []).
Proof.
  intros Hr Hm Hc Hj Hseg Hb Hs Hl. unfold analyzeOperand. rewrite Hr. an_unfold.
  rewrite Hs, try_dereference_nomem by exact Hm. fm_unfold. rewrite Hseg, Hc, Hj, Hb, Hl. an_unfold.
  destruct (env_min_string env <=? len); simpl;
    [destruct (create_free (operand_value op) SymbolTypes.String t Hs) as [_ [nm Hnm]]
    |destruct (create_free (operand_value op) SymbolTypes.Data t Hs) as [_ [nm Hnm]]];
    rewrite Hnm; simpl; rewrite ?app_nil_r; eauto.
Qed.

(** C12: a direct jump to an address less than 2^31 away is commented
    "Possible loop" when it goes backwards and "Infinite loop" when it
    targets itself; a symbol then stands at the target, the instruction
    is written back and referenced from the jump. *)
Theorem jump_comment op t i tr seg :
  operand_is op OperandTypes.Register = false -> operand_is op OperandTypes.Memory = false ->
  operand_is op OperandTypes.Displacement = false ->
  instruction_is i InstructionTypes.Call = false -> instruction_is i InstructionTypes.Jump = true ->
  env_segment env (operand_value op) = Some seg ->
  is_u64 (address i) -> is_u64 (operand_value op) ->
  - 2 ^ 31 <= operand_value op - address i < 2 ^ 31 ->
  let r := analyzeOperand env plugin op (mkFState t i tr) in
  comments (fs_insn (snd r)) = comments i ++
    (if operand_value op <? address i then ["Possible loop"]
     else if operand_value op =? address i then ["Infinite loop"] else []) /\
  exists s, st_symbol (operand_value op) (fs_symbols (snd r)) = Some s /\
    fs_trace (snd r) = tr ++ [EvUpdateInstruction (fs_insn (snd r)); EvPushReference (sym_address s) (address i)].
Proof.
  intros Hr Hm Hd Hc Hj Hseg Ha Hv Hdist. unfold analyzeOperand. rewrite Hr. an_unfold.
  rewrite try_dereference_nomem by exact Hm. fm_unfold. rewrite Hseg, Hc, Hj, Hd. an_unfold.
  rewrite branch_dir_small by assumption.
  destruct (create_defines (operand_value op) SymbolTypes.Code t) as [s Hs].
  assert (E : forall x, (x - address i <? 0) = (x <? address i) /\ (x - address i =? 0) = (x =? address i))
    by (intros x; split;
        [destruct (Z.ltb_spec (x - address i) 0), (Z.ltb_spec x (address i))
        |destruct (Z.eqb_spec (x - address i) 0), (Z.eqb_spec x (address i))];
        first [reflexivity | exfalso; lia]).
  rewrite (proj1 (E _)), (proj2 (E _)).
  destruct (operand_value op <? address i), (operand_value op =? address i); simpl;
    unfold createLocation; rewrite Hs; simpl; rewrite ?app_nil_r, <- ?app_assoc; eauto.
Qed.

(** C13: a value outside every segment is left alone: operand analysis of
    a non-memory operand then changes nothing and records no reference,
    even when a symbol already stands at the value. *)
Theorem no_segment_no_effect op t i tr :
  operand_is op OperandTypes.Register = false -> operand_is op OperandTypes.Memory = false ->
  env_segment env (operand_value op) = None ->
  analyzeOperand env plugin op (mkFState t i tr) = (tt, mkFState t i tr).
Proof.
  intros Hr Hm Hseg. unfold analyzeOperand. rewrite Hr. an_unfold.
  rewrite try_dereference_nomem by exact Hm. fm_unfold. rewrite Hseg. reflexivity.
Qed.

(** The displacement of a displacement operand is an s64 read as
    u64: the analysed value is always a u64, and a negative displacement
    [d] becomes [d + 2^64]. *)
Theorem operand_value_u64 op :
  is_u64 (op_u_value op) -> - 2 ^ 63 <= displacement (op_mem op) < 2 ^ 63 ->
  is_u64 (operand_value op) /\
  (operand_is op OperandTypes.Displacement = true -> displacement (op_mem op) < 0 ->
   operand_value op = displacement (op_mem op) + 2 ^ 64).
Proof.
  intros Hu Hd. unfold operand_value. split.
  - destruct (operand_is op OperandTypes.Displacement); [apply wrap_u64_is_u64|exact Hu].
  - intros -> Hneg. unfold wrap_u64, wrap_u.
    rewrite <- (Z.mod_add (displacement (op_mem op)) 1) by lia. apply Z.mod_small. lia.
Qed.

(** * Indirect branches through the emulator *)

(** C17: the register path does nothing at all when there is no
    emulator, the instruction is not a branch, the operand is not the
    target operand, or the emulator cannot resolve the register. *)
Theorem register_guard_noop op t i tr :
  operand_is op OperandTypes.Register = true ->
  (env_emulator env = None \/ instruction_is i InstructionTypes.Branch = false \/
   op_index op <> target_idx i \/ exists rd, env_emulator env = Some rd /\ rd op = None) ->
  analyzeOperand env plugin op (mkFState t i tr) = (tt, mkFState t i tr).
Proof.
  intros Hr Hpre. unfold analyzeOperand. rewrite Hr. an_unfold.
  destruct (env_emulator env) as [rd|] eqn:He; [|reflexivity].
  destruct (instruction_is i InstructionTypes.Branch) eqn:Hb; [|reflexivity]. rewrite Hr. simpl.
  destruct (Z.eqb_spec (op_index op) (target_idx i)) as [Hi|Hi]; [|reflexivity].
  destruct Hpre as [Hn|[Hn|[Hn|(rd' & Hrd & Hn)]]]; try congruence.
  simplify_eq. rewrite Hn. reflexivity.
Qed.

(** C18: without deep emulation ([EmulateVMIL] clear) a resolved indirect
    branch is only logged and commented with its target; no symbol is
    created and nothing is enqueued. *)
Theorem register_conservative op t i tr rd tgt :
  operand_is op OperandTypes.Register = true -> env_emulator env = Some rd ->
  instruction_is i InstructionTypes.Branch = true -> op_index op = target_idx i ->
  rd op = Some tgt -> canEmulateVMIL plugin = false ->
  analyzeOperand env plugin op (mkFState t i tr) =
    (tt, mkFState t (cmt ("=" +:+ hex tgt) i)
           (tr ++ [EvLog ("VMIL @ " +:+ hex (address i) +:+ " jump to " +:+ hex tgt);
                   EvUpdateInstruction (cmt ("=" +:+ hex tgt) i)])).
Proof.
  intros Hr He Hb Hi Hrd Hc. unfold analyzeOperand. rewrite Hr. an_unfold.
  rewrite He, Hb, Hr, Hi, Z.eqb_refl. simpl. rewrite Hrd, Hc. simpl. rewrite <- app_assoc. reflexivity.
Qed.

(** C19: with deep emulation, a resolved target that decodes is
    enqueued, a symbol then stands at it (a Function for a call to a free
    address), the instruction records the target and a reference is
    pushed; the null-symbol dereference never happens.  The target is
    enqueued whether or not it was already known. *)
Theorem register_deep_resolves op t i tr rd tgt :
  operand_is op OperandTypes.Register = true -> env_emulator env = Some rd ->
  instruction_is i InstructionTypes.Branch = true -> op_index op = target_idx i ->
  rd op = Some tgt -> canEmulateVMIL plugin = true -> env_disassemble env tgt = true ->
  let r := analyzeOperand env plugin op (mkFState t i tr) in
  exists s, st_symbol tgt (fs_symbols (snd r)) = Some s /\
    (instruction_is i InstructionTypes.Call = true -> st_symbol tgt t = None ->
     sym_type s = SymbolTypes.Function) /\
    tgt ∈ targets (fs_insn (snd r)) /\
    fs_trace (snd r) = tr ++ [EvLog ("VMIL @ " +:+ hex (address i) +:+ " jump to " +:+ hex tgt);
                              EvDisassemble tgt; EvUpdateInstruction (fs_insn (snd r));
                              EvPushReference (sym_address s) (address i)].
Proof.
  intros Hr He Hb Hi Hrd Hc Hd. unfold analyzeOperand. rewrite Hr. an_unfold.
  rewrite He, Hb, Hr, Hi, Z.eqb_refl. simpl. rewrite Hrd, Hc. simpl. rewrite Hd. simpl.
  cbv [fs_symbols fs_insn fs_trace].
  destruct (instruction_is i InstructionTypes.Call) eqn:Hcall.
  - destruct (st_create tgt SymbolTypes.Function t) as [b t'] eqn:E.
    assert (Hex : exists s, st_symbol tgt t' = Some s /\
                    (st_symbol tgt t = None -> sym_type s = SymbolTypes.Function)).
    { destruct (st_symbol tgt t) as [s0|] eqn:Hs0.
      - rewrite (create_taken _ _ _ _ Hs0) in E. injection E as <- <-.
        exists s0. split; [exact Hs0|discriminate].
      - destruct (create_free tgt SymbolTypes.Function t Hs0) as [_ [nm Hnm]].
        rewrite E in Hnm. eexists. split; [exact Hnm|reflexivity]. }
    destruct Hex as (s & Hs & Hty). simpl. rewrite Hs. simpl.
    exists s. split; [exact Hs|]. split; [intros _; exact Hty|].
    split; [apply target_in|rewrite <- !app_assoc; reflexivity].
  - destruct (create_defines tgt SymbolTypes.Code t) as [s Hs]. simpl. rewrite Hs. simpl.
    exists s. split; [exact Hs|]. split; [discriminate|].
    split; [apply target_in|rewrite <- !app_assoc; reflexivity].
Qed.


End Properties.

(** ** Witnesses *)

Import Samples.

Lemma call_target_fresh_witness :
  fs_trace (snd (analyzeOperand Samples.env plugin (imm 0 12288)
                   (state empty (insn InstructionTypes.Call 8192 (imm 0 12288) [12288]))))
    = [EvDisassemble 12288; EvPushReference 12288 8192] /\
  fs_insn (snd (analyzeOperand Samples.env plugin (imm 0 12288)
                   (state empty (insn InstructionTypes.Call 8192 (imm 0 12288) [12288]))))
    = insn InstructionTypes.Call 8192 (imm 0 12288) [12288] /\
  exists nm, st_symbol 12288 (fs_symbols (snd (analyzeOperand Samples.env plugin (imm 0 12288)
                   (state empty (insn InstructionTypes.Call 8192 (imm 0 12288) [12288])))))
    = Some (mkSymbol SymbolTypes.Function 12288 nm).
Proof.
  apply (call_target_fresh Samples.env plugin (imm 0 12288) empty
           (insn InstructionTypes.Call 8192 (imm 0 12288) [12288]) [] seg_text); reflexivity.
Defined.

Lemma call_target_existing_function_witness :
  analyzeOperand Samples.env plugin (imm 0 12288)
    (state {[12288 := mkSymbol SymbolTypes.Function 12288 "main"]}
           (insn InstructionTypes.Call 8192 (imm 0 12288) [12288]))
  = (tt, mkFState {[12288 := mkSymbol SymbolTypes.Function 12288 "main"]}
           (insn InstructionTypes.Call 8192 (imm 0 12288) [12288]) ([] ++ [EvPushReference 12288 8192])).
Proof.
  apply (call_target_existing_function Samples.env plugin (imm 0 12288)
           {[12288 := mkSymbol SymbolTypes.Function 12288 "main"]}
           (insn InstructionTypes.Call 8192 (imm 0 12288) [12288]) [] seg_text
           (mkSymbol SymbolTypes.Function 12288 "main")); reflexivity.
Defined.

Lemma import_never_dereferenced_witness :
  trace_grows [] (fun e => forall a, e <> EvDereference a)
    (snd (analyzeOperand Samples.env plugin (mem 0 20480)
            (state {[20480 := mkSymbol SymbolTypes.Import 20480 "printf"]}
                   (insn InstructionTypes.Call 8192 (mem 0 20480) [20480])))).
Proof.
  apply (import_never_dereferenced Samples.env plugin (mem 0 20480)
           {[20480 := mkSymbol SymbolTypes.Import 20480 "printf"]}
           (insn InstructionTypes.Call 8192 (mem 0 20480) [20480]) []
           (mkSymbol SymbolTypes.Import 20480 "printf")); reflexivity.
Defined.

Lemma function_preserved_witness :
  on_symbols (fn_at 12288)
    (snd (analyzeOperand Samples.env plugin (imm 0 12288)
            (state {[12288 := mkSymbol SymbolTypes.Function 12288 "main"]}
                   (insn InstructionTypes.Jump 8192 (imm 0 12288) [12288])))).
Proof.
  apply (function_preserved Samples.env plugin 12288 (imm 0 12288)).
  exists (mkSymbol SymbolTypes.Function 12288 "main"). split; reflexivity.
Defined.

Lemma string_threshold_witness :
  (exists nm, st_symbol 28672 (fs_symbols (snd (analyzeOperand Samples.env plugin (imm 0 28672)
      (state empty (insn InstructionTypes.None 4096 (imm 0 28672) []))))) =
     Some (mkSymbol (if 4 <=? 4 then SymbolTypes.String else SymbolTypes.Data) 28672 nm)) /\
  comments (fs_insn (snd (analyzeOperand Samples.env plugin (imm 0 28672)
      (state empty (insn InstructionTypes.None 4096 (imm 0 28672) []))))) =
    [] ++ (if 4 <=? 4 then ["STRING: " +:+ "abcd"] else []).
Proof.
  apply (string_threshold Samples.env plugin (imm 0 28672) empty
           (insn InstructionTypes.None 4096 (imm 0 28672) []) [] seg_text 4); reflexivity.
Defined.

Example string_below_threshold :
  st_symbol 28928 (fs_symbols (snd (analyzeOperand Samples.env plugin (imm 0 28928)
      (state empty (insn InstructionTypes.None 4096 (imm 0 28928) [])))))
  = Some (mkSymbol SymbolTypes.Data 28928 "data_7100").
Proof. vm_compute. reflexivity. Qed.

Lemma jump_comment_witness :
  comments (fs_insn (snd (analyzeOperand Samples.env plugin (imm 0 4080)
      (state empty (insn InstructionTypes.Jump 4096 (imm 0 4080) [4080]))))) = [] ++
    (if 4080 <? 4096 then ["Possible loop"] else if 4080 =? 4096 then ["Infinite loop"] else []) /\
  exists s, st_symbol 4080 (fs_symbols (snd (analyzeOperand Samples.env plugin (imm 0 4080)
      (state empty (insn InstructionTypes.Jump 4096 (imm 0 4080) [4080]))))) = Some s /\
    fs_trace (snd (analyzeOperand Samples.env plugin (imm 0 4080)
      (state empty (insn InstructionTypes.Jump 4096 (imm 0 4080) [4080])))) =
    [] ++ [EvUpdateInstruction (fs_insn (snd (analyzeOperand Samples.env plugin (imm 0 4080)
      (state empty (insn InstructionTypes.Jump 4096 (imm 0 4080) [4080])))));
           EvPushReference (sym_address s) 4096].
Proof.
  apply (jump_comment Samples.env plugin (imm 0 4080) empty
           (insn InstructionTypes.Jump 4096 (imm 0 4080) [4080]) [] seg_text);
    first [reflexivity | unfold is_u64, u64_modulus, operand_value, imm, insn; simpl; lia].
Defined.

Lemma no_segment_no_effect_witness :
  analyzeOperand Samples.env plugin (imm 0 268435456)
    (state {[268435456 := mkSymbol SymbolTypes.Data 268435456 "far"]}
           (insn InstructionTypes.None 4096 (imm 0 268435456) []))
  = (tt, state {[268435456 := mkSymbol SymbolTypes.Data 268435456 "far"]}
           (insn InstructionTypes.None 4096 (imm 0 268435456) [])).
Proof.
  apply (no_segment_no_effect Samples.env plugin (imm 0 268435456)
           {[268435456 := mkSymbol SymbolTypes.Data 268435456 "far"]}
           (insn InstructionTypes.None 4096 (imm 0 268435456) []) []); reflexivity.
Defined.

Lemma operand_value_u64_witness :
  is_u64 (operand_value (mkOperand OperandTypes.Displacement 0 0 0 (mkDisplacement (Some 5) None 1 (-16)) true)) /\
  (operand_is (mkOperand OperandTypes.Displacement 0 0 0 (mkDisplacement (Some 5) None 1 (-16)) true)
     OperandTypes.Displacement = true -> -16 < 0 ->
   operand_value (mkOperand OperandTypes.Displacement 0 0 0 (mkDisplacement (Some 5) None 1 (-16)) true)
   = -16 + 2 ^ 64).
Proof.
  apply (operand_value_u64 (mkOperand OperandTypes.Displacement 0 0 0 (mkDisplacement (Some 5) None 1 (-16)) true));
    unfold is_u64, u64_modulus; simpl; lia.
Defined.

Lemma register_guard_noop_witness :
  analyzeOperand Samples.env plugin (reg 0 2) (state empty (insn InstructionTypes.Jump 8192 (reg 0 2) []))
  = (tt, state empty (insn InstructionTypes.Jump 8192 (reg 0 2) [])).
Proof.
  apply (register_guard_noop Samples.env plugin (reg 0 2) empty (insn InstructionTypes.Jump 8192 (reg 0 2) []) []);
    [reflexivity|].
  right. right. right. eexists. split; reflexivity.
Defined.

Lemma register_conservative_witness :
  analyzeOperand Samples.env plugin (reg 0 1) (state empty (insn InstructionTypes.Jump 8192 (reg 0 1) [])) =
    (tt, mkFState empty (cmt ("=" +:+ hex 12288) (insn InstructionTypes.Jump 8192 (reg 0 1) []))
           ([] ++ [EvLog ("VMIL @ " +:+ hex 8192 +:+ " jump to " +:+ hex 12288);
                   EvUpdateInstruction (cmt ("=" +:+ hex 12288) (insn InstructionTypes.Jump 8192 (reg 0 1) []))])).
Proof.
  apply (register_conservative Samples.env plugin (reg 0 1) empty (insn InstructionTypes.Jump 8192 (reg 0 1) []) []
           (fun op => if op_reg op =? 1 then Some 12288 else None) 12288); reflexivity.
Defined.

Lemma register_deep_resolves_witness :
  exists s, st_symbol 12288 (fs_symbols (snd (analyzeOperand Samples.env deep_plugin (reg 0 1)
              (state empty (insn InstructionTypes.Call 8192 (reg 0 1) []))))) = Some s /\
    (instruction_is (insn InstructionTypes.Call 8192 (reg 0 1) []) InstructionTypes.Call = true ->
     st_symbol 12288 empty = None -> sym_type s = SymbolTypes.Function) /\
    12288 ∈ targets (fs_insn (snd (analyzeOperand Samples.env deep_plugin (reg 0 1)
              (state empty (insn InstructionTypes.Call 8192 (reg 0 1) []))))) /\
    fs_trace (snd (analyzeOperand Samples.env deep_plugin (reg 0 1)
              (state empty (insn InstructionTypes.Call 8192 (reg 0 1) [])))) =
    [] ++ [EvLog ("VMIL @ " +:+ hex 8192 +:+ " jump to " +:+ hex 12288); EvDisassemble 12288;
           EvUpdateInstruction (fs_insn (snd (analyzeOperand Samples.env deep_plugin (reg 0 1)
              (state empty (insn InstructionTypes.Call 8192 (reg 0 1) [])))));
           EvPushReference (sym_address s) 8192].
Proof.
  apply (register_deep_resolves Samples.env deep_plugin (reg 0 1) empty
           (insn InstructionTypes.Call 8192 (reg 0 1) []) []
           (fun op => if op_reg op =? 1 then Some 12288 else None) 12288); reflexivity.
Defined.

(** * Findings *)


