(* ===== verification/Hooks.v ===== *)
(** * The GUI hooks: decisions the shell takes over the document

    [src/hooks/disassemblerhooks.cpp] wires the Qt shell to the analysis
    engine.  Its widget plumbing is out of scope; its decision logic is
    modelled here:
    - [adjustActions] (lines 230-319): which context-menu actions are
      visible, and their texts, from the current item, the current symbol,
      the busy flag and the segments; the [QAction]s persist between
      calls, so the menu is a state [Menu] the function updates;
    - [statusAddress] (lines 185-228): the status-bar text, in particular
      the function-relative location with its name elision and its signed
      offset;
    - [onToolBarActionTriggered] and [onWindowActionTriggered] (lines
      141-183): dispatch by action index;
    - [loadRecents] and [load] (lines 506-554), with [MainWindow::loadRecents]
      and [MainWindow::load] of [src/mainwindow.cpp] (lines 148-196) for
      comparison.
    The rdapi queries ([RDContext_IsBusy], [RDDocument_GetSegmentAddress],
    [RDDocument_GetFunctionStart], [RDDocument_GetSymbolName], [RD_Offset],
    [getCurrentItem], [getCurrentSymbol], ...) are the fields of a
    [MenuContext] snapshot; [RD_ToHexAuto], [RD_ToHexBits] and
    [QString::toHtmlEscaped] are library functions the code only calls,
    taken as section variables.  [RDContext_IsBusy] is read once per call
    (the snapshot); the code reads it up to six times while the analysis
    thread may change it. *)

From S2P Require Import Prelude.
From stdpp Require Import pretty.

Local Open Scope Z_scope.

(** ** rdapi data *)

Inductive RDSymbolType := SymbolType_None | SymbolType_Data | SymbolType_String
  | SymbolType_Label | SymbolType_Function | SymbolType_Import.

#[export] Instance RDSymbolType_eq_dec : EqDecision RDSymbolType.
Proof. solve_decision. Defined.

Module SymbolFlags.
Definition None : Z := 0.
Definition Weak : Z := 1.
Definition Pointer : Z := 2.
End SymbolFlags.

Module SegmentFlags.
Definition None : Z := 0.
Definition Code : Z := 1.
Definition Data : Z := 2.
Definition Bss : Z := 4.
End SegmentFlags.

Record RDSymbol := mkRDSymbol { rs_address : Z; rs_type : RDSymbolType; rs_flags : Z }.
Record RDSegment := mkRDSegment { rseg_name : string; rseg_flags : Z }.
Record RDLocation := mkRDLocation { loc_valid : bool; loc_value : Z }.

Inductive DocumentItemType := DocumentItemType_Instruction | DocumentItemType_Symbol
  | DocumentItemType_Other.

#[export] Instance DocumentItemType_eq_dec : EqDecision DocumentItemType.
Proof. solve_decision. Defined.

Record RDDocumentItem := mkItem { item_address : Z; item_type : DocumentItemType }.

(** What [adjustActions] and [statusAddress] ask the command and the
    document. *)
Record MenuContext := mkMenuContext {
  mc_item : option RDDocumentItem;            (* command->getCurrentItem *)
  mc_symbol : option RDSymbol;                (* command->getCurrentSymbol *)
  mc_busy : bool;                             (* RDContext_IsBusy *)
  mc_can_back : bool;
  mc_can_forward : bool;
  mc_has_selection : bool;
  mc_segment : Z -> option RDSegment;         (* RDDocument_GetSegmentAddress *)
  mc_function_start : Z -> RDLocation;        (* RDDocument_GetFunctionStart *)
  mc_symbol_name : Z -> option string;        (* RDDocument_GetSymbolName *)
  mc_current_word : option Z;                 (* currentWord().toUInt(&ok, 16) *)
  mc_offset : Z -> RDLocation                 (* RD_Offset *)
}.

(** ** The context menu *)

Inductive Action := Action_Rename | Action_Comment | Action_XRefs | Action_Follow
  | Action_FollowPointerHexDump | Action_Goto | Action_CallGraph | Action_HexDump
  | Action_HexDumpFunction | Action_CreateFunction | Action_Back | Action_Forward | Action_Copy.

#[export] Instance Action_eq_dec : EqDecision Action.
Proof. solve_decision. Defined.

Record ActionState := mkActionState { visible : bool; text : string }.

Definition Menu := Action -> ActionState.

Definition setVisible (a : Action) (v : bool) (m : Menu) : Menu :=
  fun a' => if decide (a' = a) then mkActionState v (text (m a)) else m a'.

Definition setText (a : Action) (t : string) (m : Menu) : Menu :=
  fun a' => if decide (a' = a) then mkActionState (visible (m a)) t else m a'.

(** What [adjustActions] does to a menu: [QAction::setVisible] and
    [QAction::setText] on the action of a key.  [Menu] is the abstract
    instance; the [QAction]s that [createActions] builds are the other
    ([ContextMenu]). *)
Class MenuOps (M : Type) := {
  menu_setVisible : Action -> bool -> M -> M;
  menu_setText : Action -> string -> M -> M
}.

#[export] Instance Menu_ops : MenuOps Menu := {| menu_setVisible := setVisible; menu_setText := setText |}.

(** Two menus are equivalent when every action shows the same state: the
    QActions are compared by what they display, not by identity. *)
#[export] Instance Menu_equiv : Equiv Menu := fun m1 m2 => forall a, m1 a = m2 a.

(** What [setVisible] and [setText] do to one action: overwrite the
    visibility, the text, or both, and keep the rest. *)
Definition st_update (u : option bool * option string) (st : ActionState) : ActionState :=
  mkActionState (default (visible st) u.1) (default (text st) u.2).

(** A menu builder that only updates actions pointwise, each update
    depending on the action and not on the old menu. *)
Definition menu_local (F : Menu -> Menu) : Prop :=
  exists u : Action -> option bool * option string, forall m a, F m a = st_update (u a) (m a).

Definition seg_has (s : option RDSegment) (f : Z) : bool :=
  match s with Some s => rseg_flags s &? f | None => false end.

Definition is_some {A} (o : option A) : bool := match o with Some _ => true | None => false end.

Definition name_or_empty (o : option string) : string :=
  match o with Some s => s | None => "" end.

Section Hooks.
Variable RD_ToHexAuto : Z -> string.
Variable RD_ToHexBits : Z -> Z -> string.
Variable toHtmlEscaped : string -> string.
Context {M : Type} `{!MenuOps M}.

(** The branch of [adjustActions] with no symbol under the cursor. *)
Definition adjust_no_symbol (c : MenuContext) (item : RDDocumentItem) (m : M) : M :=
  let symbolsegment := mc_segment c (item_address item) in
  let funcstart := mc_function_start c (item_address item) in
  let funcname := if loc_valid funcstart then mc_symbol_name c (loc_value funcstart) else None in
  let m := menu_setVisible Action_Rename false m in
  let m := menu_setVisible Action_XRefs false m in
  let m := menu_setVisible Action_Follow false m in
  let m := menu_setVisible Action_FollowPointerHexDump false m in
  let m :=
    if negb (mc_busy c) then
      let currentsegment := match mc_current_word c with Some a => mc_segment c a | None => None end in
      let m := menu_setVisible Action_CreateFunction
                 (is_some currentsegment && seg_has currentsegment SegmentFlags.Code) m in
      match currentsegment, mc_current_word c with
      | Some _, Some a => menu_setText Action_CreateFunction ("Create Function @ " +:+ RD_ToHexAuto a) m
      | _, _ => m
      end
    else menu_setVisible Action_CreateFunction false m in
  let m := match funcname with
           | Some n => menu_setText Action_CallGraph ("Callgraph " +:+ n) m
           | None => m
           end in
  let m := menu_setVisible Action_CallGraph
             (is_some funcname && is_some symbolsegment && seg_has symbolsegment SegmentFlags.Code) m in
  let m := menu_setVisible Action_HexDumpFunction (is_some funcname) m in
  menu_setVisible Action_HexDump true m.

(** The branch of [adjustActions] with a symbol under the cursor. *)
Definition adjust_symbol (c : MenuContext) (item : RDDocumentItem) (symbol : RDSymbol) (m : M) : M :=
  let busy := mc_busy c in
  let itemsegment := mc_segment c (item_address item) in
  let symbolname := name_or_empty (mc_symbol_name c (rs_address symbol)) in
  let symbolsegment := mc_segment c (rs_address symbol) in
  let m := menu_setText Action_CreateFunction ("Create Function @ " +:+ RD_ToHexAuto (rs_address symbol)) m in
  let m := menu_setVisible Action_CreateFunction
             (negb busy && (is_some symbolsegment && seg_has symbolsegment SegmentFlags.Code) &&
              ((rs_flags symbol &? SymbolFlags.Weak) && negb (bool_decide (rs_type symbol = SymbolType_Function)))) m in
  let m := menu_setText Action_FollowPointerHexDump ("Follow " +:+ symbolname +:+ " pointer in Hex Dump") m in
  let m := menu_setVisible Action_FollowPointerHexDump (rs_flags symbol &? SymbolFlags.Pointer) m in
  let m := menu_setText Action_XRefs ("Cross Reference " +:+ symbolname) m in
  let m := menu_setVisible Action_XRefs (negb busy) m in
  let m := menu_setText Action_Rename ("Rename " +:+ symbolname) m in
  let m := menu_setVisible Action_Rename (negb busy && (rs_flags symbol &? SymbolFlags.Weak)) m in
  let m := menu_setText Action_CallGraph ("Callgraph " +:+ symbolname) m in
  let m := menu_setVisible Action_CallGraph (negb busy && bool_decide (rs_type symbol = SymbolType_Function)) m in
  let m := menu_setText Action_Follow ("Follow " +:+ symbolname) m in
  let m := menu_setVisible Action_Follow (bool_decide (rs_type symbol = SymbolType_Label)) m in
  let m := menu_setVisible Action_Comment
             (negb busy && bool_decide (item_type item = DocumentItemType_Instruction)) m in
  let m := menu_setVisible Action_HexDump (is_some symbolsegment && seg_has symbolsegment SegmentFlags.Bss) m in
  menu_setVisible Action_HexDumpFunction
    (is_some itemsegment && negb (seg_has itemsegment SegmentFlags.Bss) && seg_has itemsegment SegmentFlags.Code) m.

Definition adjustActions (c : MenuContext) (m : M) : M :=
  match mc_item c with
  | None => m
  | Some item =>
      let m := menu_setVisible Action_Back (mc_can_back c) m in
      let m := menu_setVisible Action_Forward (mc_can_forward c) m in
      let m := menu_setVisible Action_Copy (mc_has_selection c) m in
      let m := menu_setVisible Action_Goto (negb (mc_busy c)) m in
      match mc_symbol c with
      | None => adjust_no_symbol c item m
      | Some symbol => adjust_symbol c item symbol m
      end
  end.

(** ** The status bar *)

Definition MAX_FUNCTION_NAME : nat := 50.

Definition nbsp : string := String (Ascii.ascii_of_nat 160) EmptyString.

(** The function part: elided name and signed offset. *)
Definition function_label (name : string) (addr fstart : Z) : string :=
  let func := if Nat.ltb MAX_FUNCTION_NAME (String.length name)
              then String.substring 0 MAX_FUNCTION_NAME name +:+ "..." else name in
  if fstart <? addr then func +:+ "+" +:+ RD_ToHexBits (addr - fstart) 8
  else if addr <? fstart then func +:+ pretty (to_s64 (wrap_u64 (addr - fstart)))
  else func.

(** [None] when the code returns without calling [RD_Status]. *)
Definition statusAddress (c : MenuContext) : option string :=
  if mc_busy c then None else
  match mc_item c with
  | None => None
  | Some item =>
      let segment := mc_segment c (item_address item) in
      let functionstart := mc_function_start c (item_address item) in
      let offset := mc_offset c (item_address item) in
      let segm := match segment with Some s => rseg_name s | None => "UNKNOWN" end in
      let offs := if is_some segment && loc_valid offset then RD_ToHexAuto (loc_value offset) else "UNKNOWN" in
      let addr := RD_ToHexAuto (item_address item) in
      let s := "<b>Address: </b>" +:+ addr +:+ nbsp +:+ nbsp in
      let s := s +:+ "<b>Offset: </b>" +:+ offs +:+ nbsp +:+ nbsp in
      let s := s +:+ "<b>Segment: </b>" +:+ segm +:+ nbsp +:+ nbsp in
      match loc_valid functionstart, mc_symbol_name c (loc_value functionstart) with
      | true, Some name =>
          Some ("<b>Function: </b>" +:+
                toHtmlEscaped (function_label name (item_address item) (loc_value functionstart)) +:+
                nbsp +:+ nbsp +:+ s)
      | _, _ => Some s
      end
  end.

End Hooks.

(** ** Toolbar and window menu *)

Inductive ToolbarCommand := GoBack | GoForward | ShowGoto | ToggleFilter.

(** [onToolBarActionTriggered]: [idx] is the action's index in the
    toolbar; [is_table] tells whether the current widget is an
    [ITableTab]. *)
Definition onToolBarActionTriggered (has_tab is_table : bool) (idx : Z) : option ToolbarCommand :=
  if negb has_tab then None
  else if idx =? 2 then Some GoBack
  else if idx =? 3 then Some GoForward
  else if idx =? 4 then Some ShowGoto
  else if idx =? 5 then (if is_table then Some ToggleFilter else None)
  else None.

Inductive WindowCommand := FocusListing (create : bool) | ShowSegments | ShowFunctions
  | ShowExports | ShowImports | ShowStrings.

(** [onWindowActionTriggered]: index 0 focuses the listing, creating it
    when no command tab is active. *)
Definition onWindowActionTriggered (has_tab : bool) (idx : Z) : option WindowCommand :=
  if idx =? 0 then Some (FocusListing (negb has_tab))
  else if idx =? 1 then Some ShowSegments
  else if idx =? 2 then Some ShowFunctions
  else if idx =? 3 then Some ShowExports
  else if idx =? 4 then Some ShowImports
  else if idx =? 5 then Some ShowStrings
  else None.

(** The shell widgets [enableCommands] and [updateViewWidgets] touch. *)
Record Shell := mkShell {
  tb_visible : list bool;           (* m_toolbar->actions()[i]->isVisible *)
  tb_enabled : list bool;           (* m_toolbar->actions()[i]->isEnabled *)
  devtools_visible : bool;
  renderer_visible : bool;
  statusicon_visible : bool;
  problems_visible : bool;
  window_title : string
}.

(** [QList::operator[]] asserts its index is in range. *)
Definition list_set (i : nat) (v : bool) (l : list bool) : option (list bool) :=
  if decide (i < length l)%nat then Some (<[i := v]> l) else None.

Definition with_toolbar (vis en : list bool) (s : Shell) : Shell :=
  mkShell vis en (devtools_visible s) (renderer_visible s) (statusicon_visible s)
    (problems_visible s) (window_title s).

(** [enableCommands(w)]; [w] is [None] for a null widget, else whether it
    is an [ICommandTab] and whether it is an [ITableTab]. *)
Definition enableCommands (w : option (bool * bool)) (s : Shell) : option Shell :=
  match w with
  | None =>
      let vis := imap (fun i v => if decide (2 <= i)%nat then false else v) (tb_visible s) in
      Some (mkShell vis (tb_enabled s) false false (statusicon_visible s) (problems_visible s) (window_title s))
  | Some (commandtab, tabletab) =>
      v2 ← list_set 2 commandtab (tb_visible s);
      v3 ← list_set 3 commandtab v2;
      v4 ← list_set 4 commandtab v3;
      v5 ← list_set 5 tabletab v4;
      Some (mkShell v5 (tb_enabled s) commandtab commandtab (statusicon_visible s)
              (problems_visible s) (window_title s))
  end.

(** [updateViewWidgets(busy)]: [has_view] is [m_disassemblerview != null],
    [problems] the problem count when there is an active context. *)
Definition updateViewWidgets (has_view busy : bool) (filename : string) (problems : option nat)
    (s : Shell) : option Shell :=
  if negb has_view then
    en ← list_set 4 false (tb_enabled s);
    Some (mkShell (tb_visible s) en (devtools_visible s) (renderer_visible s) false false "")
  else
    let title := if busy then filename +:+ " (Working)" else filename in
    en ← list_set 4 (negb busy) (tb_enabled s);
    let pv := match problems with Some n => negb busy && bool_decide (0 < n)%nat | None => false end in
    Some (mkShell (tb_visible s) en (devtools_visible s) (renderer_visible s) true pv title).

(** ** Recent files and loading *)

Inductive RecentAction := HiddenAction | RecentEntry (i : nat) (path : string).

(** [DisassemblerHooks::loadRecents]: a missing file is skipped. *)
Definition hooks_loadRecents (MAX_RECENT_FILES : nat) (file_exists : string -> bool)
    (recents : list string) : list RecentAction :=
  flat_map (fun i => match recents !! i with
                     | None => [HiddenAction]
                     | Some r => if file_exists r then [RecentEntry i r] else []
                     end) (seq 0 MAX_RECENT_FILES).

(** [MainWindow::loadRecents]: one action per slot. *)
Definition mainwindow_loadRecents (MAX_RECENT_FILES : nat) (recents : list string) : list RecentAction :=
  map (fun i => match recents !! i with
                | None => HiddenAction
                | Some r => RecentEntry i r
                end) (seq 0 MAX_RECENT_FILES).

Inductive LoadEvent := UpdateRecentFiles (p : string) | LoadRecentsMenu | ShowLoaders (p : string)
  | FreeBuffer | InitDisassembler.

#[export] Instance LoadEvent_eq_dec : EqDecision LoadEvent.
Proof. solve_decision. Defined.

Definition openDatabase (filepath : string) : bool := false.

(** [DisassemblerHooks::load]: [buffer] is [None] when
    [RDBuffer_CreateFromFile] fails, else the buffer size. *)
Definition hooks_load (filepath : string) (buffer : option nat) : list LoadEvent :=
  [UpdateRecentFiles filepath; LoadRecentsMenu] ++
  if openDatabase filepath then [] else
  match buffer with
  | Some n => if bool_decide (0 < n)%nat then [ShowLoaders filepath] else [FreeBuffer]
  | None => []
  end.

(** [MainWindow::load]: [n] is the size of [Buffer::fromFile]. *)
Definition mainwindow_load (filepath : string) (n : nat) : list LoadEvent :=
  if bool_decide (n = 0)%nat then [] else [UpdateRecentFiles filepath; LoadRecentsMenu; InitDisassembler].

(** The same snapshot with another answer of [RDContext_IsBusy]. *)
Definition with_busy (b : bool) (c : MenuContext) : MenuContext :=
  mkMenuContext (mc_item c) (mc_symbol c) b (mc_can_back c) (mc_can_forward c) (mc_has_selection c)
    (mc_segment c) (mc_function_start c) (mc_symbol_name c) (mc_current_word c) (mc_offset c).

(** * Properties *)

Section HookProps.
Variable RD_ToHexAuto : Z -> string.
Variable RD_ToHexBits : Z -> Z -> string.
Variable toHtmlEscaped : string -> string.

Lemma visible_setVisible a v m a' :
  visible (setVisible a v m a') = if decide (a' = a) then v else visible (m a').
Proof. unfold setVisible. case_decide; reflexivity. Qed.

Lemma visible_setText a t m a' : visible (setText a t m a') = visible (m a').
Proof. unfold setText. case_decide; subst; reflexivity. Qed.

#[local] Hint Rewrite visible_setVisible visible_setText : redasm_rw.

(** Resolve the visibility of a concrete action in a built menu. *)
Local Ltac menu_simpl :=
  autorewrite with redasm_rw; repeat (case_decide; try congruence).

#[export] Instance Menu_equivalence : Equivalence (≡@{Menu}).
Proof.
  split; [intros m a; reflexivity|intros m1 m2 H a; symmetry; apply H
         |intros m1 m2 m3 H1 H2 a; rewrite H1; apply H2].
Qed.

Lemma local_id : menu_local (fun m => m).
Proof. exists (fun _ => (None, None)). intros m a. destruct (m a); reflexivity. Qed.

Lemma local_setVisible a v F : menu_local F -> menu_local (fun m => setVisible a v (F m)).
Proof.
  intros [u Hu]. exists (fun a' => if decide (a' = a) then (Some v, (u a).2) else u a').
  intros m a'. unfold setVisible. case_decide; subst; rewrite Hu; reflexivity.
Qed.

Lemma local_setText a t F : menu_local F -> menu_local (fun m => setText a t (F m)).
Proof.
  intros [u Hu]. exists (fun a' => if decide (a' = a) then ((u a).1, Some t) else u a').
  intros m a'. unfold setText. case_decide; subst; rewrite Hu; reflexivity.
Qed.

(** A pointwise update respects menu equivalence and is idempotent: an
    update overwrites what it sets and keeps the rest. *)
Lemma local_proper F : menu_local F -> Proper ((≡) ==> (≡)) F.
Proof. intros [u Hu] m1 m2 Hm a. rewrite !Hu, Hm. reflexivity. Qed.


(** Decompose a menu builder into its [setVisible]/[setText] steps. *)
Local Ltac menu_local_tac :=
  cbv zeta; repeat case_match;
  repeat (apply local_setVisible || apply local_setText); apply local_id.

Lemma adjustActions_local c : menu_local (adjustActions RD_ToHexAuto c).
Proof.
  unfold adjustActions, adjust_no_symbol, adjust_symbol.
  destruct (mc_item c); [|apply local_id]. destruct (mc_symbol c); menu_local_tac.
Qed.

#[export] Instance setVisible_proper a v : Proper ((≡) ==> (≡)) (setVisible a v).
Proof. apply local_proper, (local_setVisible a v (fun m => m)), local_id. Qed.

#[export] Instance setText_proper a t : Proper ((≡) ==> (≡)) (setText a t).
Proof. apply local_proper, (local_setText a t (fun m => m)), local_id. Qed.

#[export] Instance adjustActions_proper c : Proper ((≡) ==> (≡)) (adjustActions RD_ToHexAuto c).
Proof. apply local_proper, adjustActions_local. Qed.

(** The visibility [adjustActions] gives an action, when there is a
    current item, depends on the context only (never on the old menu)
    except for [Comment] in the branch with no symbol. *)
Lemma adjust_symbol_visible c item sym (m : Menu) a :
  a <> Action_Back -> a <> Action_Forward -> a <> Action_Copy -> a <> Action_Goto ->
  visible (adjust_symbol RD_ToHexAuto c item sym m a) =
  match a with
  | Action_CreateFunction =>
      negb (mc_busy c) && (is_some (mc_segment c (rs_address sym)) &&
        seg_has (mc_segment c (rs_address sym)) SegmentFlags.Code) &&
      ((rs_flags sym &? SymbolFlags.Weak) && negb (bool_decide (rs_type sym = SymbolType_Function)))
  | Action_FollowPointerHexDump => rs_flags sym &? SymbolFlags.Pointer
  | Action_XRefs => negb (mc_busy c)
  | Action_Rename => negb (mc_busy c) && (rs_flags sym &? SymbolFlags.Weak)
  | Action_CallGraph => negb (mc_busy c) && bool_decide (rs_type sym = SymbolType_Function)
  | Action_Follow => bool_decide (rs_type sym = SymbolType_Label)
  | Action_Comment => negb (mc_busy c) && bool_decide (item_type item = DocumentItemType_Instruction)
  | Action_HexDump => is_some (mc_segment c (rs_address sym)) && seg_has (mc_segment c (rs_address sym)) SegmentFlags.Bss
  | Action_HexDumpFunction =>
      is_some (mc_segment c (item_address item)) && negb (seg_has (mc_segment c (item_address item)) SegmentFlags.Bss)
      && seg_has (mc_segment c (item_address item)) SegmentFlags.Code
  | _ => visible (m a)
  end.
Proof.
  intros. unfold adjust_symbol. autorewrite with redasm_rw.
  destruct a; try congruence; menu_simpl; reflexivity.
Qed.

(** C20: while the analysis is busy, with a symbol under the cursor, the
    context menu offers none of the actions that change or query the
    document: Rename, Comment, Create Function, Cross References, Call
    Graph and Goto are hidden. *)
Theorem adjust_busy_hides_mutators c item sym (m : Menu) :
  mc_item c = Some item -> mc_symbol c = Some sym -> mc_busy c = true ->
  Forall (fun a => visible (adjustActions RD_ToHexAuto c m a) = false)
    [Action_Rename; Action_Comment; Action_CreateFunction; Action_XRefs; Action_CallGraph; Action_Goto].
Proof.
  intros Hi Hs Hb. unfold adjustActions. rewrite Hi, Hs.
  repeat apply Forall_cons_2; [..|apply Forall_nil_2];
    first [rewrite adjust_symbol_visible by discriminate; rewrite Hb; reflexivity
          |unfold adjust_symbol; menu_simpl; rewrite Hb; reflexivity].
Qed.

(** C21: with a symbol under the cursor, Create Function is offered
    exactly for a weak non-function symbol in a code segment while the
    analysis is idle. *)
Theorem adjust_create_function c item sym (m : Menu) :
  mc_item c = Some item -> mc_symbol c = Some sym ->
  visible (adjustActions RD_ToHexAuto c m Action_CreateFunction) =
    negb (mc_busy c) && seg_has (mc_segment c (rs_address sym)) SegmentFlags.Code &&
    (rs_flags sym &? SymbolFlags.Weak) && negb (bool_decide (rs_type sym = SymbolType_Function)).
Proof.
  intros Hi Hs. unfold adjustActions. rewrite Hi, Hs.
  rewrite adjust_symbol_visible by discriminate.
  destruct (mc_segment c (rs_address sym)); simpl;
    [rewrite andb_assoc; reflexivity|rewrite !andb_false_r; reflexivity].
Qed.

(** C29: the branch with no symbol under the cursor ignores the busy
    flag for Comment and Call Graph: it never sets the visibility of
    Comment, which keeps whatever the previous call left (so after a menu
    shown on an instruction symbol while idle, Comment stays offered while
    the analysis is busy), and Call Graph gets the same visibility busy or
    idle, where the symbol branch hides both while busy. *)
Theorem no_symbol_branch_ignores_busy c item (m : Menu) :
  mc_item c = Some item -> mc_symbol c = None ->
  visible (adjustActions RD_ToHexAuto c m Action_Comment) = visible (m Action_Comment) /\
  visible (adjustActions RD_ToHexAuto (with_busy true c) m Action_CallGraph) =
  visible (adjustActions RD_ToHexAuto (with_busy false c) m Action_CallGraph).
Proof.
  intros Hi Hs. unfold adjustActions, adjust_no_symbol. simpl. rewrite Hi, Hs.
  split; repeat case_match; menu_simpl; reflexivity.
Qed.


(** ** The status bar *)


(** C22: the status text is not touched while the analysis is busy, and
    otherwise always set when there is a current item. *)
Theorem status_only_when_idle c :
  statusAddress RD_ToHexAuto RD_ToHexBits toHtmlEscaped c = None <->
  mc_busy c = true \/ mc_item c = None.
Proof.
  unfold statusAddress. destruct (mc_busy c); [tauto|].
  destruct (mc_item c); [|tauto]. split; [|intros [H|H]; discriminate].
  repeat case_match; discriminate.
Qed.




(** ** Toolbar *)

(** C25: Goto is unavailable while the analysis is busy, both in the
    toolbar ([updateViewWidgets] disables action 4) and in the context
    menu ([adjustActions] hides it); when idle with a view, the toolbar
    enables it. *)
Theorem goto_unavailable_while_busy has_view busy filename problems s s' c (m : Menu) :
  updateViewWidgets has_view busy filename problems s = Some s' ->
  tb_enabled s' !! 4%nat = Some (has_view && negb busy) /\
  (mc_busy c = true -> is_some (mc_item c) = true ->
   visible (adjustActions RD_ToHexAuto c m Action_Goto) = false).
Proof.
  intros Hu. split.
  - unfold updateViewWidgets, list_set in Hu.
    destruct has_view; simpl in Hu; case_decide; cbn in Hu; simplify_eq; cbn; apply list_lookup_insert_eq; assumption.
  - intros Hb Hi. unfold adjustActions. destruct (mc_item c); [|discriminate].
    destruct (mc_symbol c); [unfold adjust_symbol|unfold adjust_no_symbol; repeat case_match];
      menu_simpl; rewrite ?Hb in *; simpl in *; first [discriminate|reflexivity].
Qed.

(** ** Recent files *)

(** C26: every recent-file action the hooks build opens a file that
    exists, sits at its position in the recent list, and within the first
    [MAX_RECENT_FILES]. *)
Theorem hooks_recents_sound MAX file_exists recents i r :
  RecentEntry i r ∈ hooks_loadRecents MAX file_exists recents ->
  file_exists r = true /\ recents !! i = Some r /\ (i < MAX)%nat.
Proof.
  unfold hooks_loadRecents. rewrite list_elem_of_In, in_flat_map.
  intros (j & Hj & Hin). apply in_seq in Hj.
  destruct (recents !! j) as [r'|] eqn:E; simpl in Hin.
  - destruct (file_exists r') eqn:Ex; simpl in Hin; [|contradiction].
    destruct Hin as [Heq|[]]. injection Heq as <- <-. split; [exact Ex|]. split; [exact E|lia].
  - destruct Hin as [Heq|[]]. discriminate.
Qed.

(** The main window's recent menu has exactly [MAX_RECENT_FILES]
    slots and slot [i] opens the [i]-th recent file when there is one. *)
Theorem mainwindow_recents_slots MAX recents i :
  length (mainwindow_loadRecents MAX recents) = MAX /\
  ((i < MAX)%nat -> mainwindow_loadRecents MAX recents !! i =
     Some (match recents !! i with Some r => RecentEntry i r | None => HiddenAction end)).
Proof.
  unfold mainwindow_loadRecents. split; [rewrite length_map, length_seq; reflexivity|].
  intros Hi. rewrite list_lookup_fmap, lookup_seq_lt by exact Hi. reflexivity.
Qed.

(** C28: [DisassemblerHooks::load] adds the path to the recent files before
    it knows whether the file can be read, so an unreadable or empty file
    is recorded; [MainWindow::load] records only a non-empty buffer. *)
Theorem load_records_unreadable filepath :
  UpdateRecentFiles filepath ∈ hooks_load filepath None /\
  UpdateRecentFiles filepath ∈ hooks_load filepath (Some 0%nat) /\
  (UpdateRecentFiles filepath ∉ mainwindow_load filepath 0) /\
  (forall n, (0 < n)%nat -> UpdateRecentFiles filepath ∈ mainwindow_load filepath n).
Proof.
  unfold hooks_load, mainwindow_load. split; [left|split; [left|split]].
  - rewrite bool_decide_eq_true_2 by reflexivity. apply not_elem_of_nil.
  - intros n Hn. rewrite bool_decide_eq_false_2 by lia. left.
Qed.

(** [DisassemblerHooks::loadRecents] skips a recent file that no
    longer exists without adding a hidden placeholder, so its menu has
    fewer than [MAX_RECENT_FILES] entries, where [MainWindow::loadRecents]
    always has exactly that many. *)
Theorem hooks_recents_missing_shrinks MAX file_exists recents i r :
  (i < MAX)%nat -> recents !! i = Some r -> file_exists r = false ->
  (length (hooks_loadRecents MAX file_exists recents) < MAX)%nat.
Proof.
  intros Hi Hr Hf. unfold hooks_loadRecents.
  rewrite <- (length_seq MAX 0) at 2. apply flat_map_length_lt with (x := i).
  - intros y _. destruct (recents !! y); [case_match|]; simpl; lia.
  - apply in_seq. lia.
  - rewrite Hr, Hf. reflexivity.
Qed.

(** C37: when every recent file still exists, the recent-files menu of
    [DisassemblerHooks::loadRecents] is the one [MainWindow::loadRecents]
    builds: the two implementations differ only on missing files. *)
Theorem recents_menus_agree MAX file_exists recents :
  (forall r, r ∈ recents -> file_exists r = true) ->
  hooks_loadRecents MAX file_exists recents = mainwindow_loadRecents MAX recents.
Proof.
  intros Hex. unfold hooks_loadRecents, mainwindow_loadRecents.
  apply flat_map_singleton_map. intros i _.
  destruct (recents !! i) as [r|] eqn:E; [|reflexivity].
  rewrite Hex by (eapply list_elem_of_lookup_2; exact E). reflexivity.
Qed.

End HookProps.

(** ** Sample contexts *)

Module HookSamples.

Definition text_segment : RDSegment := mkRDSegment ".text" SegmentFlags.Code.

(** A document whose code segment covers [0, 0x10000), with a function
    [sub_1000] starting at 0x1000. *)
Definition ctx (busy : bool) (sym : option RDSymbol) : MenuContext :=
  mkMenuContext (Some (mkItem 4100 DocumentItemType_Instruction)) sym busy false false false
    (fun a => if a <? 65536 then Some text_segment else None)
    (fun _ => mkRDLocation true 4096)
    (fun a => if a =? 4096 then Some "sub_1000" else None)
    None (fun a => mkRDLocation true a).

Definition weak_label : RDSymbol := mkRDSymbol 4100 SymbolType_Label SymbolFlags.Weak.

Definition all_visible : Menu := fun _ => mkActionState true "".

Definition file_exists_sample (p : string) : bool := negb (bool_decide (p = "a")).

Definition toolbar : Shell := mkShell (repeat true 6) (repeat true 6) true true false false "".

End HookSamples.

Import HookSamples.

(** In the sample document, with no symbol under the cursor, Call Graph
    is offered while the analysis is busy. *)
Example callgraph_visible_while_busy (RD_ToHexAuto : Z -> string) (m : Menu) :
  mc_busy (ctx true None) = true /\
  visible (adjustActions RD_ToHexAuto (ctx true None) m Action_CallGraph) = true.
Proof. split; reflexivity. Qed.

Lemma adjust_busy_hides_mutators_witness :
  Forall (fun a => visible (adjustActions pretty (ctx true (Some weak_label)) all_visible a) = false)
    [Action_Rename; Action_Comment; Action_CreateFunction; Action_XRefs; Action_CallGraph; Action_Goto].
Proof. apply (adjust_busy_hides_mutators pretty (ctx true (Some weak_label)) (mkItem 4100 DocumentItemType_Instruction) weak_label); reflexivity. Defined.

Lemma adjust_create_function_witness :
  visible (adjustActions pretty (ctx false (Some weak_label)) all_visible Action_CreateFunction) = true.
Proof.
  rewrite (adjust_create_function pretty (ctx false (Some weak_label)) (mkItem 4100 DocumentItemType_Instruction) weak_label)
    by reflexivity. reflexivity.
Defined.

Lemma no_symbol_branch_ignores_busy_witness :
  visible (adjustActions pretty (ctx true None) all_visible Action_Comment) = true /\
  visible (adjustActions pretty (with_busy true (ctx true None)) all_visible Action_CallGraph) =
  visible (adjustActions pretty (with_busy false (ctx true None)) all_visible Action_CallGraph).
Proof.
  destruct (no_symbol_branch_ignores_busy pretty (ctx true None) (mkItem 4100 DocumentItemType_Instruction)
              all_visible eq_refl eq_refl) as [H1 H2].
  split; [rewrite H1; reflexivity|exact H2].
Defined.


Lemma goto_unavailable_while_busy_witness :
  tb_enabled (mkShell (repeat true 6) (repeat true 6) true true true false "a.bin") !! 4%nat = Some (true && negb false).
Proof.
  apply (goto_unavailable_while_busy pretty true false "a.bin" None toolbar _ (ctx true None) all_visible).
  reflexivity.
Defined.

Lemma hooks_recents_sound_witness :
  file_exists_sample "b" = true /\ ["a"; "b"] !! 1%nat = Some "b" /\ (1 < 3)%nat.
Proof.
  apply (hooks_recents_sound 3 file_exists_sample ["a"; "b"]).
  apply list_elem_of_In. simpl. auto.
Defined.

Lemma recents_menus_agree_witness :
  hooks_loadRecents 3 (fun _ => true) ["a"; "b"] = mainwindow_loadRecents 3 ["a"; "b"].
Proof. apply (recents_menus_agree 3 (fun _ => true) ["a"; "b"]). intros r _. reflexivity. Defined.

Example hooks_recents_missing_sample :
  (length (hooks_loadRecents 3 file_exists_sample ["a"; "b"; "c"]) < 3)%nat.
Proof. apply (hooks_recents_missing_shrinks 3 file_exists_sample ["a"; "b"; "c"] 0 "a"); first [lia|reflexivity]. Qed.
