(* ===== verification/Worker.v ===== *)
(** * The Create Function action and its background task

    [DisassemblerHooks::createActions] (src/hooks/disassemblerhooks.cpp,
    lines 471-479) binds Create Function to a lambda that reads the
    current symbol into a local [RDSymbol symbol] and starts
    [m_worker = std::async([&]() { RDDisassembler_CreateFunction(...,
    symbol.address, nullptr); })].  The task captures [symbol] by
    reference, and the lambda returns while the task may still be
    pending, so the two threads interleave.

    The model is an interleaving semantics: a [WState] holds the UI
    thread's position in the lambda ([UIpc]), the lambda's stack frames
    (one [Cell] per invocation, alive or ended, initialised or not), the
    pending tasks and the trace of calls made.  The operations [trigger],
    [assign], [ret] and [run] are the atomic steps, partial functions that
    answer [None] where the step is not enabled; [wstep] lets any enabled
    step happen.  The assignment to [m_worker] releases the previous
    future, whose destructor waits for its task ([std::async]'s shared
    state), so [assign] is enabled only when every older task has run.

    Theorems: at most two tasks are ever pending and at most one when the
    UI thread is idle; a task reads a defined address exactly when it runs
    before its lambda returned, and there is a schedule where it reads the
    ended frame; the failure branch logs an uninitialised address. *)

From S2P Require Import Prelude.
From S2P Require Import Hooks.

(** ** State *)

(** The lambda's local [symbol]: [cell_val] is [None] while uninitialised
    ([getCurrentSymbol] failed), [cell_alive] false once the lambda
    returned. *)
Record Cell := mkCell { cell_alive : bool; cell_val : option RDSymbol }.

Inductive WEvent :=
  | CannotCreateLog (addr : option Z)      (* rd_log("Cannot create function @ ...") *)
  | CreateFunctionCall (addr : option Z).  (* RDDisassembler_CreateFunction *)

(** [None] stands for a read of an uninitialised or ended object. *)
Definition read_address (frames : gmap nat Cell) (k : nat) : option Z :=
  match frames !! k with
  | Some (mkCell true (Some s)) => Some (rs_address s)
  | _ => None
  end.

Inductive UIpc :=
  | UIIdle                 (* outside the lambda *)
  | UISpawned (n : nat)    (* invocation n started its task *)
  | UIAssigned (n : nat).  (* invocation n stored the future in m_worker *)

Record WState := mkWState {
  ws_pc : UIpc;
  ws_frames : gmap nat Cell;
  ws_tasks : list nat;        (* pending tasks, by the invocation whose frame they read *)
  ws_next : nat;              (* next invocation number *)
  ws_events : list WEvent
}.

Definition init : WState := mkWState UIIdle ∅ [] 0 [].

(** ** Steps *)

(** The action is triggered with [cur] the answer of
    [command->getCurrentSymbol]. *)
Definition trigger (cur : option RDSymbol) (s : WState) : option WState :=
  match ws_pc s with
  | UIIdle =>
      let n := ws_next s in
      let frames := <[n := mkCell true cur]> (ws_frames s) in
      match cur with
      | None =>
          Some (mkWState UIIdle (<[n := mkCell false None]> frames) (ws_tasks s) (S n)
                  (ws_events s ++ [CannotCreateLog (read_address frames n)]))
      | Some _ => Some (mkWState (UISpawned n) frames (ws_tasks s ++ [n]) (S n) (ws_events s))
      end
  | _ => None
  end.

(** [m_worker = ...]: the old future's release waits for every older task. *)
Definition assign (s : WState) : option WState :=
  match ws_pc s with
  | UISpawned n =>
      if forallb (fun k => Nat.eqb k n) (ws_tasks s)
      then Some (mkWState (UIAssigned n) (ws_frames s) (ws_tasks s) (ws_next s) (ws_events s))
      else None
  | _ => None
  end.

(** The lambda returns: its frame ends. *)
Definition ret (s : WState) : option WState :=
  match ws_pc s with
  | UIAssigned n =>
      Some (mkWState UIIdle (alter (fun c => mkCell false (cell_val c)) n (ws_frames s))
              (ws_tasks s) (ws_next s) (ws_events s))
  | _ => None
  end.

(** Pending task [k] runs: it reads [symbol.address] through its reference. *)
Definition run (k : nat) (s : WState) : option WState :=
  if decide (k ∈ ws_tasks s) then
    Some (mkWState (ws_pc s) (ws_frames s) (filter (fun j => j ≠ k) (ws_tasks s)) (ws_next s)
            (ws_events s ++ [CreateFunctionCall (read_address (ws_frames s) k)]))
  else None.

Inductive wstep : WState -> WState -> Prop :=
  | wstep_trigger cur s s' : trigger cur s = Some s' -> wstep s s'
  | wstep_assign s s' : assign s = Some s' -> wstep s s'
  | wstep_ret s s' : ret s = Some s' -> wstep s s'
  | wstep_run k s s' : run k s = Some s' -> wstep s s'.

Definition reachable (s : WState) : Prop := rtc wstep init s.

(** A schedule, executable: the steps in order. *)
Inductive WOp := OpTrigger (cur : option RDSymbol) | OpAssign | OpRet | OpRun (k : nat).

Definition wop (o : WOp) : WState -> option WState :=
  match o with
  | OpTrigger cur => trigger cur
  | OpAssign => assign
  | OpRet => ret
  | OpRun k => run k
  end.

Fixpoint schedule (os : list WOp) (s : WState) : option WState :=
  match os with
  | [] => Some s
  | o :: os => wop o s ≫= schedule os
  end.

Definition owner (pc : UIpc) : option nat :=
  match pc with UIIdle => None | UISpawned n | UIAssigned n => Some n end.

(** The invariant: pending tasks are distinct earlier invocations, each
    task's frame holds an initialised symbol and is alive exactly while
    the UI thread is still inside that invocation, and the number of
    pending tasks is bounded by the UI thread's position. *)
Definition winv (s : WState) : Prop :=
  NoDup (ws_tasks s) /\
  (forall k, k ∈ ws_tasks s -> (k < ws_next s)%nat /\
     exists sym, ws_frames s !! k = Some (mkCell (bool_decide (owner (ws_pc s) = Some k)) (Some sym))) /\
  match ws_pc s with
  | UIIdle => (length (ws_tasks s) <= 1)%nat
  | UISpawned _ => (length (ws_tasks s) <= 2)%nat
  | UIAssigned n => forall k, k ∈ ws_tasks s -> k = n
  end.

(** ** Properties *)

Lemma winv_init : winv init.
Proof.
  split; [constructor|split; [intros k Hk; inversion Hk|simpl; lia]].
Qed.

Lemma trigger_winv cur s s' : winv s -> trigger cur s = Some s' -> winv s'.
Proof.
  intros (Hnd & Hk & Hpc) Ht. unfold trigger in Ht.
  destruct (ws_pc s) eqn:Epc; try discriminate.
  destruct cur as [sym|]; injection Ht as <-.
  - split; [|split]; simpl.
    + apply NoDup_app. split; [exact Hnd|split; [|apply NoDup_singleton]].
      intros k Hin ->%list_elem_of_singleton. destruct (Hk _ Hin). lia.
    + intros k [Hin| ->%list_elem_of_singleton]%elem_of_app.
      * destruct (Hk _ Hin) as [Hlt [sym' Hf]]. split; [lia|]. exists sym'.
        rewrite lookup_insert_ne by lia. rewrite Hf, (bool_decide_eq_false_2 (owner UIIdle = _)) by discriminate.
        rewrite bool_decide_eq_false_2 by (intros [= ?]; lia). reflexivity.
      * split; [lia|]. exists sym. rewrite lookup_insert_eq, bool_decide_eq_true_2 by reflexivity.
        reflexivity.
    + rewrite length_app. simpl. lia.
  - split; [|split]; simpl; rewrite ?Epc in *; [exact Hnd| |exact Hpc].
    intros k Hin. destruct (Hk _ Hin) as [Hlt [sym' Hf]]. split; [lia|]. exists sym'.
    rewrite !lookup_insert_ne by lia. exact Hf.
Qed.

Lemma assign_winv s s' : winv s -> assign s = Some s' -> winv s'.
Proof.
  intros (Hnd & Hk & Hpc) Ha. unfold assign in Ha.
  destruct (ws_pc s) eqn:Epc; try discriminate.
  destruct (forallb _ _) eqn:Eall; [|discriminate]. injection Ha as <-.
  rewrite forallb_forall in Eall. split; [exact Hnd|split]; simpl.
  - exact Hk.
  - intros k Hin. apply Nat.eqb_eq, Eall, list_elem_of_In, Hin.
Qed.

Lemma ret_winv s s' : winv s -> ret s = Some s' -> winv s'.
Proof.
  intros (Hnd & Hk & Hpc) Hr. unfold ret in Hr.
  destruct (ws_pc s) eqn:Epc; try discriminate. injection Hr as <-.
  split; [exact Hnd|split]; simpl.
  - intros k Hin. destruct (Hk _ Hin) as [Hlt [sym Hf]]. split; [exact Hlt|]. exists sym.
    rewrite (Hpc k Hin) in *. rewrite lookup_alter_eq, Hf. reflexivity.
  - exact (NoDup_const_length _ _ Hnd Hpc).
Qed.

Lemma run_winv k s s' : winv s -> run k s = Some s' -> winv s'.
Proof.
  intros (Hnd & Hk & Hpc) Hr. unfold run in Hr. case_decide; [|discriminate]. injection Hr as <-.
  split; [apply NoDup_filter, Hnd|split]; simpl.
  - intros j [_ Hin]%list_elem_of_filter. apply Hk, Hin.
  - pose proof (length_filter (fun j => j ≠ k) (ws_tasks s)).
    destruct (ws_pc s); [lia|lia|]. intros j [_ Hin]%list_elem_of_filter. apply Hpc, Hin.
Qed.

Lemma wstep_winv s s' : winv s -> wstep s s' -> winv s'.
Proof.
  intros Hinv Hs. destruct Hs as [cur ?? H|?? H|?? H|k ?? H];
    [exact (trigger_winv _ _ _ Hinv H)|exact (assign_winv _ _ Hinv H)
    |exact (ret_winv _ _ Hinv H)|exact (run_winv _ _ _ Hinv H)].
Qed.

Lemma rtc_winv s s' : winv s -> rtc wstep s s' -> winv s'.
Proof. intros Hinv Hr. induction Hr; eauto using wstep_winv. Qed.

Lemma reachable_winv s : reachable s -> winv s.
Proof. apply rtc_winv, winv_init. Qed.

Lemma wop_wstep o s s' : wop o s = Some s' -> wstep s s'.
Proof. destruct o; simpl; eauto using wstep. Qed.

Lemma schedule_rtc os s s' : schedule os s = Some s' -> rtc wstep s s'.
Proof.
  revert s. induction os as [|o os IH]; simpl; intros s Hs; [injection Hs as ->; reflexivity|].
  apply bind_Some in Hs as (s1 & H1 & H2). eapply rtc_l; [apply (wop_wstep o), H1|apply IH, H2].
Qed.



(** C32: at most two Create Function tasks are ever pending, and at most
    one while the UI thread is outside the action: the release of the old
    [m_worker] future waits for its task. *)
Theorem worker_tasks_bounded s :
  reachable s ->
  (length (ws_tasks s) <= 2)%nat /\ (ws_pc s = UIIdle -> (length (ws_tasks s) <= 1)%nat).
Proof.
  intros Hr. destruct (reachable_winv s Hr) as (Hnd & _ & Hpc).
  destruct (ws_pc s); [lia|split; [lia|discriminate]|].
  pose proof (NoDup_const_length _ _ Hnd Hpc). split; [lia|discriminate].
Qed.

(** C33: a pending task that runs calls [RDDisassembler_CreateFunction]
    with a defined address exactly when the UI thread is still inside the
    invocation that started it; once the lambda has returned, the task
    reads the ended frame of [symbol]. *)
Theorem task_reads_live_frame s s' k :
  reachable s -> run k s = Some s' ->
  exists a, ws_events s' = ws_events s ++ [CreateFunctionCall a] /\
            (is_Some a <-> owner (ws_pc s) = Some k).
Proof.
  intros Hr Hrun. destruct (reachable_winv s Hr) as (_ & Hk & _).
  unfold run in Hrun. case_decide as Hin; [|discriminate]. injection Hrun as <-.
  eexists. split; [reflexivity|]. destruct (Hk k Hin) as [_ [sym Hf]].
  unfold read_address. rewrite Hf. case_bool_decide as Ho; simpl.
  - split; [intros _; exact Ho|intros _; eauto].
  - split; [intros [? Hs]; discriminate|intros Ho'; contradiction].
Qed.



(** ** Sample schedules *)

Module WorkerSamples.

Definition sym0 : RDSymbol := mkRDSymbol 4096 SymbolType_Label SymbolFlags.Weak.

(** Trigger, store, return, then trigger again: the first task is still
    pending when the second starts. *)
Definition two_pending_ops : list WOp :=
  [OpTrigger (Some sym0); OpAssign; OpRet; OpTrigger (Some sym0)].

Definition state_of (os : list WOp) : WState :=
  match schedule os init with Some s => s | None => init end.

Definition two_pending : WState := state_of two_pending_ops.
Definition first_ran : WState := state_of (two_pending_ops ++ [OpRun 0]).

End WorkerSamples.

Import WorkerSamples.

Lemma worker_tasks_bounded_witness :
  (length (ws_tasks two_pending) <= 2)%nat /\ (ws_pc two_pending = UIIdle -> (length (ws_tasks two_pending) <= 1)%nat).
Proof. apply worker_tasks_bounded, (schedule_rtc two_pending_ops). vm_compute. reflexivity. Defined.

Lemma task_reads_live_frame_witness :
  exists a, ws_events first_ran = ws_events two_pending ++ [CreateFunctionCall a] /\
            (is_Some a <-> owner (ws_pc two_pending) = Some 0%nat).
Proof.
  apply (task_reads_live_frame two_pending first_ran 0).
  - apply (schedule_rtc two_pending_ops). vm_compute. reflexivity.
  - vm_compute. reflexivity.
Defined.

