(* ===== verification/Docks.v ===== *)
(** * Docking and the output dock of [DisassemblerHooks]

    [dock(w, area)] (src/hooks/disassemblerhooks.cpp, lines 556-569)
    adds a widget to the main window's dock area, wrapping it in a new
    [QDockWidget] when [dynamic_cast<QDockWidget*>] fails; [undock(dw)]
    (135-139) removes a dock widget and [deleteLater]s it;
    [outputDock()] (571) looks the [OutputDock] up among the main
    window's direct children; [log] and [clearLog] (45-46) call it
    without a null check, [clearOutput] (605-609) with one.

    [Docks] holds the live objects the hooks create with their class and
    window title, the main window's children in [QObject::children()]
    order, the [QDockWidget::widget()] of each dock, the dock layout, the
    deferred deletions and the calls made on an [OutputDock].  The
    [OutputDock] class is declared outside src/; whether it derives from
    [QDockWidget] is the parameter [outputdock_is_dockwidget] of
    [Section Docking]. *)

From S2P Require Import Prelude.

Inductive DockWidgetArea :=
  | LeftDockWidgetArea | RightDockWidgetArea | TopDockWidgetArea | BottomDockWidgetArea.

#[export] Instance DockWidgetArea_eq_dec : EqDecision DockWidgetArea.
Proof. solve_decision. Defined.

(** The dynamic class of a widget, as [dynamic_cast] and [findChild] see
    it. *)
Inductive WidgetClass := OutputDockClass | DockWidgetClass | PlainWidgetClass.

#[export] Instance WidgetClass_eq_dec : EqDecision WidgetClass.
Proof. solve_decision. Defined.

Record QWidgetInfo := mkQWidgetInfo { qw_class : WidgetClass; qw_title : string }.

(** The calls the hooks make on the [OutputDock] they find. *)
Inductive OutputCall := OutputLog (dock : nat) (s : string) | OutputClear (dock : nat).

Record Docks := mkDocks {
  dk_objects : gmap nat QWidgetInfo;          (* live widgets *)
  dk_children : list nat;                     (* m_mainwindow->children() *)
  dk_widget : gmap nat nat;                   (* QDockWidget::widget() *)
  dk_layout : list (nat * DockWidgetArea);    (* addDockWidget / removeDockWidget *)
  dk_deferred : list nat;                     (* deleteLater() posted *)
  dk_next : nat;                              (* fresh object numbers *)
  dk_calls : list OutputCall
}.

(** A null [OutputDock*] dereferenced, or a widget used after its
    deletion. *)
Inductive DockError := NullOutputDock | DanglingWidget.

(** ** Qt's side *)

(** [new C(m_mainwindow)]: a fresh child appended to the main window's
    children. *)
Definition new_child (c : WidgetClass) (title : string) (d : Docks) : nat * Docks :=
  let n := dk_next d in
  (n, mkDocks (<[n := mkQWidgetInfo c title]> (dk_objects d)) (dk_children d ++ [n])
        (dk_widget d) (dk_layout d) (dk_deferred d) (S n) (dk_calls d)).

(** [w->setParent(dw); ...; dw->setWidget(w)]: [w] leaves the main
    window's children and becomes the dock's widget. *)
Definition wrap (w dw : nat) (d : Docks) : Docks :=
  mkDocks (dk_objects d) (filter (fun c => c ≠ w) (dk_children d)) (<[dw := w]> (dk_widget d))
    (dk_layout d) (dk_deferred d) (dk_next d) (dk_calls d).

(** [dw->setWindowTitle(t)]. *)
Definition set_title (dw : nat) (t : string) (d : Docks) : Docks :=
  mkDocks (alter (fun i => mkQWidgetInfo (qw_class i) t) dw (dk_objects d)) (dk_children d)
    (dk_widget d) (dk_layout d) (dk_deferred d) (dk_next d) (dk_calls d).

(** [QMainWindow::addDockWidget(area, dw)]: the layout reparents [dw] to
    the main window and (re)places it in [area]. *)
Definition addDockWidget (area : DockWidgetArea) (dw : nat) (d : Docks) : Docks :=
  mkDocks (dk_objects d)
    (if decide (dw ∈ dk_children d) then dk_children d else dk_children d ++ [dw])
    (dk_widget d) (filter (fun e => e.1 ≠ dw) (dk_layout d) ++ [(dw, area)])
    (dk_deferred d) (dk_next d) (dk_calls d).

(** [QMainWindow::removeDockWidget(dw)]: out of the layout, still a
    child. *)
Definition removeDockWidget (dw : nat) (d : Docks) : Docks :=
  mkDocks (dk_objects d) (dk_children d) (dk_widget d) (filter (fun e => e.1 ≠ dw) (dk_layout d))
    (dk_deferred d) (dk_next d) (dk_calls d).

Definition dk_deleteLater (w : nat) (d : Docks) : Docks :=
  mkDocks (dk_objects d) (dk_children d) (dk_widget d) (dk_layout d) (dk_deferred d ++ [w])
    (dk_next d) (dk_calls d).

(** An object's destructor: it leaves every structure, and its pending
    deletions are dropped. *)
Definition destroy (w : nat) (d : Docks) : Docks :=
  mkDocks (delete w (dk_objects d)) (filter (fun c => c ≠ w) (dk_children d))
    (delete w (dk_widget d)) (filter (fun e => e.1 ≠ w) (dk_layout d))
    (filter (fun c => c ≠ w) (dk_deferred d)) (dk_next d) (dk_calls d).

(** One delivery of a deferred deletion: a dock widget's destructor
    deletes its child widget first. *)
Definition deliver_dock (d : Docks) : Docks :=
  match dk_deferred d with
  | [] => d
  | w :: _ =>
      let d1 := match dk_widget d !! w with Some c => destroy c d | None => d end in
      destroy w d1
  end.

Fixpoint run_dock_events (fuel : nat) (d : Docks) : Docks :=
  match fuel with
  | O => d
  | S f => match dk_deferred d with [] => d | _ => run_dock_events f (deliver_dock d) end
  end.

Definition is_output_dock (d : Docks) (c : nat) : bool :=
  bool_decide (qw_class <$> dk_objects d !! c = Some OutputDockClass).

(** [outputDock()]: [findChild<OutputDock*>(QString(),
    Qt::FindDirectChildrenOnly)], the first direct child that is an
    [OutputDock]. *)
Definition outputDock (d : Docks) : option nat := List.find (is_output_dock d) (dk_children d).

Definition record_call (c : OutputCall) (d : Docks) : Docks :=
  mkDocks (dk_objects d) (dk_children d) (dk_widget d) (dk_layout d) (dk_deferred d)
    (dk_next d) (dk_calls d ++ [c]).

(** [log(s)]: [this->outputDock()->log(s)]. *)
Definition log (s : string) (d : Docks) : DockError + Docks :=
  match outputDock d with Some o => inr (record_call (OutputLog o s) d) | None => inl NullOutputDock end.

(** [clearLog()]: [this->outputDock()->clear()]. *)
Definition clearLog (d : Docks) : DockError + Docks :=
  match outputDock d with Some o => inr (record_call (OutputClear o) d) | None => inl NullOutputDock end.

(** [clearOutput()]: the same call behind [if(outputpart)]. *)
Definition clearOutput (d : Docks) : Docks :=
  match outputDock d with Some o => record_call (OutputClear o) d | None => d end.

(** [undock(dw)]. *)
Definition undock (dw : nat) (d : Docks) : DockError + Docks :=
  match dk_objects d !! dw with
  | Some _ => inr (dk_deleteLater dw (removeDockWidget dw d))
  | None => inl DanglingWidget
  end.

Section Docking.
Variable outputdock_is_dockwidget : bool.

(** [dynamic_cast<QDockWidget*>(w)] succeeds. *)
Definition is_dockwidget (c : WidgetClass) : bool :=
  match c with
  | OutputDockClass => outputdock_is_dockwidget
  | DockWidgetClass => true
  | PlainWidgetClass => false
  end.

(** [dock(w, area)]. *)
Definition dock (w : nat) (area : DockWidgetArea) (d : Docks) : DockError + Docks :=
  match dk_objects d !! w with
  | None => inl DanglingWidget
  | Some i =>
      if is_dockwidget (qw_class i) then inr (addDockWidget area w d)
      else let '(dw, d1) := new_child DockWidgetClass "" d in
           inr (addDockWidget area dw (set_title dw (qw_title i) (wrap w dw d1)))
  end.

(** [this->dock(new OutputDock(m_mainwindow), Qt::BottomDockWidgetArea)]
    in [hook()]; [title] is the title the [OutputDock] constructor
    gives. *)
Definition dock_output (title : string) (d : Docks) : DockError + Docks :=
  let '(o, d1) := new_child OutputDockClass title d in dock o BottomDockWidgetArea d1.

End Docking.

(** ** The dock invariant *)

Section DockInvariant.
Variable outputdock_is_dockwidget : bool.

(** The main window's children are live and listed once; every layout
    entry is a child of a dock-widget class, placed once; object numbers
    below [dk_next] are the only ones in use. *)
Record docks_wf (d : Docks) : Prop := {
  wf_live : ∀ c, c ∈ dk_children d → is_Some (dk_objects d !! c);
  wf_nodup : NoDup (dk_children d);
  wf_layout : ∀ e, e ∈ dk_layout d →
    e.1 ∈ dk_children d ∧ ∃ i, dk_objects d !! e.1 = Some i ∧ is_dockwidget outputdock_is_dockwidget (qw_class i) = true;
  wf_layout_nodup : NoDup (dk_layout d).*1;
  wf_fresh : ∀ k, is_Some (dk_objects d !! k) → (k < dk_next d)%nat
}.

(** [docks_wf] as a test. *)
Definition docks_wfb (d : Docks) : bool :=
  forallb (fun c => bool_decide (is_Some (dk_objects d !! c))) (dk_children d) &&
  bool_decide (NoDup (dk_children d)) &&
  forallb (fun e => bool_decide (e.1 ∈ dk_children d) &&
                    match dk_objects d !! e.1 with
                    | Some i => is_dockwidget outputdock_is_dockwidget (qw_class i)
                    | None => false
                    end) (dk_layout d) &&
  bool_decide (NoDup (dk_layout d).*1) &&
  bool_decide (map_Forall (fun k _ => (k < dk_next d)%nat) (dk_objects d)).

(** The operations a session performs on the docks: widgets created as
    children of the main window, [dock], [undock], event-loop deliveries,
    and the output calls. *)
Inductive dstep : Docks → Docks → Prop :=
  | ds_new c t d : dstep d (new_child c t d).2
  | ds_dock w a d d' : dock outputdock_is_dockwidget w a d = inr d' → dstep d d'
  | ds_undock w d d' : undock w d = inr d' → dstep d d'
  | ds_deliver d : dstep d (deliver_dock d)
  | ds_log s d d' : log s d = inr d' → dstep d d'
  | ds_clearLog d d' : clearLog d = inr d' → dstep d d'
  | ds_clearOutput d : dstep d (clearOutput d).

End DockInvariant.

(** ** Properties *)

Section DockProps.
Variable b : bool.

(** The operations that do not touch objects, children or the layout. *)
Lemma record_call_wf c d : docks_wf b d → docks_wf b (record_call c d).
Proof. intros []; constructor; simpl; auto. Qed.

Lemma deleteLater_wf w d : docks_wf b d → docks_wf b (dk_deleteLater w d).
Proof. intros []; constructor; simpl; auto. Qed.

Lemma removeDockWidget_wf dw d : docks_wf b d → docks_wf b (removeDockWidget dw d).
Proof.
  intros []; constructor; simpl; auto; [|apply NoDup_fst_filter; assumption].
  intros e [_ He]%list_elem_of_filter. auto.
Qed.

Lemma destroy_wf w d : docks_wf b d → docks_wf b (destroy w d).
Proof.
  intros [Hl Hn Hly Hlyn Hf]; constructor; simpl.
  - intros c [Hc Hin]%list_elem_of_filter. rewrite lookup_delete_ne by congruence. auto.
  - apply NoDup_filter. exact Hn.
  - intros e [He Hin]%list_elem_of_filter. destruct (Hly e Hin) as [Hc (i & Hi & Hdw)].
    split; [apply list_elem_of_filter; auto|]. exists i. rewrite lookup_delete_ne by congruence. auto.
  - apply NoDup_fst_filter. exact Hlyn.
  - intros k Hk. apply Hf. rewrite lookup_delete_is_Some in Hk. tauto.
Qed.

(** A fresh number is no child. *)
Lemma fresh_not_child d : docks_wf b d → dk_next d ∉ dk_children d.
Proof. intros [Hl _ _ _ Hf] Hin. pose proof (Hf _ (Hl _ Hin)). lia. Qed.

Lemma new_child_wf c t d : docks_wf b d → docks_wf b (new_child c t d).2.
Proof.
  intros Hwf. pose proof (fresh_not_child d Hwf) as Hfr.
  destruct Hwf as [Hl Hn Hly Hlyn Hf]; constructor; simpl.
  - intros k [Hk| ->%list_elem_of_singleton]%elem_of_app; rewrite lookup_insert_is_Some'; auto.
  - apply NoDup_app. split_and!; [exact Hn| |apply NoDup_singleton].
    intros k Hk ->%list_elem_of_singleton. contradiction.
  - intros e He. destruct (Hly e He) as [Hc (i & Hi & Hdw)].
    split; [set_solver|]. exists i. rewrite lookup_insert_ne; [auto|]. intros Heq. apply Hfr. rewrite Heq. exact Hc.
  - exact Hlyn.
  - intros k [->|[_ Hk]]%lookup_insert_is_Some; [lia|]. pose proof (Hf k Hk). lia.
Qed.

Lemma set_title_wf dw t d : docks_wf b d → docks_wf b (set_title dw t d).
Proof.
  intros [Hl Hn Hly Hlyn Hf]; constructor; simpl.
  - intros k Hk. rewrite lookup_alter_is_Some. auto.
  - exact Hn.
  - intros [k a] He. destruct (Hly _ He) as [Hc (i & Hi & Hdw)]. simpl in *. split; [exact Hc|].
    destruct (decide (dw = k)) as [<-|Hne].
    + rewrite lookup_alter_eq, Hi. eexists; split; [reflexivity|exact Hdw].
    + rewrite lookup_alter_ne by exact Hne. eauto.
  - exact Hlyn.
  - intros k Hk. apply Hf. rewrite lookup_alter_is_Some in Hk. exact Hk.
Qed.

(** Wrapping a widget that is no dock widget: it cannot be in the
    layout, so leaving the children keeps the layout inside them. *)
Lemma wrap_wf w dw d :
  docks_wf b d → (∀ i, dk_objects d !! w = Some i → is_dockwidget b (qw_class i) = false) →
  docks_wf b (wrap w dw d).
Proof.
  intros [Hl Hn Hly Hlyn Hf] Hw; constructor; simpl; auto.
  - intros c [_ Hc]%list_elem_of_filter. auto.
  - apply NoDup_filter. exact Hn.
  - intros e He. destruct (Hly e He) as [Hc (i & Hi & Hdw)]. split; [|eauto].
    apply list_elem_of_filter. split; [|exact Hc]. intros Heq. rewrite Heq in Hi.
    rewrite (Hw i Hi) in Hdw. discriminate.
Qed.

Lemma addDockWidget_wf area dw d :
  docks_wf b d → (∃ i, dk_objects d !! dw = Some i ∧ is_dockwidget b (qw_class i) = true) →
  docks_wf b (addDockWidget area dw d).
Proof.
  intros [Hl Hn Hly Hlyn Hf] Hdw; constructor; simpl; auto.
  - intros c Hc. case_decide; [auto|].
    apply elem_of_app in Hc as [Hc| ->%list_elem_of_singleton]; [auto|].
    destruct Hdw as (i & Hi & _). rewrite Hi. eauto.
  - case_decide; [exact Hn|]. apply NoDup_app. split_and!; [exact Hn| |apply NoDup_singleton].
    intros k Hk ->%list_elem_of_singleton. contradiction.
  - intros e [[He Hin]%list_elem_of_filter| ->%list_elem_of_singleton]%elem_of_app.
    + destruct (Hly e Hin) as [Hc Hi]. split; [case_decide; set_solver|exact Hi].
    + split; [simpl; case_decide; set_solver|exact Hdw].
  - rewrite fmap_app. apply NoDup_app. split_and!; [apply NoDup_fst_filter; exact Hlyn| |apply NoDup_singleton].
    simpl. intros k Hk ->%list_elem_of_singleton. apply list_elem_of_fmap in Hk as (e & -> & [He _]%list_elem_of_filter).
    exact (He eq_refl).
Qed.

#[local] Hint Resolve record_call_wf deleteLater_wf removeDockWidget_wf destroy_wf
  new_child_wf set_title_wf : redasm.

Lemma dock_wf w area d d' : docks_wf b d → dock b w area d = inr d' → docks_wf b d'.
Proof.
  intros Hwf. unfold dock. destruct (dk_objects d !! w) as [i|] eqn:Hi; [|discriminate].
  destruct (is_dockwidget b (qw_class i)) eqn:Hdw; intros [= <-].
  - apply addDockWidget_wf; eauto.
  - apply addDockWidget_wf.
    + apply set_title_wf, wrap_wf; [apply new_child_wf, Hwf|].
      simpl. intros i'. rewrite lookup_insert_ne; [intros Hi'; congruence|].
      intros Heq. pose proof (wf_fresh _ _ Hwf w ltac:(rewrite Hi; eauto)). lia.
    + simpl. rewrite lookup_alter_eq, lookup_insert_eq. eexists; split; reflexivity.
Qed.

Lemma undock_wf w d d' : docks_wf b d → undock w d = inr d' → docks_wf b d'.
Proof. unfold undock. intros Hwf. case_match; intros [= <-]; auto with redasm. Qed.

Lemma deliver_dock_wf d : docks_wf b d → docks_wf b (deliver_dock d).
Proof. intros Hwf. unfold deliver_dock. repeat case_match; auto with redasm. Qed.

Lemma log_wf s d d' : docks_wf b d → log s d = inr d' → docks_wf b d'.
Proof. unfold log. intros Hwf. case_match; intros [= <-]; auto with redasm. Qed.

Lemma clearLog_wf d d' : docks_wf b d → clearLog d = inr d' → docks_wf b d'.
Proof. unfold clearLog. intros Hwf. case_match; intros [= <-]; auto with redasm. Qed.

Lemma clearOutput_wf d : docks_wf b d → docks_wf b (clearOutput d).
Proof. unfold clearOutput. intros Hwf. case_match; auto with redasm. Qed.

Lemma dstep_wf d d' : dstep b d d' → docks_wf b d → docks_wf b d'.
Proof.
  destruct 1; intros Hwf;
    eauto using dock_wf, undock_wf, deliver_dock_wf, log_wf, clearLog_wf, clearOutput_wf, new_child_wf.
Qed.

End DockProps.

(** A delivery removes its object from the deferred deletions, so the
    dock event loop ends within as many deliveries as are pending. *)
Lemma deliver_dock_shrinks d :
  dk_deferred d ≠ [] -> (length (dk_deferred (deliver_dock d)) < length (dk_deferred d))%nat.
Proof.
  intros Hne. unfold deliver_dock. destruct (dk_deferred d) as [|w rest] eqn:E; [contradiction|].
  destruct (dk_widget d !! w) as [c|]; unfold destroy; cbn [dk_deferred]; rewrite ?E.
  - destruct (decide (c = w)) as [->|Hcw].
    + pose proof (length_filter (fun x => x ≠ w) (filter (fun x => x ≠ w) (w :: rest))).
      pose proof (length_filter_lt (fun x => x ≠ w) (w :: rest) w ltac:(set_solver) ltac:(intros Hw; apply Hw; reflexivity)). lia.
    + pose proof (length_filter (fun x => x ≠ c) (w :: rest)).
      pose proof (length_filter_lt (fun x => x ≠ w) (filter (fun x => x ≠ c) (w :: rest)) w
                    ltac:(apply list_elem_of_filter; split; [congruence|set_solver]) ltac:(intros Hw; apply Hw; reflexivity)). lia.
  - apply (length_filter_lt _ _ w); [set_solver|intros Hw; apply Hw; reflexivity].
Qed.

Lemma run_dock_events_drains fuel d :
  (length (dk_deferred d) <= fuel)%nat -> dk_deferred (run_dock_events fuel d) = [].
Proof.
  revert d. induction fuel as [|f IH]; intros d Hf; simpl.
  - destruct (dk_deferred d); [reflexivity|simpl in Hf; lia].
  - destruct (dk_deferred d) as [|w rest] eqn:E; [exact E|].
    apply IH. pose proof (deliver_dock_shrinks d ltac:(congruence)) as Hs. rewrite E in Hs. simpl in *. lia.
Qed.

Section DockTheorems.
Variable b : bool.

Lemma docks_wfb_sound d : docks_wfb b d = true → docks_wf b d.
Proof.
  unfold docks_wfb. rewrite !andb_true_iff, !forallb_forall, !bool_decide_eq_true.
  intros ((((Hl & Hn) & Hly) & Hlyn) & Hf). constructor; auto.
  - intros c Hc. apply (bool_decide_eq_true_1 _), Hl, list_elem_of_In, Hc.
  - intros e He. apply list_elem_of_In, Hly in He. apply andb_true_iff in He as [Hc Hi].
    apply bool_decide_eq_true_1 in Hc. split; [exact Hc|]. destruct (dk_objects d !! e.1); [eauto|discriminate].
  - intros k [i Hi]. exact (Hf k i Hi).
Qed.

(** The main window's children of an older state are neither of the two
    fresh numbers a [dock_output] hands out, so the [findChild] scan
    over them answers as before. *)
Lemma outputDock_fresh_ext d d' :
  docks_wf b d → (∀ k, (k < dk_next d)%nat → dk_objects d' !! k = dk_objects d !! k) →
  List.find (is_output_dock d') (dk_children d) = outputDock d.
Proof.
  intros Hwf Hm. apply find_ext_in. intros c Hc. unfold is_output_dock.
  rewrite Hm; [reflexivity|]. apply (wf_fresh _ _ Hwf), (wf_live _ _ Hwf), Hc.
Qed.

Lemma filter_fresh_children d :
  docks_wf b d → filter (fun c => c ≠ dk_next d) (dk_children d ++ [dk_next d]) = dk_children d.
Proof.
  intros Hwf. rewrite filter_app, filter_all, filter_cons_False, filter_nil, app_nil_r; [reflexivity|auto|].
  intros c Hc ->. exact (fresh_not_child _ _ Hwf Hc).
Qed.

(** C24: The output dock [hook()] docks is found by [outputDock()], and
    [log] writes to it, exactly when [OutputDock] is a [QDockWidget].
    Otherwise [dock] wraps it in a new [QDockWidget] and reparents it, so
    the [findChild] search over the main window's direct children misses
    it and every later [log] dereferences a null pointer. *)
Theorem output_dock_log title d s :
  docks_wf b d → outputDock d = None →
  ∃ d', dock_output b title d = inr d' ∧
    log s d' = if b then inr (record_call (OutputLog (dk_next d) s) d') else inl NullOutputDock.
Proof.
  intros Hwf Hnone. pose proof (fresh_not_child _ _ Hwf) as Hfr.
  pose proof (fun d' => outputDock_fresh_ext d d' Hwf) as Hext.
  pose proof (filter_fresh_children d Hwf) as Hff.
  unfold dock_output, dock, new_child. simpl. rewrite lookup_insert_eq. simpl.
  destruct b; simpl; eexists; split; try reflexivity; unfold log, outputDock, addDockWidget; simpl.
  - rewrite decide_True by set_solver. simpl.
    rewrite find_app, Hext, Hnone.
    + simpl. unfold is_output_dock. simpl. rewrite lookup_insert_eq. reflexivity.
    + intros k Hk. simpl. rewrite lookup_insert_ne by lia. reflexivity.
  - rewrite filter_app, Hff.
    rewrite filter_cons_True, filter_nil by lia.
    rewrite decide_True by set_solver. simpl.
    rewrite find_app, Hext, Hnone.
    + simpl. unfold is_output_dock. simpl. rewrite lookup_alter_eq, lookup_insert_eq. reflexivity.
    + intros k Hk. simpl. rewrite lookup_alter_ne, !lookup_insert_ne by lia. reflexivity.
Qed.

(** C31: Docking, undocking, the event loop's deletions and the output
    calls keep the dock invariant: the main window's children are live
    and listed once, every docked widget is a listed child of a
    dock-widget class with one layout slot, and fresh object numbers are
    unused. *)
Theorem docks_reachable_wf d d' : docks_wf b d → rtc (dstep b) d d' → docks_wf b d'.
Proof.
  intros Hwf Hr. revert Hwf. induction Hr as [|x y z Hs _ IH]; intros Hwf; [exact Hwf|].
  apply IH, (dstep_wf _ _ _ Hs), Hwf.
Qed.

End DockTheorems.

Module DockSamples.

Definition docks0 : Docks := mkDocks ∅ [] ∅ [] [] 0 [].

(** [hook()]'s [dock(new OutputDock(m_mainwindow), ...)] with an
    [OutputDock] that derives from [QDockWidget]. *)
Definition docked : Docks :=
  match dock true 0 BottomDockWidgetArea (new_child OutputDockClass "Output" docks0).2 with
  | inr d => d
  | inl _ => docks0
  end.

End DockSamples.

Import DockSamples.

Lemma output_dock_log_witness :
  ∃ d', dock_output true "Output" docks0 = inr d' ∧
    log "loaded" d' = inr (record_call (OutputLog 0 "loaded") d').
Proof.
  apply (output_dock_log true "Output" docks0 "loaded");
    [apply docks_wfb_sound; vm_compute; reflexivity|reflexivity].
Defined.

Lemma docks_reachable_wf_witness : docks_wf true docked.
Proof.
  apply (docks_reachable_wf true docks0 docked); [apply docks_wfb_sound; vm_compute; reflexivity|].
  eapply rtc_l; [apply (ds_new true OutputDockClass "Output")|].
  eapply rtc_l; [apply (ds_dock true 0 BottomDockWidgetArea); vm_compute; reflexivity|].
  apply rtc_refl.
Defined.

(** Undocking the output dock and returning to the event loop leaves
    [log] with a null [OutputDock], while [clearOutput] does nothing. *)
Example undocked_output_log :
  match undock 0 docked with
  | inr d => log "x" (run_dock_events 1 d) = inl NullOutputDock ∧
             clearOutput (run_dock_events 1 d) = run_dock_events 1 d
  | inl _ => False
  end.
Proof. split; vm_compute; reflexivity. Qed.

