(* ===== verification/Lifecycle.v ===== *)
(** * The hooks' view lifecycle: central widget, deferred deletion, commands

    [DisassemblerHooks] (src/hooks/disassemblerhooks.cpp) swaps the main
    window's central widget between the welcome page and a
    [DisassemblerView].  [replaceWidget] (lines 589-603) does not swap at
    once when a central widget exists: it connects the old widget's
    [destroyed] signal to [setCentralWidget(w)] and calls
    [oldw->deleteLater()], so the swap happens when the event loop
    delivers the deferred deletion.  [Pages] models the main window's
    central widget, those connections, the deferred-deletion queue and
    the deleted objects; [deliver] is one delivery of the event loop, as
    Qt performs it: the object is destroyed, its pending deletions are
    dropped, its [destroyed] connections run in connection order, and
    [QMainWindow::setCentralWidget] hides and [deleteLater]s a previous
    central widget other than the new one.  [run_events] is the event loop
    with fuel.

    The commands part ([HState], the [HM] state-and-error monad) models
    the hooks' own handlers: [close] (579-587), [loadDisassemblerView]
    (321-327), [showWelcome] (388), [hook] (329-355), [showLoaders]
    (357-386), [enableMenu] (611-618), [enableViewCommands] (625-637),
    [checkListingMode] (573-577), [activeCommandTab] (126-130),
    [showDeveloperTools] (110-115), [showProblems] (123),
    [updateCommandStates] (711-720), the renderer button (344-348), and
    the context-menu actions Rename, Comment, Cross References, Follow,
    Hex Dump Function (395-469) with [showReferences] (85-102); the
    small handlers [initialize], [open], [close()], [focusOn],
    [showGoto], [showDatabase], [settings], [about], [exit],
    [showMessage], the empty [save], [saveAs] and [resetLayout]; the
    toolbar and window-menu slots with the view dereferences the pure
    deciders of [Hooks] leave out; and [dispatch], the signals [hook()]
    connects.  The docks of [Docks] are part of [HState]: [hook] docks
    the output dock, [showLoaders] calls [clearOutput], [undockH] and
    [eventLoop] remove docks.  [DevDialog] is the record of the members
    src/dialogs/devdialog/devdialog.h declares.  A null pointer
    dereference, a [QList] index out of range, a null [OutputDock] or an
    uninitialised read is an [HError]. *)

From S2P Require Import Prelude.
From S2P Require Import Hooks.
From S2P Require Import Docks.

(** ** Pages and the event loop *)

Inductive Page := WelcomePage (n : nat) | ViewPage (n : nat).

#[export] Instance Page_eq_dec : EqDecision Page.
Proof. solve_decision. Defined.

Record Pages := mkPages {
  pg_central : option Page;          (* m_mainwindow->centralWidget() *)
  pg_conns : list (Page * Page);     (* oldw.destroyed -> setCentralWidget(w), in order *)
  pg_deferred : list Page;           (* posted DeferredDelete events, in order *)
  pg_deleted : list Page             (* objects destroyed so far *)
}.

(** [QMainWindow::setCentralWidget(w)]. *)
Definition setCentralWidget (w : Page) (p : Pages) : Pages :=
  match pg_central p with
  | Some c => if decide (c = w) then p
              else mkPages (Some w) (pg_conns p) (pg_deferred p ++ [c]) (pg_deleted p)
  | None => mkPages (Some w) (pg_conns p) (pg_deferred p) (pg_deleted p)
  end.

(** [DisassemblerHooks::replaceWidget(w)]. *)
Definition replaceWidget (w : Page) (p : Pages) : Pages :=
  match pg_central p with
  | Some oldw => mkPages (Some oldw) (pg_conns p ++ [(oldw, w)]) (pg_deferred p ++ [oldw]) (pg_deleted p)
  | None => setCentralWidget w p
  end.

(** [QObject::deleteLater()]. *)
Definition deleteLater (w : Page) (p : Pages) : Pages :=
  mkPages (pg_central p) (pg_conns p) (pg_deferred p ++ [w]) (pg_deleted p).

(** The event loop delivers the first deferred deletion. *)
Definition deliver (p : Pages) : Pages :=
  match pg_deferred p with
  | [] => p
  | w :: rest =>
      let fired := filter (fun c => c.1 = w) (pg_conns p) in
      let p1 := mkPages (if decide (pg_central p = Some w) then None else pg_central p)
                  (filter (fun c => c.1 ≠ w) (pg_conns p)) (filter (fun x => x ≠ w) rest)
                  (pg_deleted p ++ [w]) in
      foldl (fun q c => setCentralWidget c.2 q) p1 fired
  end.

Fixpoint run_events (fuel : nat) (p : Pages) : Pages :=
  match fuel with
  | O => p
  | S f => match pg_deferred p with [] => p | _ => run_events f (deliver p) end
  end.

(** Every delivery removes at least one deferred deletion and the
    connections it fires, and each fired connection adds at most one. *)
Definition pages_measure (p : Pages) : nat := length (pg_deferred p) + 2 * length (pg_conns p).

(** ** The hooks' state *)

(** A command tab of a view: its listing, or another tab. *)
Inductive Tab := ListingTab (view : nat) | OtherTab (view k : nat).

#[export] Instance Tab_eq_dec : EqDecision Tab.
Proof. solve_decision. Defined.

Definition tab_view (t : Tab) : nat := match t with ListingTab v | OtherTab v _ => v end.

(** The widgets the hooks reach besides the toolbar ([Shell]). *)
Record UI := mkUI {
  ui_shell : Shell;
  ui_window_actions_enabled : bool;   (* every action of m_mnuwindow *)
  ui_window_menu_visible : bool;      (* m_mnuwindow->menuAction() *)
  ui_window_menu_enabled : bool;
  ui_saveas_enabled : bool;           (* HOOK_ACTION_SAVE_AS *)
  ui_close_enabled : bool;            (* HOOK_ACTION_CLOSE *)
  ui_renderer_text : string           (* m_pbrenderer *)
}.

(** The [ICommand] calls of the context menu's Back, Forward, Copy and
    Create Function actions. *)
Inductive CommandCall := CallGoBack | CallGoForward | CallCopy | CallCreateFunction (addr : Z).

Inductive HEvent :=
  | EvDevDialog (t : Tab)
  | EvProblemsDialog (view : nat)
  | EvGotoDialog
  | EvReferencesDialog (addr : Z)
  | EvNoReferencesBox (name : string)
  | EvRename (addr : Z) (name : string)
  | EvComment (addr : Z) (text : string)
  | EvGoToAddress (addr : Z)
  | EvLog (s : string)
  | EvFreeBuffer
  | EvLoad (e : LoadEvent)                    (* this->load(s) *)
  | EvFocusOn (t : Tab)                       (* m_disassemblerview->focusOn(w) *)
  | EvToolbar (t : Tab) (c : ToolbarCommand)  (* goBack, goForward, toggleFilter *)
  | EvWindow (view : nat) (c : WindowCommand) (* m_disassemblerview->showSegments() ... *)
  | EvDatabaseDialog
  | EvSettingsDialog
  | EvAboutDialog
  | EvMessageBox (title msg : string) (icon : nat)
  | EvExit                                    (* qApp->exit() *)
  | EvCommand (c : CommandCall).

(** A null pointer dereferenced, [QList::operator[]] out of range, or an
    uninitialised local read. *)
Inductive HError := NullView | NullActiveTab | ListIndex | DockFault (e : DockError) | UninitRead.

(** [DevDialog] (src/dialogs/devdialog/devdialog.h): the members the
    header declares, each initialised to [nullptr]; the constructor's
    and [setCommand]'s bodies are outside src/. *)
Record DevDialog := mkDevDialog {
  dd_rdilmodel : option nat;          (* RDILModel* m_rdilmodel *)
  dd_blocklistmodel : option nat;     (* BlockListModel* m_blocklistmodel *)
  dd_command : option Tab             (* IDisassemblerCommand* m_command *)
}.

Definition DevDialog_new : DevDialog := mkDevDialog None None None.

Record HState := mkHState {
  hs_pages : Pages;
  hs_view : option nat;               (* m_disassemblerview *)
  hs_active : option Tab;             (* m_activecommandtab *)
  hs_rdil : gmap nat bool;            (* ContextFlags_ShowRDIL of each view's context *)
  hs_devdialog : option DevDialog;    (* m_devdialog *)
  hs_ui : UI;
  hs_next : nat;                      (* fresh object numbers *)
  hs_log : list HEvent;
  hs_docks : Docks                    (* the main window's docks *)
}.

(** What the handlers read from rdapi and from the user. *)
Record HEnv := mkHEnv {
  he_window_in_menubar : bool;                      (* m_mnuwindow's parent is a QMenuBar *)
  he_symbol_at : Z -> option RDSymbol;              (* RDDocument_GetSymbolByAddress *)
  he_symbol_name : Z -> option string;              (* RDDocument_GetSymbolName *)
  he_has_references : Z -> bool;                    (* RDNet_GetReferences != 0 *)
  he_function_hexdump : Z -> option (string * RDSymbol); (* RDDisassembler_FunctionHexDump *)
  he_goto : Z -> bool;                              (* command->goToAddress *)
  he_outputdock_is_dockwidget : bool;               (* OutputDock derives from QDockWidget *)
  he_outputdock_title : string                      (* OutputDock's window title *)
}.

(** ** The handlers' monad *)

Definition HM (A : Type) : Type := HState -> HError + (A * HState).

#[export] Instance HM_ret : MRet HM := fun A x s => inr (x, s).
#[export] Instance HM_bind : MBind HM :=
  fun A B k m s => match m s with inl e => inl e | inr (x, s') => k x s' end.

Definition hfail {A} (e : HError) : HM A := fun _ => inl e.
Definition hget : HM HState := fun s => inr (s, s).
Definition hmodify (f : HState -> HState) : HM unit := fun s => inr (tt, f s).

Definition set_pages (f : Pages -> Pages) (s : HState) : HState :=
  mkHState (f (hs_pages s)) (hs_view s) (hs_active s) (hs_rdil s) (hs_devdialog s) (hs_ui s) (hs_next s) (hs_log s) (hs_docks s).
Definition set_view (v : option nat) (s : HState) : HState :=
  mkHState (hs_pages s) v (hs_active s) (hs_rdil s) (hs_devdialog s) (hs_ui s) (hs_next s) (hs_log s) (hs_docks s).
Definition set_active (t : option Tab) (s : HState) : HState :=
  mkHState (hs_pages s) (hs_view s) t (hs_rdil s) (hs_devdialog s) (hs_ui s) (hs_next s) (hs_log s) (hs_docks s).
Definition set_rdil (f : gmap nat bool -> gmap nat bool) (s : HState) : HState :=
  mkHState (hs_pages s) (hs_view s) (hs_active s) (f (hs_rdil s)) (hs_devdialog s) (hs_ui s) (hs_next s) (hs_log s) (hs_docks s).
Definition set_devdialog (s : HState) : HState :=
  mkHState (hs_pages s) (hs_view s) (hs_active s) (hs_rdil s)
    (Some (default DevDialog_new (hs_devdialog s))) (hs_ui s) (hs_next s) (hs_log s) (hs_docks s).
Definition set_ui (f : UI -> UI) (s : HState) : HState :=
  mkHState (hs_pages s) (hs_view s) (hs_active s) (hs_rdil s) (hs_devdialog s) (f (hs_ui s)) (hs_next s) (hs_log s) (hs_docks s).
Definition set_docks (d : Docks) (s : HState) : HState :=
  mkHState (hs_pages s) (hs_view s) (hs_active s) (hs_rdil s) (hs_devdialog s) (hs_ui s) (hs_next s) (hs_log s) d.
Definition emit (e : HEvent) : HM unit :=
  hmodify (fun s => mkHState (hs_pages s) (hs_view s) (hs_active s) (hs_rdil s) (hs_devdialog s)
                      (hs_ui s) (hs_next s) (hs_log s ++ [e]) (hs_docks s)).

(** [new ...]: a fresh object number. *)
Definition fresh : HM nat :=
  fun s => inr (hs_next s, mkHState (hs_pages s) (hs_view s) (hs_active s) (hs_rdil s)
                              (hs_devdialog s) (hs_ui s) (S (hs_next s)) (hs_log s) (hs_docks s)).

Definition lift_opt {A} (e : HError) (o : option A) : HM A :=
  match o with Some x => mret x | None => hfail e end.

(** A call on the docks that may dereference null. *)
Definition on_docks (f : Docks -> DockError + Docks) : HM unit :=
  fun s => match f (hs_docks s) with inl e => inl (DockFault e) | inr d => inr (tt, set_docks d s) end.

(** ** Handlers *)

Section Handlers.
Variable env : HEnv.

Definition ui_with_shell (sh : Shell) (u : UI) : UI :=
  mkUI sh (ui_window_actions_enabled u) (ui_window_menu_visible u) (ui_window_menu_enabled u)
    (ui_saveas_enabled u) (ui_close_enabled u) (ui_renderer_text u).

(** [enableMenu(m_mnuwindow, enable)]. *)
Definition enableMenu (enable : bool) (u : UI) : UI :=
  mkUI (ui_shell u) enable (if he_window_in_menubar env then enable else ui_window_menu_visible u)
    enable (ui_saveas_enabled u) (ui_close_enabled u) (ui_renderer_text u).

(** [enableViewCommands(enable)]: the window menu, toolbar action 1,
    Save As and Close. *)
Definition enableViewCommands (enable : bool) : HM unit :=
  s ← hget;
  let u := enableMenu enable (hs_ui s) in
  en ← lift_opt ListIndex (list_set 1 enable (tb_enabled (ui_shell u)));
  hmodify (set_ui (fun _ => mkUI (with_toolbar (tb_visible (ui_shell u)) en (ui_shell u))
                               (ui_window_actions_enabled u) (ui_window_menu_visible u)
                               (ui_window_menu_enabled u) enable enable (ui_renderer_text u))).

(** [activeCommandTab()]: a const method that still assigns
    [m_activecommandtab], through [m_disassemblerview->showListing()]. *)
Definition activeCommandTab : HM Tab :=
  s ← hget;
  match hs_active s with
  | Some t => mret t
  | None =>
      v ← lift_opt NullView (hs_view s);
      hmodify (set_active (Some (ListingTab v)));; mret (ListingTab v)
  end.

(** [activeContext()]: the context of the active tab's view. *)
Definition activeContext : HM nat := t ← activeCommandTab; mret (tab_view t).

Definition rdil_of (v : nat) (s : HState) : bool := default false (hs_rdil s !! v).

(** [checkListingMode()]. *)
Definition checkListingMode : HM unit :=
  v ← activeContext; s ← hget;
  let txt := if rdil_of v s then "RDIL" else "Listing" in
  hmodify (set_ui (fun u => mkUI (ui_shell u) (ui_window_actions_enabled u) (ui_window_menu_visible u)
                              (ui_window_menu_enabled u) (ui_saveas_enabled u) (ui_close_enabled u) txt)).

(** The renderer button: toggle [ContextFlags_ShowRDIL], then recheck. *)
Definition rendererClicked : HM unit :=
  v ← activeContext; s ← hget;
  hmodify (set_rdil (<[v := negb (rdil_of v s)]>));; checkListingMode.

(** [enableCommands(w)] with the [checkListingMode()] call the code
    makes for a non-null widget before setting the toolbar. *)
Definition enableCommandsH (w : option (bool * bool)) : HM unit :=
  (match w with Some _ => checkListingMode | None => mret tt end);;
  s ← hget;
  sh ← lift_opt ListIndex (enableCommands w (ui_shell (hs_ui s)));
  hmodify (set_ui (ui_with_shell sh)).

(** [updateCommandStates(w)]: [cmd] is [Some (canGoBack, canGoForward)]
    when [w] is an [ICommandTab]. *)
Definition updateCommandStates (cmd : option (bool * bool)) : HM unit :=
  match cmd with
  | None => mret tt
  | Some (back, fwd) =>
      s ← hget;
      let sh := ui_shell (hs_ui s) in
      en2 ← lift_opt ListIndex (list_set 2 back (tb_enabled sh));
      en3 ← lift_opt ListIndex (list_set 3 fwd en2);
      hmodify (set_ui (ui_with_shell (with_toolbar (tb_visible sh) en3 sh)))
  end.

(** [showDeveloperTools()]: the dialog is created once; the active tab is
    read without [activeCommandTab()]'s fallback. *)
Definition showDeveloperTools : HM unit :=
  hmodify set_devdialog;;
  s ← hget;
  t ← lift_opt NullActiveTab (hs_active s);
  emit (EvDevDialog t).

(** [showProblems()]. *)
Definition showProblems : HM unit := v ← activeContext; emit (EvProblemsDialog v).

(** [showWelcome()]. *)
Definition showWelcome : HM unit := n ← fresh; hmodify (set_pages (replaceWidget (WelcomePage n))).

(** [close(showwelcome)]. *)
Definition close (showwelcome : bool) : HM unit :=
  enableViewCommands false;;
  enableCommandsH None;;
  (if showwelcome then showWelcome
   else s ← hget;
        match hs_view s with
        | Some v => hmodify (set_pages (deleteLater (ViewPage v)))
        | None => mret tt
        end);;
  hmodify (set_view None).

(** [loadDisassemblerView(ctx)]: the view's context starts without RDIL. *)
Definition loadDisassemblerView : HM unit :=
  close false;;
  n ← fresh;
  hmodify (set_view (Some n));;
  hmodify (set_pages (replaceWidget (ViewPage n))).

(** [hook()], after the widgets are found and the signals connected
    (see [dispatch]): the output dock, the commands off, the recent
    files. *)
Definition hook : HM unit :=
  showWelcome;;
  on_docks (dock_output (he_outputdock_is_dockwidget env) (he_outputdock_title env));;
  enableCommandsH None;; enableViewCommands false;;
  emit (EvLoad LoadRecentsMenu).

(** [initialize(mainwindow)]. *)
Definition initialize : HM unit := hook.

(** [showLoaders(filepath, buffer)]: the dialogs' answers and whether
    [RDContext_BuildDisassembler] succeeds are inputs. *)
Definition showLoaders (loader_ok built analyzer_ok : bool) (selected : string) : HM unit :=
  if negb loader_ok then emit EvFreeBuffer else
  hmodify (fun s => set_docks (clearOutput (hs_docks s)) s);;
  if negb built then mret tt else
  emit (EvLog selected);;
  if negb analyzer_ok then mret tt else
  loadDisassemblerView.

(** [showReferences(command, address)]. *)
Definition showReferences (addr : Z) : HM unit :=
  match he_symbol_at env addr with
  | None => mret tt
  | Some sym =>
      if he_has_references env (rs_address sym) then emit (EvReferencesDialog (rs_address sym))
      else emit (EvNoReferencesBox (name_or_empty (he_symbol_name env (rs_address sym))))
  end.

(** The context-menu actions; [sym] and [item] are the command's current
    symbol and item, [answer] the input dialog's text ([None] when
    cancelled). *)
Definition renameAction (sym : option RDSymbol) (answer : option string) : HM unit :=
  match sym with
  | None => mret tt
  | Some s =>
      match he_symbol_name env (rs_address s), answer with
      | Some _, Some name => emit (EvRename (rs_address s) name)
      | _, _ => mret tt
      end
  end.

Definition commentAction (item : option RDDocumentItem) (answer : option string) : HM unit :=
  match item, answer with
  | Some it, Some text => emit (EvComment (item_address it) text)
  | _, _ => mret tt
  end.

Definition xrefsAction (sym : option RDSymbol) : HM unit :=
  match sym with Some s => showReferences (rs_address s) | None => mret tt end.

Definition followAction (sym : option RDSymbol) : HM bool :=
  match sym with
  | Some s => emit (EvGoToAddress (rs_address s));; mret (he_goto env (rs_address s))
  | None => mret false
  end.

(** [showGoto(command)]. *)
Definition showGoto : HM unit := emit EvGotoDialog.

Definition gotoAction : HM unit := showGoto.

Definition hexDumpFunctionAction (item : option RDDocumentItem) : HM unit :=
  match item with
  | None => mret tt
  | Some it =>
      match he_function_hexdump env (item_address it) with
      | None => mret tt
      | Some (hexdump, sym) =>
          emit (EvLog (name_or_empty (he_symbol_name env (rs_address sym)) +:+ ": " +:+ hexdump))
      end
  end.

(** [setActiveCommandTab(t)]: called by the views when a tab gains focus. *)
Definition setActiveCommandTab (t : option Tab) : HM unit := hmodify (set_active t).

(** [open()]: [answer] is the file dialog's answer. *)
Definition open_ (answer : string) : HM unit :=
  if bool_decide (answer = "") then mret tt
  else _ ← mapM (fun e => emit (EvLoad e)) (hooks_load answer None); mret tt.

(** [close()]. *)
Definition close0 : HM unit := close true.

(** [focusOn(w)]. *)
Definition focusOn (t : Tab) : HM unit :=
  s ← hget; match hs_view s with Some _ => emit (EvFocusOn t) | None => mret tt end.

Definition showDatabase : HM unit := emit EvDatabaseDialog.
Definition settings : HM unit := emit EvSettingsDialog.
Definition about : HM unit := emit EvAboutDialog.
Definition exit : HM unit := emit EvExit.
Definition showMessage (title msg : string) (icon : nat) : HM unit := emit (EvMessageBox title msg icon).

(** [save()], [saveAs()] and [resetLayout()] have empty bodies. *)
Definition save : HM unit := mret tt.
Definition saveAs : HM unit := mret tt.
Definition resetLayout : HM unit := mret tt.

(** [onToolBarActionTriggered(action)]: [is_table] tells whether the
    view's current widget is an [ITableTab]; case 5 reads
    [m_disassemblerview->currentWidget()] before that test. *)
Definition toolBarActionTriggered (is_table : bool) (idx : Z) : HM unit :=
  s ← hget;
  match hs_active s with
  | None => mret tt
  | Some t =>
      (if idx =? 5 then _ ← lift_opt NullView (hs_view s); mret tt else mret tt);;
      match onToolBarActionTriggered true is_table idx with
      | Some ShowGoto => showGoto
      | Some c => emit (EvToolbar t c)
      | None => mret tt
      end
  end.

(** [onWindowActionTriggered(action)]: the view is dereferenced without a
    check, for the listing when no command tab is active. *)
Definition windowActionTriggered (idx : Z) : HM unit :=
  s ← hget;
  match onWindowActionTriggered (is_some (hs_active s)) idx with
  | Some (FocusListing _) =>
      t ← (match hs_active s with
           | Some t => mret t
           | None => v ← lift_opt NullView (hs_view s); mret (ListingTab v)
           end);
      focusOn t
  | Some c => v ← lift_opt NullView (hs_view s); emit (EvWindow v c)
  | None => mret tt
  end.

(** The signals [hook()] connects (lines 337-349). *)
Inductive HookSignal :=
  | DatabaseTriggered | ProblemsClicked | RendererButtonClicked
  | ToolBarTriggered (is_table : bool) (idx : Z) | WindowMenuTriggered (idx : Z).

Definition dispatch (sg : HookSignal) : HM unit :=
  match sg with
  | DatabaseTriggered => showDatabase
  | ProblemsClicked => showProblems
  | RendererButtonClicked => rendererClicked
  | ToolBarTriggered is_table idx => toolBarActionTriggered is_table idx
  | WindowMenuTriggered idx => windowActionTriggered idx
  end.

(** [undock(dw)]. *)
Definition undockH (dw : nat) : HM unit := on_docks (undock dw).

(** One return to the event loop: every deferred deletion is delivered,
    of pages and of docks. *)
Definition eventLoop : HM unit :=
  hmodify (set_pages (fun p => run_events (pages_measure p) p));;
  hmodify (fun s => set_docks (run_dock_events (length (dk_deferred (hs_docks s))) (hs_docks s)) s).

End Handlers.

(** ** The event loop terminates *)

Lemma setCentralWidget_conns w p : pg_conns (setCentralWidget w p) = pg_conns p.
Proof. unfold setCentralWidget. repeat case_match; reflexivity. Qed.

Lemma setCentralWidget_deferred w p :
  (length (pg_deferred (setCentralWidget w p)) <= S (length (pg_deferred p)))%nat.
Proof. unfold setCentralWidget. repeat case_match; simpl; rewrite ?length_app; simpl; lia. Qed.

(** Running [k] connections adds at most [k] deferred deletions. *)
Lemma fire_all_bounds (cs : list (Page * Page)) p :
  let q := foldl (fun q c => setCentralWidget c.2 q) p cs in
  pg_conns q = pg_conns p /\ (length (pg_deferred q) <= length (pg_deferred p) + length cs)%nat.
Proof.
  revert p. induction cs as [|c cs IH]; intros p; simpl; [split; [reflexivity|lia]|].
  destruct (IH (setCentralWidget c.2 p)) as [Hc Hd]. rewrite setCentralWidget_conns in Hc.
  pose proof (setCentralWidget_deferred c.2 p). split; [exact Hc|lia].
Qed.

Lemma deliver_measure p :
  pg_deferred p <> [] -> (pages_measure (deliver p) < pages_measure p)%nat.
Proof.
  unfold deliver, pages_measure. destruct (pg_deferred p) as [|w rest] eqn:E; [congruence|intros _].
  match goal with |- context [foldl ?f ?p1 ?cs] => destruct (fire_all_bounds cs p1) as [Hc Hd] end.
  rewrite Hc. simpl in *.
  pose proof (length_filter (fun x => x ≠ w) rest).
  pose proof (length_filter_split (fun c : Page * Page => c.1 = w) (pg_conns p)). simpl. lia.
Qed.

Lemma run_events_drains fuel p :
  (pages_measure p <= fuel)%nat -> pg_deferred (run_events fuel p) = [].
Proof.
  revert p. induction fuel as [|f IH]; intros p Hm; simpl.
  - unfold pages_measure in Hm. destruct (pg_deferred p); [reflexivity|simpl in Hm; lia].
  - destruct (pg_deferred p) as [|w rest] eqn:E; [exact E|].
    apply IH. pose proof (deliver_measure p ltac:(congruence)). lia.
Qed.



(** ** [replaceWidget] once the event loop has run *)

Definition quiescent (c : Page) (p : Pages) : Prop :=
  pg_central p = Some c /\ pg_conns p = [] /\ pg_deferred p = [].

(** Between [replaceWidget w] and the next turn of the event loop the old
    widget is still central; once the loop has run, [w] is central and the
    old widget is deleted: [replaceWidget] implements [central := w]. *)
Lemma replaceWidget_deferred c w p :
  quiescent c p -> pg_central (replaceWidget w p) = Some c /\ pg_deferred (replaceWidget w p) = [c].
Proof. intros (Hc & Hn & Hd). unfold replaceWidget. rewrite Hc. simpl. rewrite Hd. split; reflexivity. Qed.

Lemma replaceWidget_refines c w p :
  quiescent c p ->
  run_events (pages_measure (replaceWidget w p)) (replaceWidget w p) =
  mkPages (Some w) [] [] (pg_deleted p ++ [c]).
Proof.
  intros (Hc & Hn & Hd). destruct p as [central conns deferred deleted]; simpl in *; subst.
  unfold replaceWidget, pages_measure. simpl. unfold deliver. simpl.
  rewrite (filter_cons_True (fun c0 : Page * Page => c0.1 = c)) by reflexivity.
  rewrite (filter_cons_False (fun c0 : Page * Page => c0.1 ≠ c)) by (intros H; apply H; reflexivity).
  destruct (decide (Some c = Some c)); [|congruence]. reflexivity.
Qed.

(** ** The handlers' behaviour *)

Section HandlerProps.
Variable env : HEnv.

(** [activeCommandTab] falls back to the view's listing. *)
Lemma activeCommandTab_fallback s v :
  hs_active s = None -> hs_view s = Some v ->
  activeCommandTab s = inr (ListingTab v, set_active (Some (ListingTab v)) s).
Proof. intros Ha Hv. unfold activeCommandTab, hget, mbind, HM_bind. simpl. rewrite Ha, Hv. reflexivity. Qed.

Lemma activeCommandTab_null s : hs_active s = None -> hs_view s = None -> activeCommandTab s = inl NullView.
Proof. intros Ha Hv. unfold activeCommandTab, hget, mbind, HM_bind. simpl. rewrite Ha, Hv. reflexivity. Qed.

(** [showDeveloperTools] reads [m_activecommandtab] directly: with a view
    open but no active tab it dereferences a null pointer, where
    [activeCommandTab()] would have answered the listing. *)
Lemma showDeveloperTools_null_tab s :
  hs_active s = None -> showDeveloperTools s = inl NullActiveTab.
Proof. intros Ha. unfold showDeveloperTools, hmodify, hget, lift_opt, mbind, HM_bind. simpl. rewrite Ha. reflexivity. Qed.

Lemma enableViewCommands_active enable s s' :
  enableViewCommands env enable s = inr (tt, s') ->
  hs_active s' = hs_active s /\ hs_view s' = hs_view s /\ hs_pages s' = hs_pages s.
Proof.
  unfold enableViewCommands, hget, lift_opt, hmodify, hfail, mbind, HM_bind, mret, HM_ret, set_ui. simpl.
  intros Hr; repeat case_match; simplify_eq; simpl; auto.
Qed.

Lemma enableCommandsH_none_active s s' :
  enableCommandsH None s = inr (tt, s') ->
  hs_active s' = hs_active s /\ hs_view s' = hs_view s /\ hs_pages s' = hs_pages s.
Proof.
  unfold enableCommandsH, hget, lift_opt, hmodify, hfail, mbind, HM_bind, set_ui, mret, HM_ret. simpl.
  intros Hr; repeat case_match; simplify_eq; simpl; auto.
Qed.

(** [close] forgets the view but not [m_activecommandtab]: afterwards
    [activeContext] still answers the closed view's context. *)
Lemma close_keeps_active_tab b s s' :
  close env b s = inr (tt, s') -> hs_view s' = None /\ hs_active s' = hs_active s.
Proof.
  intros Hr. unfold close, mbind, HM_bind in Hr.
  destruct (enableViewCommands env false s) as [|[[] s1]] eqn:E1; [discriminate|].
  destruct (enableViewCommands_active _ _ _ E1) as (A1 & _ & _).
  destruct (enableCommandsH None s1) as [|[[] s2]] eqn:E2; [discriminate|].
  destruct (enableCommandsH_none_active _ _ E2) as (A2 & _ & _).
  unfold showWelcome, fresh, hmodify, hget, mret, HM_ret, mbind, HM_bind in Hr.
  destruct b; simpl in Hr; repeat case_match; simplify_eq; simpl; split; congruence.
Qed.

(** One return to the event loop delivers every deferred deletion, of
    pages and of docks. *)
Lemma eventLoop_quiescent s s' :
  eventLoop s = inr (tt, s') -> pg_deferred (hs_pages s') = [] /\ dk_deferred (hs_docks s') = [].
Proof.
  unfold eventLoop, hmodify, mbind, HM_bind. intros [= <-]. simpl. split.
  - apply run_events_drains. reflexivity.
  - apply run_dock_events_drains. reflexivity.
Qed.

(** The window menu's slot dereferences the view for every action, and
    for Listing when no command tab is active: with no view it fails. *)
Lemma windowActionTriggered_null_view s idx :
  hs_view s = None -> 0 <= idx <= 5 -> (idx = 0 -> hs_active s = None) ->
  windowActionTriggered idx s = inl NullView.
Proof.
  intros Hv Hidx Ha. unfold windowActionTriggered, hget, lift_opt, hfail, mbind, HM_bind.
  assert (idx = 0 \/ idx = 1 \/ idx = 2 \/ idx = 3 \/ idx = 4 \/ idx = 5) as Hc by lia.
  destruct Hc as [-> | [-> | [-> | [-> | [-> | ->]]]]]; simpl; rewrite ?Ha, Hv by reflexivity; reflexivity.
Qed.

(** The toolbar's Filter action (index 5) reads the view's current
    widget before testing it. *)
Lemma toolBarActionTriggered_null_view s t is_table :
  hs_active s = Some t -> hs_view s = None -> toolBarActionTriggered is_table 5 s = inl NullView.
Proof.
  intros Ha Hv. unfold toolBarActionTriggered, hget, lift_opt, hfail, mbind, HM_bind. simpl.
  rewrite Ha, Hv. reflexivity.
Qed.

Lemma enableViewCommands_window_menu enable s s' :
  enableViewCommands env enable s = inr (tt, s') ->
  ui_window_menu_enabled (hs_ui s') = enable /\ ui_window_actions_enabled (hs_ui s') = enable.
Proof.
  unfold enableViewCommands, hget, lift_opt, hmodify, hfail, mbind, HM_bind, mret, HM_ret, set_ui. simpl.
  intros Hr; repeat case_match; simplify_eq; simpl; auto.
Qed.

(** [close] turns the window menu off and forgets the view, so the
    window menu's dereferences of the view are unreachable from the menu
    until [enableViewCommands(true)] runs again. *)
Lemma close_disables_window_menu b s s' :
  close env b s = inr (tt, s') ->
  hs_view s' = None /\ ui_window_menu_enabled (hs_ui s') = false /\ ui_window_actions_enabled (hs_ui s') = false.
Proof.
  intros Hr. unfold close, mbind, HM_bind in Hr.
  destruct (enableViewCommands env false s) as [|[[] s1]] eqn:E1; [discriminate|].
  destruct (enableViewCommands_window_menu _ _ _ E1) as [M1 A1].
  destruct (enableCommandsH None s1) as [|[[] s2]] eqn:E2; [discriminate|].
  assert (ui_window_menu_enabled (hs_ui s2) = false /\ ui_window_actions_enabled (hs_ui s2) = false) as [M2 A2].
  { revert E2. unfold enableCommandsH, hget, lift_opt, hmodify, hfail, mbind, HM_bind, set_ui, mret, HM_ret. simpl.
    intros E2; repeat case_match; simplify_eq; simpl; auto. }
  unfold showWelcome, fresh, hmodify, hget, mret, HM_ret, mbind, HM_bind in Hr.
  destruct b; simpl in Hr; repeat case_match; simplify_eq; simpl; auto.
Qed.

End HandlerProps.

(** ** Samples *)

Module LifecycleSamples.

Definition toolbar : Shell := mkShell (repeat true 6) (repeat true 6) true true false false "".

Definition started : HState :=
  mkHState (mkPages None [] [] []) None None ∅ None
    (mkUI toolbar true true true true true "") 0 [] DockSamples.docks0.

Definition sample_env : HEnv :=
  mkHEnv true (fun _ => None) (fun _ => None) (fun _ => false) (fun _ => None) (fun _ => true) true "Output".

Definition run_hm (m : HM unit) (s : HState) : option HState :=
  match m s with inr (_, s') => Some s' | inl _ => None end.

(** Hook the window, open a view, let the event loop run, focus its
    listing, close it and run the loop again. *)
Definition session : HM unit :=
  hook sample_env;; eventLoop;; loadDisassemblerView sample_env;; eventLoop;;
  setActiveCommandTab (Some (ListingTab 1));; close sample_env true;; eventLoop.

Definition after_close : option HState := run_hm session started.


End LifecycleSamples.

Import LifecycleSamples.


(** The session: the welcome page comes back and the view is deleted,
    but the active tab still names the closed view, so the renderer
    button then toggles the closed view's context instead of failing; a
    fresh window, with no tab, makes [showDeveloperTools] dereference
    null. *)
Example session_stale_tab :
  option_map (fun s => (pg_central (hs_pages s), pg_deleted (hs_pages s), hs_view s, hs_active s)) after_close =
    Some (Some (WelcomePage 2), [WelcomePage 0; ViewPage 1], None, Some (ListingTab 1)) /\
  option_map (fun s => hs_rdil s !! 1%nat) (after_close ≫= run_hm rendererClicked) = Some (Some true) /\
  showDeveloperTools started = inl NullActiveTab.
Proof. vm_compute. split_and!; reflexivity. Qed.

(** [hook()] docks the output dock: [outputDock()] finds it when
    [OutputDock] is a [QDockWidget], and misses it otherwise. *)
Example hook_docks_output :
  option_map (fun s => outputDock (hs_docks s)) (run_hm (hook sample_env) started) = Some (Some 0%nat) ∧
  option_map (fun s => outputDock (hs_docks s))
    (run_hm (hook (mkHEnv true (fun _ => None) (fun _ => None) (fun _ => false) (fun _ => None)
                     (fun _ => true) false "Output")) started) = Some None.
Proof. vm_compute. split; reflexivity. Qed.
