(* ===== verification/ContextMenu.v ===== *)
(** * The context menu [createActions] builds, its shortcuts and its actions

    [DisassemblerHooks::createActions(command)]
    (src/hooks/disassemblerhooks.cpp, lines 390-502) adds thirteen
    actions and four separators to a new [QMenu], each action with its
    lambda and maybe a [QKeySequence], and records them in a
    [std::unordered_map<int, QAction*>] by [Action_*] key; it then stamps
    every mapped action with its key ([setData]), registers ten of them
    on the command's widget so that their shortcuts work without the
    menu, and connects [aboutToShow] to [adjustActions], which rebuilds
    the key map from the menu's [data()] (lines 232-239).

    [CMenu] is the menu's action list, the key map (an association list
    whose [operator[]] inserts a null pointer for a missing key) and the
    widget's action list.  [key_target] is Qt's shortcut resolution: a
    key press triggers the one widget action it is bound to, and none
    when two are.  [run_slot] runs an action's lambda in the hooks'
    monad [HM] of [Lifecycle].

    [QMenu_ops] makes the [QAction]s, reached through the map
    [adjustActions] rebuilds from their data, an instance of the
    [MenuOps] interface of [Hooks]; [showMenu] runs [adjustActions] on
    them.  The theorems: [createActions] stamps every key and wires the
    shortcuts consistently (checked by reflection), and showing the menu
    refines the abstract [Menu] through the simulation [qsim]. *)

From S2P Require Import Prelude.
From S2P Require Import Hooks.
From S2P Require Import Lifecycle.

Inductive Modifier := NoModifier | CTRL | SHIFT.
Inductive Key := Key_N | Key_Semicolon | Key_X | Key_G | Key_H | Key_C | Key_Left | Key_Right | Key_Insert | Key_F16.

#[export] Instance Modifier_eq_dec : EqDecision Modifier.
Proof. solve_decision. Defined.
#[export] Instance Key_eq_dec : EqDecision Key.
Proof. solve_decision. Defined.

(** A [QKeySequence]: a key with a modifier, or the standard key
    [QKeySequence::Copy]. *)
Inductive Shortcut := KeySeq (m : Modifier) (k : Key) | StandardCopy.

(** The key presses a shortcut answers to; [QKeySequence::Copy] is
    Ctrl+C, F16 and Ctrl+Insert on X11 (Windows has the first and the
    last). *)
Definition key_bindings (s : Shortcut) : list (Modifier * Key) :=
  match s with
  | KeySeq m k => [(m, k)]
  | StandardCopy => [(CTRL, Key_C); (NoModifier, Key_F16); (CTRL, Key_Insert)]
  end.

(** The lambda connected to an action's [triggered] signal;
    [SlotEmpty] is an empty lambda. *)
Inductive Slot := SlotRename | SlotComment | SlotXRefs | SlotFollow | SlotEmpty | SlotGoto
  | SlotHexDumpFunction | SlotCreateFunction | SlotBack | SlotForward | SlotCopy.

Record QAct := mkQAct {
  qa_separator : bool;
  qa_text : string;
  qa_slot : option Slot;
  qa_shortcut : option Shortcut;
  qa_data : option Action;            (* QAction::data(), null until setData *)
  qa_visible : bool                   (* QAction::isVisible() *)
}.

Record CMenu := mkCMenu {
  cm_menu : list QAct;                       (* contextmenu->actions(), by index *)
  cm_actions : list (Action * option nat);   (* std::unordered_map<int, QAction*> *)
  cm_widget : list nat;                      (* command->widget()->actions() *)
  cm_connected : bool                        (* aboutToShow -> adjustActions *)
}.

Definition cmenu_empty : CMenu := mkCMenu [] [] [] false.

(** ** The key map *)

Fixpoint assoc {K V} `{EqDecision K} (k : K) (m : list (K * V)) : option V :=
  match m with [] => None | (k', v) :: m => if decide (k = k') then Some v else assoc k m end.

(** [actions[k] = v]. *)
Definition map_assign {K V} `{EqDecision K} (k : K) (v : V) (m : list (K * V)) : list (K * V) :=
  match assoc k m with
  | Some _ => map (fun e => if decide (e.1 = k) then (k, v) else e) m
  | None => m ++ [(k, v)]
  end.

(** [actions[k]] as an rvalue: a missing key is inserted with a null
    pointer. *)
Definition subscript (k : Action) (m : list (Action * option nat)) : option nat * list (Action * option nat) :=
  match assoc k m with
  | Some v => (v, m)
  | None => (None, m ++ [(k, None)])
  end.

(** ** Building the menu *)

(** [contextmenu->addAction(text, this, lambda, shortcut)]; the new
    action's index. *)
Definition addAction (text : string) (slot : Slot) (sc : option Shortcut) (cm : CMenu) : nat * CMenu :=
  (length (cm_menu cm),
   mkCMenu (cm_menu cm ++ [mkQAct false text (Some slot) sc None true]) (cm_actions cm) (cm_widget cm) (cm_connected cm)).

Definition addSeparator (cm : CMenu) : CMenu :=
  mkCMenu (cm_menu cm ++ [mkQAct true "" None None None true]) (cm_actions cm) (cm_widget cm) (cm_connected cm).

(** One statement of the construction: [actions[a] = contextmenu->addAction(...)]
    or [contextmenu->addSeparator()]. *)
Inductive BuildStep := AddAction (a : Action) (text : string) (slot : Slot) (sc : option Shortcut) | AddSeparator.

Definition build_step (cm : CMenu) (st : BuildStep) : CMenu :=
  match st with
  | AddAction a text slot sc =>
      let '(i, cm1) := addAction text slot sc cm in
      mkCMenu (cm_menu cm1) (map_assign a (Some i) (cm_actions cm1)) (cm_widget cm1) (cm_connected cm1)
  | AddSeparator => addSeparator cm
  end.

(** The statements of lines 395-485, in order. *)
Definition createActions_steps : list BuildStep := [
  AddAction Action_Rename "Rename" SlotRename (Some (KeySeq NoModifier Key_N));
  AddAction Action_Comment "Comment" SlotComment (Some (KeySeq NoModifier Key_Semicolon));
  AddSeparator;
  AddAction Action_XRefs "Cross References" SlotXRefs (Some (KeySeq NoModifier Key_X));
  AddAction Action_Follow "Follow" SlotFollow None;
  AddAction Action_FollowPointerHexDump "Follow pointer in Hex Dump" SlotEmpty None;
  AddAction Action_Goto "Goto..." SlotGoto (Some (KeySeq NoModifier Key_G));
  AddAction Action_CallGraph "Call Graph" SlotEmpty (Some (KeySeq CTRL Key_G));
  AddSeparator;
  AddAction Action_HexDump "Show Hex Dump" SlotEmpty (Some (KeySeq CTRL Key_H));
  AddAction Action_HexDumpFunction "Hex Dump Function" SlotHexDumpFunction None;
  AddAction Action_CreateFunction "Create Function" SlotCreateFunction (Some (KeySeq SHIFT Key_C));
  AddSeparator;
  AddAction Action_Back "Back" SlotBack (Some (KeySeq CTRL Key_Left));
  AddAction Action_Forward "Forward" SlotForward (Some (KeySeq CTRL Key_Right));
  AddSeparator;
  AddAction Action_Copy "Copy" SlotCopy (Some StandardCopy)
].

(** [action->setData(type)]; a null [action] is dereferenced. *)
Definition setData (a : Action) (i : option nat) (cm : CMenu) : option CMenu :=
  match i with
  | Some i => Some (mkCMenu (alter (fun q => mkQAct (qa_separator q) (qa_text q) (qa_slot q) (qa_shortcut q) (Some a) (qa_visible q)) i (cm_menu cm))
                            (cm_actions cm) (cm_widget cm) (cm_connected cm))
  | None => None
  end.

(** [for(auto& [type, action] : actions) action->setData(type)]. *)
Definition setData_all (cm : CMenu) : option CMenu :=
  foldl (fun acc e => acc ≫= setData e.1 e.2) (Some cm) (cm_actions cm).

(** [command->widget()->addAction(actions[k])]: [QWidget::addAction]
    moves an action already present to the end and ignores a null one. *)
Definition widget_addAction (cm : CMenu) (k : Action) : CMenu :=
  let '(v, acts) := subscript k (cm_actions cm) in
  match v with
  | Some i => mkCMenu (cm_menu cm) acts (filter (fun j => j ≠ i) (cm_widget cm) ++ [i]) (cm_connected cm)
  | None => mkCMenu (cm_menu cm) acts (cm_widget cm) (cm_connected cm)
  end.

(** The keys of lines 489-498, in order. *)
Definition widget_keys : list Action :=
  [Action_Rename; Action_XRefs; Action_Comment; Action_Goto; Action_CallGraph;
   Action_HexDump; Action_CreateFunction; Action_Back; Action_Forward; Action_Copy].

(** [createActions(command)]: [None] if a null action were stamped. *)
Definition createActions : option CMenu :=
  cm ← setData_all (foldl build_step cmenu_empty createActions_steps);
  let cm := foldl widget_addAction cm widget_keys in
  Some (mkCMenu (cm_menu cm) (cm_actions cm) (cm_widget cm) true).

(** ** What [adjustActions] rebuilds, and what a key press triggers *)

(** Lines 232-239: [actions[data.toInt()] = action] for every action of
    the menu whose data is not null. *)
Definition adjust_map (menu : list QAct) : list (Action * nat) :=
  foldl (fun m id => match id.2 with Some a => map_assign a id.1 m | None => m end)
    [] (imap pair (qa_data <$> menu)).

Definition binds (cm : CMenu) (key : Modifier * Key) (i : nat) : bool :=
  match cm_menu cm !! i with
  | Some q => match qa_shortcut q with Some sc => bool_decide (key ∈ key_bindings sc) | None => false end
  | None => false
  end.

(** Qt's resolution of a key press among the widget's actions: the one
    action bound to it; an ambiguous press triggers none. *)
Definition key_target (cm : CMenu) (key : Modifier * Key) : option nat :=
  match filter (fun i => binds cm key i = true) (cm_widget cm) with
  | [i] => Some i
  | _ => None
  end.

(** ** Showing the menu: [adjustActions] on the [QAction]s *)

(** The menu [adjustActions] updates: the key map it rebuilt and the
    menu's actions; [None] once a null action has been dereferenced. *)
Definition QMenuState : Type := option (list (Action * nat) * list QAct).

Definition qa_with_visible (v : bool) (q : QAct) : QAct :=
  mkQAct (qa_separator q) (qa_text q) (qa_slot q) (qa_shortcut q) (qa_data q) v.

Definition qa_with_text (t : string) (q : QAct) : QAct :=
  mkQAct (qa_separator q) t (qa_slot q) (qa_shortcut q) (qa_data q) (qa_visible q).

(** [actions[a]->f(...)]: a key missing from the map reads a null
    pointer. *)
Definition qmenu_call (f : QAct -> QAct) (a : Action) (st : QMenuState) : QMenuState :=
  match st with
  | Some (map, menu) =>
      match assoc a map with
      | Some i => Some (map, alter f i menu)
      | None => None
      end
  | None => None
  end.

#[export] Instance QMenu_ops : MenuOps QMenuState :=
  {| menu_setVisible a v := qmenu_call (qa_with_visible v) a;
     menu_setText a t := qmenu_call (qa_with_text t) a |}.

(** The [aboutToShow] slot: [adjustActions] rebuilds the key map from the
    actions' data (lines 232-239) and updates the actions through it. *)
Definition showMenu (RD_ToHexAuto : Z -> string) (c : MenuContext) (menu : list QAct) : option (list QAct) :=
  snd <$> adjustActions (M:=QMenuState) RD_ToHexAuto c (Some (adjust_map menu, menu)).

(** The menu shown once for each context, in order. *)
Fixpoint show_all (RD_ToHexAuto : Z -> string) (cs : list MenuContext) (menu : list QAct) : option (list QAct) :=
  match cs with
  | [] => Some menu
  | c :: cs => showMenu RD_ToHexAuto c menu ≫= show_all RD_ToHexAuto cs
  end.

(** What the menu shows for a key, through a key map. *)
Definition view_with (map : list (Action * nat)) (menu : list QAct) : Menu :=
  fun a => match assoc a map ≫= fun i => menu !! i with
           | Some q => mkActionState (qa_visible q) (qa_text q)
           | None => mkActionState false ""
           end.

Definition menu_view (menu : list QAct) : Menu := view_with (adjust_map menu) menu.

(** Every key has an action in the map, carrying that key as data. *)
Definition keys_in (map : list (Action * nat)) (menu : list QAct) : Prop :=
  ∀ a, ∃ i, assoc a map = Some i ∧ (menu !! i ≫= qa_data) = Some a.

(** A [QAction] state simulates an abstract [Menu]: it has not crashed,
    it keeps the key map [map0] and the actions' data [data0], and it
    shows what [m] says. *)
Definition qsim (map0 : list (Action * nat)) (data0 : list (option Action)) (st : QMenuState) (m : Menu) : Prop :=
  ∃ menu, st = Some (map0, menu) ∧ qa_data <$> menu = data0 ∧ keys_in map0 menu ∧ view_with map0 menu ≡ m.

(** What an action's lambda reads: the command's current symbol and
    item, and the input dialog's answer ([None] when cancelled). *)
Record SlotInput := mkSlotInput {
  si_symbol : option RDSymbol;
  si_item : option RDDocumentItem;
  si_answer : option string
}.

(** The Create Function lambda (lines 470-479): without a current symbol
    it logs [symbol.address] of an uninitialised [RDSymbol]; the task it
    starts is the subject of [Worker]. *)
Definition createFunctionAction (sym : option RDSymbol) : HM unit :=
  match sym with
  | Some s => emit (EvCommand (CallCreateFunction (rs_address s)))
  | None => hfail UninitRead
  end.

Definition run_slot (env : HEnv) (inp : SlotInput) (sl : Slot) : HM unit :=
  match sl with
  | SlotRename => renameAction env (si_symbol inp) (si_answer inp)
  | SlotComment => commentAction (si_item inp) (si_answer inp)
  | SlotXRefs => xrefsAction env (si_symbol inp)
  | SlotFollow => _ ← followAction env (si_symbol inp); mret tt
  | SlotEmpty => mret tt
  | SlotGoto => gotoAction
  | SlotHexDumpFunction => hexDumpFunctionAction env (si_item inp)
  | SlotCreateFunction => createFunctionAction (si_symbol inp)
  | SlotBack => emit (EvCommand CallGoBack)
  | SlotForward => emit (EvCommand CallGoForward)
  | SlotCopy => emit (EvCommand CallCopy)
  end.

(** [QAction::trigger()] on the menu's action [i]. *)
Definition trigger (env : HEnv) (inp : SlotInput) (cm : CMenu) (i : nat) : HM unit :=
  match cm_menu cm !! i ≫= qa_slot with Some sl => run_slot env inp sl | None => mret tt end.

(** A key press on the command's widget. *)
Definition keyPress (env : HEnv) (inp : SlotInput) (cm : CMenu) (key : Modifier * Key) : HM unit :=
  match key_target cm key with Some i => trigger env inp cm i | None => mret tt end.

(** ** Checks of a built menu *)

Definition all_actions : list Action :=
  [Action_Rename; Action_Comment; Action_XRefs; Action_Follow; Action_FollowPointerHexDump;
   Action_Goto; Action_CallGraph; Action_HexDump; Action_HexDumpFunction; Action_CreateFunction;
   Action_Back; Action_Forward; Action_Copy].

(** Every key has an action in the map, stamped with the key, and the
    map [adjustActions] rebuilds from the data agrees. *)
Definition keys_ok (cm : CMenu) : bool :=
  forallb (fun a => match assoc a (cm_actions cm), assoc a (adjust_map (cm_menu cm)) with
                    | Some (Some i), Some j => bool_decide (i = j ∧ (cm_menu cm !! i ≫= qa_data) = Some a)
                    | _, _ => false
                    end) all_actions.

Definition has_shortcut (cm : CMenu) (i : nat) : bool :=
  match cm_menu cm !! i ≫= qa_shortcut with Some _ => true | None => false end.

(** The widget carries exactly the actions with a shortcut, and each key
    press of a shortcut resolves to its action. *)
Definition shortcut_entry_ok (cm : CMenu) (i : nat) (q : QAct) : bool :=
  match qa_shortcut q with
  | Some sc => bool_decide (i ∈ cm_widget cm) &&
               forallb (fun key => bool_decide (key_target cm key = Some i)) (key_bindings sc)
  | None => true
  end.

Definition shortcuts_ok (cm : CMenu) : bool :=
  forallb (has_shortcut cm) (cm_widget cm) &&
  forallb (fun iq => shortcut_entry_ok cm iq.1 iq.2) (imap pair (cm_menu cm)).

(** ** Properties *)

Lemma all_actions_complete a : a ∈ all_actions.
Proof. destruct a; cbv; set_solver. Qed.

Lemma keys_ok_sound cm :
  keys_ok cm = true ->
  ∀ a, ∃ i, assoc a (cm_actions cm) = Some (Some i) ∧ assoc a (adjust_map (cm_menu cm)) = Some i ∧
            (cm_menu cm !! i ≫= qa_data) = Some a.
Proof.
  unfold keys_ok. rewrite forallb_forall. intros Hall a.
  specialize (Hall a (proj1 (list_elem_of_In _ _) (all_actions_complete a))).
  destruct (assoc a (cm_actions cm)) as [[i|]|]; [|discriminate|discriminate].
  destruct (assoc a (adjust_map (cm_menu cm))) as [j|]; [|discriminate].
  apply bool_decide_eq_true_1 in Hall as [-> Hd]. eauto.
Qed.

Lemma shortcuts_ok_sound cm :
  shortcuts_ok cm = true ->
  (∀ i, i ∈ cm_widget cm ↔ ∃ q sc, cm_menu cm !! i = Some q ∧ qa_shortcut q = Some sc) ∧
  (∀ i q sc key, cm_menu cm !! i = Some q → qa_shortcut q = Some sc → key ∈ key_bindings sc →
                 key_target cm key = Some i).
Proof.
  unfold shortcuts_ok. rewrite andb_true_iff, forallb_forall. intros [Hw Hm]. split.
  - intros i. split.
    + intros Hi. specialize (Hw i (proj1 (list_elem_of_In _ _) Hi)). unfold has_shortcut in Hw.
      destruct (cm_menu cm !! i) as [q|] eqn:Hq; [|discriminate]. simpl in Hw.
      destruct (qa_shortcut q) as [sc|] eqn:Hsc; [eauto|discriminate].
    + intros (q & sc & Hq & Hsc). pose proof (forallb_imap_lookup (shortcut_entry_ok cm) _ i q Hm Hq) as H. unfold shortcut_entry_ok in H.
      rewrite Hsc, andb_true_iff in H. apply (bool_decide_eq_true_1 _), H.
  - intros i q sc key Hq Hsc Hk. pose proof (forallb_imap_lookup (shortcut_entry_ok cm) _ i q Hm Hq) as H. unfold shortcut_entry_ok in H.
    rewrite Hsc, andb_true_iff, forallb_forall in H.
    apply (bool_decide_eq_true_1 _), (proj2 H), list_elem_of_In, Hk.
Qed.

(** C27: The context menu [createActions] builds is consistent with
    [adjustActions] and with the keyboard: every [Action_*] key has an
    action stamped with that key, so the map [adjustActions] rebuilds
    from the menu's data is total (none of its [actions[k]->setVisible]
    calls meets a null pointer) and agrees with the construction's map;
    the command's widget carries exactly the actions that have a
    shortcut; and every key press of a shortcut triggers its own action,
    no two being bound to the same key. *)
Theorem createActions_keys_shortcuts :
  ∃ cm, createActions = Some cm ∧
    (∀ a, ∃ i, assoc a (cm_actions cm) = Some (Some i) ∧ assoc a (adjust_map (cm_menu cm)) = Some i ∧
               (cm_menu cm !! i ≫= qa_data) = Some a) ∧
    (∀ i, i ∈ cm_widget cm ↔ ∃ q sc, cm_menu cm !! i = Some q ∧ qa_shortcut q = Some sc) ∧
    (∀ i q sc key, cm_menu cm !! i = Some q → qa_shortcut q = Some sc → key ∈ key_bindings sc →
                   key_target cm key = Some i).
Proof.
  eexists; split; [vm_compute; reflexivity|].
  split; [apply keys_ok_sound | apply shortcuts_ok_sound]; vm_compute; reflexivity.
Qed.

(** On a menu that passes [shortcuts_ok], a shortcut's key press runs
    its action's lambda. *)
Lemma keyPress_runs_slot env inp cm i q sc key :
  shortcuts_ok cm = true -> cm_menu cm !! i = Some q -> qa_shortcut q = Some sc ->
  key ∈ key_bindings sc -> keyPress env inp cm key = trigger env inp cm i.
Proof.
  intros Hok Hq Hsc Hk. unfold keyPress.
  rewrite (proj2 (shortcuts_ok_sound cm Hok) i q sc key Hq Hsc Hk). reflexivity.
Qed.

(** ** The [QAction]s refine the abstract menu *)

Lemma keys_in_of_keys_ok cm : keys_ok cm = true -> keys_in (adjust_map (cm_menu cm)) (cm_menu cm).
Proof. intros Hok a. destruct (keys_ok_sound cm Hok a) as (i & _ & Hi & Hd). eauto. Qed.

(** Two keys of the map never share an action. *)
Lemma keys_in_inj map menu a b i :
  keys_in map menu -> assoc a map = Some i -> assoc b map = Some i -> a = b.
Proof.
  intros Hk Ha Hb. destruct (Hk a) as (i1 & H1 & D1). destruct (Hk b) as (i2 & H2 & D2).
  rewrite Ha in H1. rewrite Hb in H2. simplify_eq. congruence.
Qed.

Lemma alter_data f (i : nat) (menu : list QAct) :
  (∀ q, qa_data (f q) = qa_data q) -> qa_data <$> alter f i menu = qa_data <$> menu.
Proof.
  intros Hf. apply list_eq. intros j. rewrite !list_lookup_fmap.
  destruct (decide (i = j)) as [<-|Hne].
  - rewrite list_lookup_alter_eq. destruct (menu !! i) as [q|]; [|reflexivity].
    cbn. f_equal. apply Hf.
  - rewrite list_lookup_alter_ne by exact Hne. reflexivity.
Qed.

(** Whether a key has its action depends on the actions' data only. *)
Lemma keys_in_data map (menu menu' : list QAct) :
  qa_data <$> menu' = qa_data <$> menu -> keys_in map menu -> keys_in map menu'.
Proof.
  intros E Hk a. destruct (Hk a) as (j & Hj & Hd). exists j. split; [exact Hj|].
  pose proof (f_equal (fun l => l !! j) E) as Ej. simpl in Ej. rewrite !list_lookup_fmap in Ej.
  destruct (menu' !! j), (menu !! j); simpl in *; congruence.
Qed.

Lemma adjust_map_data (menu menu' : list QAct) : qa_data <$> menu' = qa_data <$> menu -> adjust_map menu' = adjust_map menu.
Proof. intros E. unfold adjust_map. rewrite E. reflexivity. Qed.

(** One call [actions[a]->f()] on a simulating state updates the
    abstract menu at [a] only. *)
Lemma qsim_call map0 data0 f g a st m :
  (∀ q, qa_data (f q) = qa_data q) ->
  (∀ q, mkActionState (qa_visible (f q)) (qa_text (f q)) = g (mkActionState (qa_visible q) (qa_text q))) ->
  qsim map0 data0 st m ->
  qsim map0 data0 (qmenu_call f a st) (fun a' => if decide (a' = a) then g (m a) else m a').
Proof.
  intros Hf Hg (menu & -> & Hd & Hk & Hv). destruct (Hk a) as (i & Hi & Hdi). simpl. rewrite Hi.
  exists (alter f i menu). split; [reflexivity|]. split; [rewrite alter_data by exact Hf; exact Hd|].
  split; [exact (keys_in_data _ _ _ (alter_data f i menu Hf) Hk)|].
  intros a'. unfold view_with. destruct (decide (a' = a)) as [->|Hne].
  - rewrite Hi. simpl. destruct (menu !! i) as [q|] eqn:Eq; [|discriminate].
    rewrite list_lookup_alter_eq, Eq. simpl. rewrite Hg, <- (Hv a). unfold view_with.
    rewrite Hi. simpl. rewrite Eq. reflexivity.
  - destruct (Hk a') as (j & Hj & _). rewrite Hj. simpl.
    rewrite list_lookup_alter_ne by (intros ->; apply Hne; eapply keys_in_inj; eauto).
    rewrite <- (Hv a'). unfold view_with. rewrite Hj. reflexivity.
Qed.

Lemma qsim_setVisible map0 data0 a v st m :
  qsim map0 data0 st m -> qsim map0 data0 (menu_setVisible a v st) (menu_setVisible a v m).
Proof.
  apply (qsim_call map0 data0 (qa_with_visible v) (fun s => mkActionState v (text s)));
    intros q; reflexivity.
Qed.

Lemma qsim_setText map0 data0 a t st m :
  qsim map0 data0 st m -> qsim map0 data0 (menu_setText a t st) (menu_setText a t m).
Proof.
  apply (qsim_call map0 data0 (qa_with_text t) (fun s => mkActionState (visible s) t));
    intros q; reflexivity.
Qed.

(** [adjustActions] on the [QAction]s follows [adjustActions] on the
    abstract menu step by step. *)
Lemma adjust_qsim RD_ToHexAuto map0 data0 c st m :
  qsim map0 data0 st m ->
  qsim map0 data0 (adjustActions RD_ToHexAuto c st) (adjustActions RD_ToHexAuto c m).
Proof.
  intros H. unfold adjustActions, adjust_no_symbol, adjust_symbol. cbv zeta.
  repeat case_match; repeat first [apply qsim_setVisible | apply qsim_setText]; exact H.
Qed.

Lemma show_all_sim RD_ToHexAuto cs menu m :
  keys_in (adjust_map menu) menu -> menu_view menu ≡ m ->
  ∃ menu', show_all RD_ToHexAuto cs menu = Some menu' ∧
    menu_view menu' ≡ foldl (fun m c => adjustActions RD_ToHexAuto c m) m cs.
Proof.
  revert menu m. induction cs as [|c cs IH]; intros menu m Hk Hv; simpl; [eauto|].
  destruct (adjust_qsim RD_ToHexAuto (adjust_map menu) (qa_data <$> menu) c (Some (adjust_map menu, menu)) m)
    as (menu' & E & Hd & Hk' & Hv'); [exists menu; auto|].
  unfold showMenu. rewrite E. simpl.
  pose proof (adjust_map_data menu menu' Hd) as Hm.
  apply IH; [rewrite Hm; exact Hk'|]. unfold menu_view. rewrite Hm. exact Hv'.
Qed.

(** C14: The context menu's [QAction]s refine the abstract [Menu] the
    visibility theorems are stated on: starting from the menu
    [createActions] builds, showing it in any sequence of contexts never
    dereferences a null action, and after each showing every key's action
    displays the visibility and text that [adjustActions] computes on the
    abstract menu. *)
Theorem show_all_refines RD_ToHexAuto cs :
  ∃ cm, createActions = Some cm ∧
    ∃ menu', show_all RD_ToHexAuto cs (cm_menu cm) = Some menu' ∧
      menu_view menu' ≡ foldl (fun m c => adjustActions RD_ToHexAuto c m) (menu_view (cm_menu cm)) cs.
Proof.
  eexists; split; [vm_compute; reflexivity|].
  apply show_all_sim; [apply keys_in_of_keys_ok; vm_compute; reflexivity|reflexivity].
Qed.

Module ContextMenuSamples.

Definition built : CMenu := default cmenu_empty createActions.

Definition no_symbol : SlotInput := mkSlotInput None None None.

End ContextMenuSamples.

Import ContextMenuSamples LifecycleSamples.

(** Shown on a weak label while the analysis is busy, the built menu
    hides Rename, and shown again when idle it offers it. *)
Example show_busy_then_idle :
  option_map (fun menu => visible (menu_view menu Action_Rename))
    (show_all (fun _ => "") [HookSamples.ctx true (Some HookSamples.weak_label)] (cm_menu built)) = Some false ∧
  option_map (fun menu => visible (menu_view menu Action_Rename))
    (show_all (fun _ => "") [HookSamples.ctx true (Some HookSamples.weak_label);
                      HookSamples.ctx false (Some HookSamples.weak_label)] (cm_menu built)) = Some true.
Proof. vm_compute. split; reflexivity. Qed.

(** Shift+C without a current symbol reaches the Create Function
    lambda's read of an uninitialised [RDSymbol]; Ctrl+Insert copies;
    Ctrl+G runs the empty Call Graph lambda. *)
Example keyPress_samples :
  keyPress sample_env no_symbol built (SHIFT, Key_C) started = inl UninitRead ∧
  option_map hs_log (run_hm (keyPress sample_env no_symbol built (CTRL, Key_Insert)) started) =
    Some [EvCommand CallCopy] ∧
  run_hm (keyPress sample_env no_symbol built (CTRL, Key_G)) started = Some started.
Proof. vm_compute. split_and!; reflexivity. Qed.
