(* ===== verification/MainWindow.v ===== *)
(** * The main window: loading, the stacked view, closing

    [src/mainwindow.cpp] is the older shell of REDasm.  Its state is the
    loaded [m_buffer], the window title, the working directory, the
    recent-files menu, the saved geometry and the pages of
    [ui->stackView] (a [QStackedWidget] that starts with one page from the
    .ui file).  Every handler that changes that state is a definition
    here, over a [MWState] record:
    - [load] (lines 180-196), with [initDisassembler] (246-264) and
      [checkPlugins] (221-244);
    - [closeEvent] (52-71), [dragEnterEvent]/[dragMoveEvent] (73-87),
      [dropEvent] (89-108), [onOpenClicked] (110-118),
      [onRecentFileClicked] (120-126), [loadGeometry] (134-147),
      [checkCommandLine] (199-219) and the constructor's sequence (14-48);
    - [onSettingsClicked] (127-131), [onDatabaseClicked] (263-267) and
      [onAboutClicked] (269-273), which only run a modal dialog, recorded
      as an [MWEvent].
    File system, settings, format detection and the user's answers to
    dialogs are the read-only [MWEnv] or arguments of the handlers.
    [QObject::deleteLater] is recorded in [mw_deleted]: the object stays
    alive until the event loop runs, which this model does not.

    [mw_step] lets any handler run with any user input; [mw_reachable]
    starts from the constructed window.  Theorems: the stacked widget
    always holds exactly one page, a view there always has its
    disassembler; the close confirmation is asked exactly when a buffer is
    loaded; loading an empty file or one whose plugins are missing
    replaces the buffer and the title but keeps the previous view. *)

From S2P Require Import Prelude.
From S2P Require Import Hooks.

(** ** Data *)

(** What [REDasm::getFormat] answers about a buffer. *)
Record Format := mkFormat { fmt_binary : bool; fmt_assembler : string }.

#[export] Instance Format_eq_dec : EqDecision Format.
Proof. solve_decision. Defined.

(** The pages of [ui->stackView]: the page of the .ui file, and the
    [DisassemblerView]s the window creates, by creation number, with the
    disassembler [setDisassembler] gave them (format, assembler name). *)
Inductive Widget := InitialPage | DView (id : nat) (dis : option (Format * string)).

#[export] Instance Widget_eq_dec : EqDecision Widget.
Proof. solve_decision. Defined.

Inductive MsgAnswer := AnswerYes | AnswerNo | AnswerCancel.

#[export] Instance MsgAnswer_eq_dec : EqDecision MsgAnswer.
Proof. solve_decision. Defined.

Inductive CloseOutcome := CloseAccepted | CloseIgnored.

(** [QByteArray::isEmpty], [QList::empty]. *)
Definition empty {A} (l : list A) : bool := match l with [] => true | _ => false end.

Inductive MWEvent :=
  | AssemblerNotFoundBox (name : string)   (* QMessageBox::information *)
  | ManualLoadAsked                        (* ManualLoadDialog::exec *)
  | SettingsDialogShown                    (* SettingsDialog::exec *)
  | DatabaseDialogShown                    (* DatabaseDialog::exec *)
  | AboutDialogShown.                      (* AboutDialog::exec *)

(** The outside world the handlers read. *)
Record MWEnv := mkMWEnv {
  env_file_bytes : string -> list Byte.byte;              (* Buffer::fromFile *)
  env_file_name : string -> string;                       (* QFileInfo::fileName *)
  env_file_dir : string -> string;                        (* QFileInfo::path *)
  env_exists : string -> bool;                            (* QFileInfo::exists *)
  env_is_file : string -> bool;                           (* QFileInfo::isFile *)
  env_readable : string -> bool;                          (* QFileInfo::isReadable *)
  env_update_recents : string -> list string -> list string; (* REDasmSettings::updateRecentFiles *)
  env_get_format : list Byte.byte -> Format;              (* REDasm::getFormat *)
  env_has_assembler : string -> bool;                     (* REDasm::getAssembler != NULL *)
  env_centered : Z;                                       (* the centred frame position *)
  env_max_recents : nat                                   (* MAX_RECENT_FILES *)
}.

Record MWState := mkMWState {
  mw_buffer : list Byte.byte;
  mw_title : string;
  mw_cwd : string;
  mw_settings_recents : list string;      (* what REDasmSettings stores *)
  mw_recents : list string;               (* m_recents *)
  mw_recent_enabled : bool;               (* action_Recent_Files->isEnabled *)
  mw_recent_menu : list RecentAction;
  mw_stack : list Widget;                 (* ui->stackView pages, index 0 first *)
  mw_deleted : list Widget;               (* deleteLater requests *)
  mw_next_view : nat;
  mw_geometry : Z;
  mw_saved_geometry : option Z;           (* REDasmSettings geometry *)
  mw_events : list MWEvent
}.

Section Handlers.
Variable env : MWEnv.

(** [loadRecents]: re-read the settings and rebuild the menu. *)
Definition loadRecents (s : MWState) : MWState :=
  let recents := mw_settings_recents s in
  mkMWState (mw_buffer s) (mw_title s) (mw_cwd s) (mw_settings_recents s) recents
    (negb (empty recents)) (mainwindow_loadRecents (env_max_recents env) recents)
    (mw_stack s) (mw_deleted s) (mw_next_view s) (mw_geometry s) (mw_saved_geometry s) (mw_events s).

(** [checkPlugins]: [manual_ok] is the user's answer to the manual
    loader dialog, asked only for a binary format. *)
Definition checkPlugins (manual_ok : bool) (buffer : list Byte.byte) :
    list MWEvent * option (Format * string) :=
  let format := env_get_format env buffer in
  if fmt_binary format && negb manual_ok then ([ManualLoadAsked], None) else
  let asked := if fmt_binary format then [ManualLoadAsked] else [] in
  if env_has_assembler env (fmt_assembler format) then (asked, Some (format, fmt_assembler format))
  else (asked ++ [AssemblerNotFoundBox (fmt_assembler format)], None).

(** [initDisassembler]: a new view is created first; on failure it is
    deleted, on success it is appended and page 0 is removed and deleted. *)
Definition initDisassembler (manual_ok : bool) (s : MWState) : MWState :=
  let n := mw_next_view s in
  let '(evs, res) := checkPlugins manual_ok (mw_buffer s) in
  let with_pages stack deleted :=
    mkMWState (mw_buffer s) (mw_title s) (mw_cwd s) (mw_settings_recents s) (mw_recents s)
      (mw_recent_enabled s) (mw_recent_menu s) stack deleted (S n) (mw_geometry s)
      (mw_saved_geometry s) (mw_events s ++ evs) in
  match res with
  | None => with_pages (mw_stack s) (mw_deleted s ++ [DView n None])
  | Some dis =>
      let stack := mw_stack s ++ [DView n (Some dis)] in
      match stack !! 0%nat with
      | Some old => with_pages (filter (fun w => w ≠ old) stack) (mw_deleted s ++ [old])
      | None => with_pages stack (mw_deleted s)
      end
  end.

(** [load(filepath)]. *)
Definition load (manual_ok : bool) (filepath : string) (s : MWState) : MWState :=
  let buffer := env_file_bytes env filepath in
  let s := mkMWState buffer (env_file_name env filepath) (env_file_dir env filepath)
             (mw_settings_recents s) (mw_recents s) (mw_recent_enabled s) (mw_recent_menu s)
             (mw_stack s) (mw_deleted s) (mw_next_view s) (mw_geometry s) (mw_saved_geometry s)
             (mw_events s) in
  if empty buffer then s else
  let s := mkMWState (mw_buffer s) (mw_title s) (mw_cwd s)
             (env_update_recents env filepath (mw_settings_recents s)) (mw_recents s)
             (mw_recent_enabled s) (mw_recent_menu s) (mw_stack s) (mw_deleted s)
             (mw_next_view s) (mw_geometry s) (mw_saved_geometry s) (mw_events s) in
  initDisassembler manual_ok (loadRecents s).

(** [closeEvent]: [answer] is the message box's result, read only when a
    buffer is loaded. *)
Definition closeEvent (answer : MsgAnswer) (s : MWState) : CloseOutcome * MWState :=
  if negb (empty (mw_buffer s)) && negb (bool_decide (answer = AnswerYes))
  then (CloseIgnored, s)
  else (CloseAccepted,
        mkMWState (mw_buffer s) (mw_title s) (mw_cwd s) (mw_settings_recents s) (mw_recents s)
          (mw_recent_enabled s) (mw_recent_menu s) (mw_stack s) (mw_deleted s) (mw_next_view s)
          (mw_geometry s) (Some (mw_geometry s)) (mw_events s)).

(** [dragEnterEvent] and [dragMoveEvent]: accept a drag that carries URLs. *)
Definition dragAccepts (urls : list string) : bool := negb (empty urls).

(** [dropEvent]: the first URL, if it is a file; answers whether the drop
    was accepted. *)
Definition dropEvent (manual_ok : bool) (urls : list string) (s : MWState) : bool * MWState :=
  match urls with
  | [] => (false, s)
  | locfile :: _ => if env_is_file env locfile then (true, load manual_ok locfile s) else (false, s)
  end.

(** [onOpenClicked]: [chosen] is what the file dialog returned. *)
Definition onOpenClicked (manual_ok : bool) (chosen : string) (s : MWState) : MWState :=
  if bool_decide (chosen = "") then s else load manual_ok chosen s.

(** [onRecentFileClicked]: [sender] is the clicked action's data, [None]
    when the sender is not an action. *)
Definition onRecentFileClicked (manual_ok : bool) (sender : option string) (s : MWState) : MWState :=
  match sender with Some p => load manual_ok p s | None => s end.

(** [loadGeometry]. *)
Definition loadGeometry (s : MWState) : MWState :=
  mkMWState (mw_buffer s) (mw_title s) (mw_cwd s) (mw_settings_recents s) (mw_recents s)
    (mw_recent_enabled s) (mw_recent_menu s) (mw_stack s) (mw_deleted s) (mw_next_view s)
    (match mw_saved_geometry s with Some g => g | None => env_centered env end)
    (mw_saved_geometry s) (mw_events s).

Definition acceptable_arg (arg : string) : bool :=
  env_exists env arg && env_is_file env arg && env_readable env arg.

(** [checkCommandLine]: [args] includes the program path; the loop
    loads the first acceptable argument and breaks. *)
Fixpoint load_first (manual_ok : bool) (args : list string) (s : MWState) : MWState :=
  match args with
  | [] => s
  | arg :: rest => if acceptable_arg arg then load manual_ok arg s else load_first manual_ok rest s
  end.

Definition checkCommandLine (manual_ok : bool) (args : list string) (s : MWState) : MWState :=
  match args with
  | [] | [_] => s
  | _ :: rest => load_first manual_ok rest s
  end.

(** The constructor: [settings] are the stored recents and geometry. *)
Definition create (recents : list string) (geometry : option Z) (manual_ok : bool)
    (args : list string) : MWState :=
  let s := mkMWState [] "" "" recents [] false [] [InitialPage] [] 0 0 geometry [] in
  loadRecents (checkCommandLine manual_ok args (loadGeometry s)).

(** A modal dialog run to completion. *)
Definition mw_emit (e : MWEvent) (s : MWState) : MWState :=
  mkMWState (mw_buffer s) (mw_title s) (mw_cwd s) (mw_settings_recents s) (mw_recents s)
    (mw_recent_enabled s) (mw_recent_menu s) (mw_stack s) (mw_deleted s) (mw_next_view s)
    (mw_geometry s) (mw_saved_geometry s) (mw_events s ++ [e]).

Definition onSettingsClicked : MWState -> MWState := mw_emit SettingsDialogShown.
Definition onDatabaseClicked : MWState -> MWState := mw_emit DatabaseDialogShown.
Definition onAboutClicked : MWState -> MWState := mw_emit AboutDialogShown.

End Handlers.

(** ** The window as a transition system *)

(** Any handler may run, with any user input. *)
Inductive mw_step (env : MWEnv) : MWState -> MWState -> Prop :=
  | mw_open m chosen s : mw_step env s (onOpenClicked env m chosen s)
  | mw_recent m sender s : mw_step env s (onRecentFileClicked env m sender s)
  | mw_drop m urls s : mw_step env s (dropEvent env m urls s).2
  | mw_close answer s : mw_step env s (snd (closeEvent answer s))
  | mw_settings s : mw_step env s (onSettingsClicked s)
  | mw_database s : mw_step env s (onDatabaseClicked s)
  | mw_about s : mw_step env s (onAboutClicked s).

Definition mw_reachable (env : MWEnv) (s : MWState) : Prop :=
  exists recents geometry m args, rtc (mw_step env) (create env recents geometry m args) s.

(** A page of the stack is well formed: a view was created before [n]
    and has its disassembler. *)
Definition page_ok (n : nat) (w : Widget) : Prop :=
  match w with InitialPage => True | DView k dis => (k < n)%nat /\ is_Some dis end.

(** The stacked widget shows exactly one well-formed page. *)
Definition mw_wf (s : MWState) : Prop :=
  exists w, mw_stack s = [w] /\ page_ok (mw_next_view s) w.

(** ** Properties *)

Section Props.
Variable env : MWEnv.

Lemma page_ok_mono n n' w : (n <= n')%nat -> page_ok n w -> page_ok n' w.
Proof. destruct w; simpl; [auto|intros ? [? ?]; split; [lia|assumption]]. Qed.

(** [mw_wf] reads the pages and the view counter only. *)
Lemma mw_wf_frame s s' :
  mw_stack s' = mw_stack s -> mw_next_view s' = mw_next_view s -> mw_wf s -> mw_wf s'.
Proof. unfold mw_wf. intros -> ->. exact id. Qed.

Local Ltac wf_frame H := eapply mw_wf_frame; [reflexivity|reflexivity|exact H].

Lemma initDisassembler_wf m s : mw_wf s -> mw_wf (initDisassembler env m s).
Proof.
  intros (w & Hst & Hw). unfold initDisassembler.
  destruct (checkPlugins env m (mw_buffer s)) as [evs [dis|]]; simpl; rewrite Hst.
  - simpl. exists (DView (mw_next_view s) (Some dis)). simpl.
    rewrite filter_cons_False by (intros []; reflexivity).
    rewrite filter_cons_True by (intros <-; destruct Hw; lia).
    split; [reflexivity|split; [lia|eexists; reflexivity]].
  - exists w. split; [reflexivity|]. simpl. apply (page_ok_mono (mw_next_view s)); [lia|exact Hw].
Qed.

Lemma load_wf m p s : mw_wf s -> mw_wf (load env m p s).
Proof.
  intros Hwf. unfold load. destruct (empty _); [exact Hwf|].
  apply initDisassembler_wf. exact Hwf.
Qed.

Lemma load_first_wf m args s : mw_wf s -> mw_wf (load_first env m args s).
Proof. revert s. induction args as [|a args IH]; simpl; intros s Hwf; [exact Hwf|]. case_match; auto using load_wf. Qed.

Lemma mw_step_wf s s' : mw_step env s s' -> mw_wf s -> mw_wf s'.
Proof.
  intros [] Hwf; unfold onOpenClicked, onRecentFileClicked, dropEvent, closeEvent,
    onSettingsClicked, onDatabaseClicked, onAboutClicked, mw_emit;
    repeat case_match; simpl; first [apply load_wf, Hwf|wf_frame Hwf].
Qed.

Lemma create_wf recents geometry m args : mw_wf (create env recents geometry m args).
Proof.
  unfold create. eapply mw_wf_frame; [reflexivity|reflexivity|].
  unfold checkCommandLine. destruct args as [|a [|b rest]]; [| |apply load_first_wf];
    exists InitialPage; split; solve [reflexivity|exact I].
Qed.

Lemma rtc_mw_wf s s' : rtc (mw_step env) s s' -> mw_wf s -> mw_wf s'.
Proof. induction 1; eauto using mw_step_wf. Qed.

(** [checkCommandLine] loads the first acceptable argument after the
    program path, and nothing when there is none. *)
Lemma load_first_find m args s :
  load_first env m args s =
  match list_find (fun a => acceptable_arg env a = true) args with
  | Some (_, a) => load env m a s
  | None => s
  end.
Proof.
  induction args as [|a args IH]; simpl; [reflexivity|].
  case_decide as Ha; [rewrite Ha; reflexivity|].
  apply not_true_is_false in Ha. rewrite Ha, IH.
  destruct (list_find _ args) as [[]|]; reflexivity.
Qed.

Lemma checkCommandLine_first m args s :
  checkCommandLine env m args s =
  match list_find (fun a => acceptable_arg env a = true) (tail args) with
  | Some (_, a) => load env m a s
  | None => s
  end.
Proof. destruct args as [|a [|b rest]]; simpl; try reflexivity. apply (load_first_find m (b :: rest)). Qed.

(** When the plugins of a non-empty file are missing, the new view is
    deleted and the old page stays, under the new buffer. *)
Lemma load_plugins_missing_keeps_view m p s :
  env_file_bytes env p <> [] -> snd (checkPlugins env m (env_file_bytes env p)) = None ->
  mw_stack (load env m p s) = mw_stack s /\ mw_buffer (load env m p s) = env_file_bytes env p /\
  DView (mw_next_view s) None ∈ mw_deleted (load env m p s).
Proof.
  intros Hne Hc. unfold load.
  destruct (env_file_bytes env p) as [|b buf] eqn:E; [contradiction|]. simpl.
  unfold initDisassembler. simpl.
  destruct (checkPlugins env m (b :: buf)) as [evs [dis|]]; simpl in Hc; [discriminate|].
  simpl. split_and!; [reflexivity|reflexivity|set_solver].
Qed.

(** C38: whatever the user does, [ui->stackView] shows exactly one page,
    and when that page is a [DisassemblerView] it has its disassembler:
    [initDisassembler] removes the old page exactly when it adds a view
    whose plugins were found, so page 0 is never a new view. *)
Theorem mainwindow_single_page s :
  mw_reachable env s ->
  exists w, mw_stack s = [w] /\ match w with InitialPage => True | DView _ dis => is_Some dis end.
Proof.
  intros (r & g & m & args & Hr). destruct (rtc_mw_wf _ _ Hr (create_wf r g m args)) as (w & Hst & Hw).
  exists w. split; [exact Hst|]. destruct w; [exact I|apply Hw].
Qed.

(** C39: closing asks for confirmation exactly when a buffer is loaded:
    the close is refused, with nothing changed, exactly when a buffer is
    loaded and the answer is not Yes; an accepted close stores the
    window geometry in the settings. *)
Theorem close_confirmation answer s :
  (fst (closeEvent answer s) = CloseIgnored <-> mw_buffer s <> [] /\ answer <> AnswerYes) /\
  (fst (closeEvent answer s) = CloseIgnored -> snd (closeEvent answer s) = s) /\
  (fst (closeEvent answer s) = CloseAccepted ->
   mw_saved_geometry (snd (closeEvent answer s)) = Some (mw_geometry s)).
Proof.
  unfold closeEvent. destruct (mw_buffer s) as [|b buf]; simpl;
    [|case_bool_decide as Ha; simpl]; split_and!; intros; simplify_eq; try reflexivity;
    intuition congruence.
Qed.

(** C40: loading a file that turns out empty (missing, unreadable or of
    size zero) while a disassembly is shown replaces the buffer and the
    title but keeps the old view: the window then shows the previous
    file's disassembly under the new file's name, and closing it no
    longer asks for confirmation. *)
Theorem empty_load_keeps_view m p s n dis answer :
  mw_stack s = [DView n (Some dis)] -> env_file_bytes env p = [] ->
  mw_stack (load env m p s) = [DView n (Some dis)] /\
  mw_title (load env m p s) = env_file_name env p /\
  fst (closeEvent answer (load env m p s)) = CloseAccepted.
Proof.
  intros Hst Hp. unfold load. rewrite Hp. simpl. split_and!; [exact Hst|reflexivity|reflexivity].
Qed.

End Props.

(** ** Samples *)

Module MainWindowSamples.

(** One loadable file [a.out], an ELF-like buffer for the x86 assembler;
    every other path reads as empty. *)
Definition sample_env : MWEnv :=
  mkMWEnv (fun p => if bool_decide (p = "a.out") then [Byte.x7f; Byte.x45] else [])
    (fun p => p) (fun _ => "/tmp")
    (fun p => bool_decide (p = "a.out")) (fun p => bool_decide (p = "a.out"))
    (fun p => bool_decide (p = "a.out"))
    (fun p l => p :: l) (fun _ => mkFormat false "x86") (fun a => bool_decide (a = "x86")) 0 10.

Definition started : MWState := create sample_env [] None true ["redasm"].

Definition opened : MWState := onOpenClicked sample_env true "a.out" started.

End MainWindowSamples.

Import MainWindowSamples.

Lemma mainwindow_single_page_witness :
  exists w, mw_stack opened = [w] /\ match w with InitialPage => True | DView _ dis => is_Some dis end.
Proof.
  apply (mainwindow_single_page sample_env opened).
  exists [], None, true, ["redasm"]. apply rtc_once, mw_open.
Defined.

Lemma empty_load_keeps_view_witness :
  mw_stack (load sample_env true "missing.bin" opened) = [DView 0 (Some (mkFormat false "x86", "x86"))] /\
  mw_title (load sample_env true "missing.bin" opened) = "missing.bin" /\
  fst (closeEvent AnswerNo (load sample_env true "missing.bin" opened)) = CloseAccepted.
Proof.
  apply (empty_load_keeps_view sample_env true "missing.bin" opened 0 (mkFormat false "x86", "x86") AnswerNo);
    vm_compute; reflexivity.
Defined.
